(** * ectuner: the optimisation kernel of the EC-Earth tuner

    A shallow embedding of [ectuner.py]: the reference table
    ([load_reference]), the bias table ([compute_difference]), the score
    ([objective_function]), the log ([print_change]), the per-parameter
    constraint functions, the derived bounds ([diffmax]), the output for
    Script Engine, the report rows and the command-line defaulting
    ([get_arg]).

    Numbers.  The program computes on Python and numpy floats.  They are
    modelled by [float] below: exact rationals extended with the three IEEE
    special values.  Rounding, overflow and the sign of zero are not
    modelled there; the treatment of NaN and of division by zero is, because
    the program depends on it ([math.isnan], and the numpy quotients of the
    penalty term and of the report, which give inf or nan and a warning
    where a Python float division would raise).  The two properties of the
    score that rounding, overflow and underflow decide (its sign, and when
    its penalty term is zero) are stated on the same code in binary64
    ([Rounded], [Binary64]), with the operations of [SpecFloat].

    Dictionaries.  A Python dict is an association list in insertion order:
    the loops of the program iterate in that order.  [dict_get] returns the
    first binding of a key and [dict_set] replaces it in place or appends a
    new one, so a list with pairwise distinct keys ([unique_keys]) behaves
    as the Python object does.

    Exceptions.  A computation that can raise returns a [result]. *)

From Stdlib Require Import List String Bool ZArith QArith Qabs Lqa Lia SpecFloat.
Import ListNotations.

Open Scope string_scope.
Open Scope Q_scope.

(* ------------------------------------------------------------------ *)
(** ** Floats: rationals with inf and nan *)

Inductive float : Type :=
| Fin (q : Q)
| PInf
| NInf
| NaN.

(** The sign of a rational, as -1, 0 or 1. *)
Definition Qsgn (q : Q) : Z := Z.sgn (Qnum q).

Definition is_zero (q : Q) : bool := (Qnum q =? 0)%Z.

Definition signed_inf (s : Z) : float :=
  match s with
  | Z0 => NaN
  | Zpos _ => PInf
  | Zneg _ => NInf
  end.

Definition fneg (x : float) : float :=
  match x with
  | Fin q => Fin (- q)
  | PInf => NInf
  | NInf => PInf
  | NaN => NaN
  end.

Definition fadd (x y : float) : float :=
  match x, y with
  | NaN, _ | _, NaN => NaN
  | Fin a, Fin b => Fin (a + b)
  | PInf, NInf | NInf, PInf => NaN
  | PInf, _ | _, PInf => PInf
  | NInf, _ | _, NInf => NInf
  end.

Definition fsub (x y : float) : float := fadd x (fneg y).

Definition fsgn (x : float) : Z :=
  match x with
  | Fin q => Qsgn q
  | PInf => 1
  | NInf => -1
  | NaN => 0
  end.

Definition fmul (x y : float) : float :=
  match x, y with
  | NaN, _ | _, NaN => NaN
  | Fin a, Fin b => Fin (a * b)
  | _, _ => signed_inf (fsgn x * fsgn y)
  end.

(** numpy's float64 quotient: a finite number over zero is an infinity of
    the sign of the numerator, 0/0 and inf/inf are nan; nothing is raised. *)
Definition fdiv (x y : float) : float :=
  match x, y with
  | NaN, _ | _, NaN => NaN
  | Fin a, Fin b => if is_zero b then signed_inf (Qsgn a) else Fin (a / b)
  | Fin _, _ => Fin 0
  | _, Fin b => if is_zero b then x else signed_inf (fsgn x * Qsgn b)
  | _, _ => NaN
  end.

(** [x ** 2] *)
Definition fpow2 (x : float) : float := fmul x x.

(** [np.abs] *)
Definition fabs (x : float) : float :=
  match x with
  | Fin q => Fin (Qabs q)
  | PInf | NInf => PInf
  | NaN => NaN
  end.

(** [math.isnan] *)
Definition isnan (x : float) : bool :=
  match x with NaN => true | _ => false end.

Definition is_finite (x : float) : bool :=
  match x with Fin _ => true | _ => false end.

(** Python's truth value of a float: only zero is false (nan is true). *)
Definition float_truthy (x : float) : bool :=
  match x with Fin q => negb (is_zero q) | _ => true end.

(* ------------------------------------------------------------------ *)
(** ** Exceptions *)

Inductive exn : Type :=
| KeyError
| IndexError
| AttributeError
| TypeError
| SystemExit.

Inductive result (A : Type) : Type :=
| Ok (a : A)
| Raise (e : exn).

Arguments Ok {A} a.
Arguments Raise {A} e.

Definition bind {A B} (m : result A) (f : A -> result B) : result B :=
  match m with
  | Ok a => f a
  | Raise e => Raise e
  end.

Notation "x <- m ;; k" := (bind m (fun x => k))
  (at level 61, m at next level, right associativity).

(** A loop with an accumulator whose body can raise. *)
Fixpoint foldM {A S} (f : S -> A -> result S) (l : list A) (s : S) : result S :=
  match l with
  | [] => Ok s
  | a :: l' => s' <- f s a ;; foldM f l' s'
  end.

(** A list comprehension whose element expression can raise. *)
Fixpoint mapM {A B} (f : A -> result B) (l : list A) : result (list B) :=
  match l with
  | [] => Ok []
  | a :: l' => b <- f a ;; bs <- mapM f l' ;; Ok (b :: bs)
  end.

(** [enumerate(l)] *)
Fixpoint enumerate_from {A} (i : nat) (l : list A) : list (nat * A) :=
  match l with
  | [] => []
  | a :: l' => (i, a) :: enumerate_from (S i) l'
  end.

Definition enumerate {A} (l : list A) : list (nat * A) := enumerate_from 0 l.

(** [l[i]] on a list or an array *)
Definition index {A} (l : list A) (i : nat) : result A :=
  match nth_error l i with
  | Some a => Ok a
  | None => Raise IndexError
  end.

(* ------------------------------------------------------------------ *)
(** ** Dictionaries *)

Definition dict (V : Type) : Type := list (string * V).

Fixpoint dict_get {V} (d : dict V) (k : string) : option V :=
  match d with
  | [] => None
  | (k', v) :: d' => if String.eqb k' k then Some v else dict_get d' k
  end.

(** [d[k] = v] *)
Fixpoint dict_set {V} (d : dict V) (k : string) (v : V) : dict V :=
  match d with
  | [] => [(k, v)]
  | (k', v') :: d' =>
      if String.eqb k' k then (k, v) :: d' else (k', v') :: dict_set d' k v
  end.

(** [d.keys()] *)
Definition keys {V} (d : dict V) : list string := map fst d.

(** [k in d] *)
Definition dict_in {V} (k : string) (d : dict V) : bool :=
  match dict_get d k with Some _ => true | None => false end.

(** [d[k]] *)
Definition getitem {V} (d : dict V) (k : string) : result V :=
  match dict_get d k with
  | Some v => Ok v
  | None => Raise KeyError
  end.

(** [d.get(k, default)] *)
Definition get_default {V} (d : dict V) (k : string) (default : V) : V :=
  match dict_get d k with
  | Some v => v
  | None => default
  end.

Fixpoint mem_string (k : string) (l : list string) : bool :=
  match l with
  | [] => false
  | k' :: l' => String.eqb k' k || mem_string k l'
  end.

Fixpoint distinct (l : list string) : bool :=
  match l with
  | [] => true
  | k :: l' => negb (mem_string k l') && distinct l'
  end.

(** The keys of a dict are pairwise distinct. *)
Definition unique_keys {V} (d : dict V) : bool := distinct (keys d).

(** The tables of the program: variable or flux, then season, then region. *)
Definition table (V : Type) : Type := dict (dict (dict V)).

Definition lookup3 {V} (t : table V) (k1 k2 k3 : string) : option V :=
  match dict_get t k1 with
  | Some m =>
      match dict_get m k2 with
      | Some r => dict_get r k3
      | None => None
      end
  | None => None
  end.

(** Distinct keys at the three levels of a table. *)
Definition unique_keys3 {V} (t : table V) : bool :=
  unique_keys t &&
  forallb (fun kv : string * dict (dict V) =>
             unique_keys (snd kv) &&
             forallb (fun kv' : string * dict V => unique_keys (snd kv')) (snd kv)) t.

(* ------------------------------------------------------------------ *)
(** ** compute_difference *)

Section ComputeDifference.

Variable reference : table float.

(** [difference[key][subkey][subsubkey] = v] *)
Definition setitem3 (difference : table float) (key subkey subsubkey : string)
           (v : float) : result (table float) :=
  m <- getitem difference key ;;
  r <- getitem m subkey ;;
  Ok (dict_set difference key (dict_set m subkey (dict_set r subsubkey v))).

(** [difference[key][subkey] = {}] *)
Definition setitem2 (difference : table float) (key subkey : string)
           (v : dict float) : result (table float) :=
  m <- getitem difference key ;;
  Ok (dict_set difference key (dict_set m subkey v)).

(** The innermost loop, over [subvalue.items()]. *)
Definition region_loop (key subkey : string) (subvalue : dict float)
           (difference : table float) : result (table float) :=
  foldM (fun difference (item : string * float) =>
           let '(subsubkey, subsubvalue) := item in
           rk <- getitem reference key ;;
           rks <- getitem rk subkey ;;
           if dict_in subsubkey rks then
             x <- getitem rks subsubkey ;;
             setitem3 difference key subkey subsubkey (fsub subsubvalue x)
           else Ok difference)
        subvalue difference.

(** [key in reference and subkey in reference[key]] *)
Definition matched (key subkey : string) : bool :=
  match dict_get reference key with
  | Some rk => dict_in subkey rk
  | None => false
  end.

(** The loop over [value.items()]. *)
Definition season_loop (key : string) (value : dict (dict float))
           (difference : table float) : result (table float) :=
  foldM (fun difference (item : string * dict float) =>
           let '(subkey, subvalue) := item in
           if matched key subkey then
             difference <- setitem2 difference key subkey [] ;;
             region_loop key subkey subvalue difference
           else Ok difference)
        value difference.

Definition compute_difference (base : table float) : result (table float) :=
  foldM (fun difference (item : string * dict (dict float)) =>
           let '(key, value) := item in
           season_loop key value (dict_set difference key []))
        base [].

End ComputeDifference.

(* ------------------------------------------------------------------ *)
(** ** objective_function *)

(** A sensitivity coefficient is stored as a sequence whose first element is
    the number. *)
Definition sens_table : Type := dict (table (list float)).

Section Objective.

Variable changes : list float.
Variable params : list string.
Variable values : dict float.
Variable reference_pars : dict float.
Variable penalty : float.
Variable sensitivity : sens_table.
Variable difference : table float.
Variables weights_flux weights_season weights_region : dict float.

(** [sensitivity[param][fluxname][season][region][0]] *)
Definition coefficient (param fluxname season region : string) : result float :=
  sp <- getitem sensitivity param ;;
  sf <- getitem sp fluxname ;;
  ss <- getitem sf season ;;
  sr <- getitem ss region ;;
  index sr 0.

(** [sum(sensitivity[param][fluxname][season][region][0] * changes[i]
        for i, param in enumerate(params))] *)
Definition flux_change (fluxname season region : string) : result float :=
  foldM (fun acc (ip : nat * string) =>
           let '(i, param) := ip in
           c <- coefficient param fluxname season region ;;
           x <- index changes i ;;
           Ok (fadd acc (fmul c x)))
        (enumerate params) (Fin 0).

(** [difference.get(fluxname, {}).get(season, {}).get(region, np.nan)] *)
Definition bias_or_nan (fluxname season region : string) : float :=
  get_default (get_default (get_default difference fluxname []) season []) region NaN.

(** The body of the innermost loop. *)
Definition triple_step (fluxname season : string)
           (total_difference : float) (region : string) : result float :=
  if negb (isnan (bias_or_nan fluxname season region)) then
    fc <- flux_change fluxname season region ;;
    wf <- getitem weights_flux fluxname ;;
    wr <- getitem weights_region region ;;
    ws <- getitem weights_season season ;;
    df <- getitem difference fluxname ;;
    ds <- getitem df season ;;
    d <- getitem ds region ;;
    Ok (fadd total_difference
             (fmul (fmul (fmul wf wr) ws) (fpow2 (fadd d fc))))
  else Ok total_difference.

Definition season_step (fluxname : string)
           (total_difference : float) (season : string) : result float :=
  p0 <- index params 0 ;;
  sp <- getitem sensitivity p0 ;;
  sf <- getitem sp fluxname ;;
  ss <- getitem sf season ;;
  foldM (triple_step fluxname season) (keys ss) total_difference.

Definition flux_step (total_difference : float) (fluxname : string)
  : result float :=
  p0 <- index params 0 ;;
  sp <- getitem sensitivity p0 ;;
  sf <- getitem sp fluxname ;;
  foldM (season_step fluxname) (keys sf) total_difference.

(** The flux term: the value of [total_difference] after the loops. *)
Definition total_difference : result float :=
  p0 <- index params 0 ;;
  sp <- getitem sensitivity p0 ;;
  foldM flux_step (keys sp) (Fin 0).

(** One element of the list summed into [param_difference]. *)
Definition param_term (ip : nat * string) : result float :=
  let '(i, param) := ip in
  r <- getitem reference_pars param ;;
  v <- getitem values param ;;
  x <- index changes i ;;
  r' <- getitem reference_pars param ;;
  Ok (fpow2 (fdiv (fsub r (fadd v x)) r')).

(** The sum of squared relative deviations: the value of
    [param_difference]. *)
Definition param_difference : result float :=
  terms <- mapM param_term (enumerate params) ;;
  Ok (fadd (Fin 0) (fold_left fadd terms (Fin 0))).

Definition objective_function : result float :=
  t <- total_difference ;;
  p <- param_difference ;;
  Ok (fadd t (fmul p penalty)).

End Objective.

(* ------------------------------------------------------------------ *)
(** ** The command line and the configuration *)

(** The values an argparse namespace and a YAML scalar can hold. *)
Inductive pyval : Type :=
| PNone
| PInt (z : Z)
| PFloat (x : float)
| PStr (s : string).

(** Python's truth value. *)
Definition truthy (v : pyval) : bool :=
  match v with
  | PNone => false
  | PInt z => negb (z =? 0)%Z
  | PFloat x => float_truthy x
  | PStr s => negb (String.eqb s "")
  end.

(** [getattr(args, arg)] *)
Definition getattr (args : dict pyval) (arg : string) : result pyval :=
  match dict_get args arg with
  | Some v => Ok v
  | None => Raise AttributeError
  end.

Definition get_arg (args : dict pyval) (arg : string) (default : pyval)
  : result pyval :=
  res <- getattr args arg ;;
  Ok (if negb (truthy res) then default else res).

(** The part of the configuration file the program reads (the file names
    apart). *)
Record config : Type := {
  cfg_args : dict pyval;
  reference_parameters : dict float;
  weights : dict float;
  weights_region_of : dict float;
  weights_season_of : dict float
}.

(** The settings after the command line and the configuration are merged. *)
Record settings : Type := {
  config_file : pyval;
  year1 : pyval;
  year2 : pyval;
  exp : pyval;
  loglevel : pyval;
  maxiter : pyval;
  penalty_arg : pyval;
  inc_arg : pyval;
  out : pyval
}.

(** [if not v: v = config['args'][name]] *)
Definition or_config (cfg : config) (name : string) (v : pyval) : result pyval :=
  if negb (truthy v) then getitem (cfg_args cfg) name else Ok v.

(** The first lines of the main program, up to the debug output.
    [load_config] stands for the reading of the configuration file. *)
Definition resolve_args (load_config : pyval -> config) (args : dict pyval)
  : result (settings * config) :=
  config_file <- get_arg args "config" (PStr "config-tuner.yaml") ;;
  year1 <- get_arg args "year1" PNone ;;
  year2 <- get_arg args "year2" PNone ;;
  exp <- get_arg args "exp" PNone ;;
  loglevel <- get_arg args "loglevel" (PStr "INFO") ;;
  maxiter <- get_arg args "maxiter" (PInt 10000) ;;
  penalty <- get_arg args "penalty" PNone ;;
  inc <- get_arg args "inc" PNone ;;
  out <- get_arg args "output" PNone ;;
  if negb (truthy exp) then Raise SystemExit else
  let cfg := load_config config_file in
  year1 <- or_config cfg "year1" year1 ;;
  year2 <- or_config cfg "year2" year2 ;;
  penalty <- or_config cfg "penalty" penalty ;;
  inc <- or_config cfg "inc" inc ;;
  Ok ({| config_file := config_file; year1 := year1; year2 := year2;
         exp := exp; loglevel := loglevel; maxiter := maxiter;
         penalty_arg := penalty; inc_arg := inc; out := out |}, cfg).

(* ------------------------------------------------------------------ *)
(** ** Bounds, constraints and reports *)

(** [load_params], after the file is read: the names and the values. *)
Definition load_params (pars : dict float) : list string * list float :=
  (map fst pars, map snd pars).

(** A setting used as a number: [None] and strings cannot be multiplied
    with a float. *)
Definition number_of (v : pyval) : result float :=
  match v with
  | PInt z => Ok (Fin (inject_Z z))
  | PFloat x => Ok x
  | _ => Raise TypeError
  end.

(** The loop that fills [diffmax] and [values]; [inc] is the merged
    setting, used as a number in [vals[i] * inc]. *)
Definition bounds_step (params : list string) (vals : list float) (inc : pyval)
           (st : dict float * dict float) (i : nat)
  : result (dict float * dict float) :=
  let '(diffmax, values) := st in
  p <- index params i ;;
  v <- index vals i ;;
  k <- number_of inc ;;
  let diffmax := dict_set diffmax p (fmul v k) in
  p' <- index params i ;;
  v' <- index vals i ;;
  Ok (diffmax, dict_set values p' v').

Definition bounds (params : list string) (vals : list float) (inc : pyval)
  : result (dict float * dict float) :=
  foldM (bounds_step params vals inc) (seq 0 (List.length params)) ([], []).

(** The function of the [i]-th constraint:
    [lambda x, i=i: diffmax[params[i]] - np.abs(x[i])]. *)
Definition constraint_fun (diffmax : dict float) (params : list string)
           (i : nat) (x : list float) : result float :=
  p <- index params i ;;
  m <- getitem diffmax p ;;
  xi <- index x i ;;
  Ok (fsub m (fabs xi)).

Definition constraints (diffmax : dict float) (params : list string)
  : list (list float -> result float) :=
  map (constraint_fun diffmax params) (seq 0 (List.length params)).

(** [np.zeros(n)] *)
Definition zeros (n : nat) : list float := repeat (Fin 0) n.

(** [print_change]: the lines it logs. *)
Definition print_change (targets : list string) (difference : table float)
           (sensitivity : sens_table) (params : list string)
           (changes : list float) : result (list (string * string * float)) :=
  foldM (fun lines fluxname =>
           df <- getitem difference fluxname ;;
           da <- getitem df "ALL" ;;
           foldM (fun lines region =>
                    df <- getitem difference fluxname ;;
                    da <- getitem df "ALL" ;;
                    d <- getitem da region ;;
                    if negb (isnan d) then
                      fc <- flux_change changes params sensitivity
                                        fluxname "ALL" region ;;
                      Ok (lines ++ [(fluxname, region, fadd d fc)])%list
                    else Ok lines)
                 (keys da) lines)
        targets [].

(** What the main program has built when it calls the minimizer. *)
Record setup : Type := {
  su_params : list string;
  su_values : dict float;
  su_diffmax : dict float;
  su_difference : table float;
  su_initial_guess : list float;
  su_log : list (string * string * float)
}.

(** The main program from the loading of the tables to the call of
    [minimize]; [inc] is the merged setting. *)
Definition before_optimization (cfg : config) (inc : pyval)
           (sensitivity : sens_table) (reference base : table float)
           (pars : dict float) : result setup :=
  let targets := keys (weights cfg) in
  let '(params, vals) := load_params pars in
  difference <- compute_difference reference base ;;
  dv <- bounds params vals inc ;;
  let '(diffmax, values) := dv in
  let initial_guess := zeros (List.length params) in
  log <- print_change targets difference sensitivity params initial_guess ;;
  Ok {| su_params := params; su_values := values; su_diffmax := diffmax;
        su_difference := difference; su_initial_guess := initial_guess;
        su_log := log |}.

(** A row of the final table: parameter, new value, old value, change,
    relative change, maximum change. *)
Record row : Type := {
  row_param : string;
  new_value : float;
  old_value : float;
  change : float;
  relative_change : float;
  max_change : float
}.

(** [{params[i]: result.x[i] for i in range(len(params))}] *)
Definition optimal_changes_of (params : list string) (x : list float)
  : result (dict float) :=
  foldM (fun oc i =>
           p <- index params i ;;
           xi <- index x i ;;
           Ok (dict_set oc p xi))
        (seq 0 (List.length params)) [].

(** The rows appended to [outtable]. *)
Definition report (values diffmax optimal_changes : dict float)
  : result (list row) :=
  mapM (fun p =>
          v <- getitem values p ;;
          c <- getitem optimal_changes p ;;
          v' <- getitem values p ;;
          c' <- getitem optimal_changes p ;;
          c'' <- getitem optimal_changes p ;;
          v'' <- getitem values p ;;
          m <- getitem diffmax p ;;
          Ok {| row_param := p; new_value := fadd v c; old_value := v';
                change := c'; relative_change := fdiv c'' v'';
                max_change := m |})
       (keys optimal_changes).

(** The main program from the command line to the call of [minimize]. *)
Definition main_until_minimize (load_config : pyval -> config)
           (args : dict pyval) (sensitivity : sens_table)
           (reference base : table float) (pars : dict float)
  : result (settings * setup) :=
  sc <- resolve_args load_config args ;;
  let '(st, cfg) := sc in
  su <- before_optimization cfg (inc_arg st) sensitivity reference base pars ;;
  Ok (st, su).


(* ------------------------------------------------------------------ *)
(** ** Sample data *)

Definition sample_args : dict pyval :=
  [("config", PNone); ("output", PNone); ("loglevel", PNone);
   ("maxiter", PInt 0); ("penalty", PFloat (Fin 0)); ("inc", PFloat (Fin 0));
   ("exp", PStr "s000"); ("year1", PInt 1990); ("year2", PInt 1997)].

Definition sample_config : config :=
  {| cfg_args := [("year1", PInt 1990); ("year2", PInt 1997);
                  ("penalty", PFloat (Fin (1 # 100)));
                  ("inc", PFloat (Fin (1 # 10)))];
     reference_parameters := [("ocean_albedo", Fin (6 # 100))];
     weights := [("tas", Fin 1)];
     weights_region_of := [("Global", Fin 1)];
     weights_season_of := [("ALL", Fin 1)] |}.

Definition sample_settings : settings :=
  {| config_file := PStr "config-tuner.yaml"; year1 := PInt 1990;
     year2 := PInt 1997; exp := PStr "s000"; loglevel := PStr "INFO";
     maxiter := PInt 10000; penalty_arg := PFloat (Fin (1 # 100));
     inc_arg := PFloat (Fin (1 # 10)); out := PNone |}.

Definition negative_pars : dict float := [("rlcrit", Fin (- (1)))].

Definition sample_sensitivity : sens_table :=
  [("ocean_albedo", [("tas", [("ALL", [("Global", [Fin (- (10))])])])])].

Definition sample_reference : table float :=
  [("tas", [("ALL", [("Global", Fin 14)])])].

Definition sample_base : table float :=
  [("tas", [("ALL", [("Global", Fin (29 # 2))])])].

Definition sample_difference : table float :=
  [("tas", [("ALL", [("Global", Fin (1 # 2))])])].

Definition sample_pars : dict float := [("ocean_albedo", Fin (6 # 100))].

(** The sample configuration with a reference value of zero. *)
Definition zero_reference_config : config :=
  {| cfg_args := cfg_args sample_config;
     reference_parameters := [("ocean_albedo", Fin 0)];
     weights := weights sample_config;
     weights_region_of := weights_region_of sample_config;
     weights_season_of := weights_season_of sample_config |}.

(** A parameter file with a current value of zero. *)
Definition zero_pars : dict float := [("ocean_albedo", Fin 0)].

Definition sample_setup (pars : dict float) (diffmax : dict float) : setup :=
  {| su_params := ["ocean_albedo"]; su_values := pars;
     su_diffmax := diffmax;
     su_difference := sample_difference;
     su_initial_guess := [Fin 0];
     su_log := [("tas", "Global", Fin (1 # 2))] |}.

(* ------------------------------------------------------------------ *)
(** ** Closed forms used in the proofs *)

(** What the loop of [bounds] computes, as a fold over the parameter file. *)
Definition bounds_of (inc : float) (pars : dict float)
           (st : dict float * dict float) : dict float * dict float :=
  fold_left (fun st (kv : string * float) =>
               (dict_set (fst st) (fst kv) (fmul (snd kv) inc),
                dict_set (snd st) (fst kv) (snd kv)))
            pars st.

(* ------------------------------------------------------------------ *)
(** ** Valid model data *)

(** The data of the parameter at position [fst ip] are real numbers and its
    reference value is not zero. *)
Definition valid_param (reference_pars values : dict float)
           (changes : list float) (ip : nat * string) : Prop :=
  exists r v c,
    dict_get reference_pars (snd ip) = Some (Fin r) /\
    dict_get values (snd ip) = Some (Fin v) /\
    nth_error changes (fst ip) = Some (Fin c) /\
    ~ r == 0.

(** Current value plus change is the reference value. *)
Definition on_reference (reference_pars values : dict float)
           (changes : list float) (ip : nat * string) : Prop :=
  exists r v c,
    dict_get reference_pars (snd ip) = Some (Fin r) /\
    dict_get values (snd ip) = Some (Fin v) /\
    nth_error changes (fst ip) = Some (Fin c) /\
    v + c == r.

(** The (flux, season, region) triples of a table, in the order in which
    three nested loops over its keys visit them. *)
Definition triples {V} (t : table V) : list (string * string * string) :=
  flat_map (fun f =>
              flat_map (fun s =>
                          map (fun r => (f, s, r))
                              (keys (get_default (get_default t f []) s [])))
                       (keys (get_default t f [])))
           (keys t).

(** The body of the loops of [objective_function] on a triple. *)
Definition step3 (changes : list float) (params : list string)
           (sensitivity : sens_table) (difference : table float)
           (weights_flux weights_season weights_region : dict float)
           (acc : float) (t : string * string * string) : result float :=
  let '(f, s, r) := t in
  triple_step changes params sensitivity difference
              weights_flux weights_season weights_region f s acc r.

(** Every parameter has a real sensitivity coefficient for the triple and a
    real change. *)
Definition real_coefficients (changes : list float) (params : list string)
           (sensitivity : sens_table) (f s r : string) : Prop :=
  Forall (fun ip : nat * string =>
            exists c x,
              coefficient sensitivity (snd ip) f s r = Ok (Fin c) /\
              nth_error changes (fst ip) = Some (Fin x))
         (enumerate params).

(** The triple has no defined bias, or its bias, its three weights and its
    coefficients are present and real. *)
Definition real_triple (changes : list float) (params : list string)
           (sensitivity : sens_table) (difference : table float)
           (weights_flux weights_season weights_region : dict float)
           (t : string * string * string) : Prop :=
  let '(f, s, r) := t in
  bias_or_nan difference f s r = NaN \/
  exists b wf wr ws,
    bias_or_nan difference f s r = Fin b /\
    dict_get weights_flux f = Some (Fin wf) /\
    dict_get weights_region r = Some (Fin wr) /\
    dict_get weights_season s = Some (Fin ws) /\
    real_coefficients changes params sensitivity f s r.

(** The real entries of a dict of weights are nonnegative. *)
Definition nonneg_dict (w : dict float) : Prop :=
  forall k q, dict_get w k = Some (Fin q) -> 0 <= q.

(** Weight times squared bias of a triple with a defined bias, and 0 for the
    others. *)
Definition weighted_square (difference : table float)
           (weights_flux weights_season weights_region : dict float)
           (t : string * string * string) : Q :=
  let '(f, s, r) := t in
  match bias_or_nan difference f s r,
        dict_get weights_flux f, dict_get weights_region r,
        dict_get weights_season s with
  | Fin b, Some (Fin wf), Some (Fin wr), Some (Fin ws) =>
      wf * wr * ws * (b * b)
  | _, _, _, _ => 0
  end.

(** An infinity or nan that is not minus infinity: what a square or a sum of
    squares is when it is not a real number. *)
Definition top (x : float) : bool :=
  match x with PInf | NaN => true | _ => false end.

Definition not_ninf (x : float) : bool :=
  match x with NInf => false | _ => true end.

(** A loop over the items of [l] that sets [acc[k]] for the items on which
    [g] gives a value. *)
Definition update_from {A B} (g : string -> A -> option B)
           (l : dict A) (acc : dict B) : dict B :=
  fold_left (fun acc (item : string * A) =>
               match g (fst item) (snd item) with
               | Some v => dict_set acc (fst item) v
               | None => acc
               end)
            l acc.

(** What the three loops of [compute_difference] build. *)
Definition region_build (rks : dict float) : dict float -> dict float -> dict float :=
  update_from (fun r b =>
                 match dict_get rks r with
                 | Some x => Some (fsub b x)
                 | None => None
                 end).

Definition season_build (rk : dict (dict float))
  : dict (dict float) -> dict (dict float) -> dict (dict float) :=
  update_from (fun s subvalue =>
                 match dict_get rk s with
                 | Some rks => Some (region_build rks subvalue [])
                 | None => None
                 end).

Definition difference_of (reference base : table float) : table float :=
  update_from (fun key value =>
                 Some match dict_get reference key with
                      | Some rk => season_build rk value []
                      | None => []
                      end)
              base [].

(* ------------------------------------------------------------------ *)
(** ** Adding entries to the tables *)

(** [t.setdefault(f, {}).setdefault(s, {})[r] = v] *)
Definition table_set {V} (t : table V) (f s r : string) (v : V) : table V :=
  let m := get_default t f [] in
  let rs := get_default m s [] in
  dict_set t f (dict_set m s (dict_set rs r v)).

(** The sensitivity model with the coefficient [c] entered for parameter [p]
    and the triple ([f], [s], [r]). *)
Definition add_sensitivity (sensitivity : sens_table) (p f s r : string)
           (c : float) : sens_table :=
  dict_set sensitivity p (table_set (get_default sensitivity p []) f s r [c]).

Definition triple_eqb (t u : string * string * string) : bool :=
  let '(f, s, r) := t in
  let '(f', s', r') := u in
  String.eqb f f' && String.eqb s s' && String.eqb r r'.




Definition sample_params : list string := ["ocean_albedo"].

Definition sample_table : table (list float) :=
  [("tas", [("ALL", [("Global", [Fin (- (10))])])])].

(* ------------------------------------------------------------------ *)
(** ** load_reference *)

(** The ['obs'] field of a variable of the reference file: a number, or a
    table by season and region whose cells hold statistics, ['mean'] among
    them.  Every entry is an object of its own: a file that shares one
    mapping between entries (YAML aliases) is not modelled. *)
Inductive obs : Type :=
| ObsScalar (x : float)
| ObsTable (t : table float).

(** The inner loop: [reft[key1][key2] = reft[key1][key2]['mean']] for the
    regions [key2] of a season.  The assignment replaces the value of an
    existing key, so the keys keep their order. *)
Definition means_of_regions (m : dict (dict float)) : result (dict float) :=
  foldM (fun acc key2 =>
           mean <- (cell <- getitem m key2 ;; getitem cell "mean") ;;
           Ok (dict_set acc key2 mean))
        (keys m) [].

(** The loop over the seasons [key1]. *)
Definition means_of (reft : table float) : result (dict (dict float)) :=
  foldM (fun acc key1 =>
           regions <- (m <- getitem reft key1 ;; means_of_regions m) ;;
           Ok (dict_set acc key1 regions))
        (keys reft) [].

(** The value of [reft] when [reference[t] = reft] is executed. *)
Definition reference_of_variable (ref : dict (dict obs)) (t : string)
  : result (dict (dict float)) :=
  entry <- getitem ref t ;;
  reft <- getitem entry "obs" ;;
  match reft with
  | ObsTable tb => means_of tb
  | ObsScalar x => Ok [("ALL", [("Global", x)])]
  end.

(** [load_reference], after the file is read.  An entry of [ref] is the
    mapping of a variable, of which only the field ['obs'] is read. *)
Definition load_reference (ref : dict (dict obs)) : result (table float) :=
  foldM (fun reference t =>
           reft <- reference_of_variable ref t ;;
           Ok (dict_set reference t reft))
        (keys ref) [].

Definition lookup2 {V} (t : dict (dict V)) (k1 k2 : string) : option V :=
  match dict_get t k1 with
  | Some m => dict_get m k2
  | None => None
  end.

(** The entry of a variable has an ['obs'] field, and when that is a table
    every cell has a ['mean']. *)
Definition well_formed_entry (entry : dict obs) : Prop :=
  match dict_get entry "obs" with
  | None => False
  | Some (ObsScalar _) => True
  | Some (ObsTable tb) =>
      forall s r cell, lookup2 tb s r = Some cell -> dict_get cell "mean" <> None
  end.

(* ------------------------------------------------------------------ *)
(** ** The output for Script Engine and the end of the main program *)

(** The loop over the parameters [p] of a group [pg]:
    [outdict['tuning'][pg][p] = float(values[p] + optimal_changes[p])]. *)
Definition group_loop (values optimal_changes : dict float) (pg : string)
           (ps : list string) (tuning : dict (dict float))
  : result (dict (dict float)) :=
  foldM (fun tuning p =>
           v <- getitem values p ;;
           c <- getitem optimal_changes p ;;
           g <- getitem tuning pg ;;
           Ok (dict_set tuning pg (dict_set g p (fadd v c))))
        ps tuning.

(** [outdict] when it is dumped; [parameter_group] is
    [config['parameter_group']]. *)
Definition outdict_of (parameter_group : dict (list string))
           (values optimal_changes : dict float)
  : result (table float) :=
  tuning <- foldM (fun tuning pg =>
                     let tuning := dict_set tuning pg [] in
                     ps <- getitem parameter_group pg ;;
                     group_loop values optimal_changes pg ps tuning)
                  (keys parameter_group) [] ;;
  Ok [("tuning", tuning)].

(** [if out: ...]: what is written, if anything. *)
Definition write_output (out : pyval) (parameter_group : dict (list string))
           (values optimal_changes : dict float)
  : result (option (table float)) :=
  if truthy out then
    d <- outdict_of parameter_group values optimal_changes ;;
    Ok (Some d)
  else Ok None.

(** What the main program produces after the minimizer has returned. *)
Record outcome : Type := {
  oc_changes : dict float;
  oc_log : list (string * string * float);
  score_before : float;
  score_after : float;
  oc_written : option (table float);
  oc_table : list row
}.

(** The main program after the call of [minimize]; [x] is [result.x]. *)
Definition after_optimization (cfg : config) (penalty : float) (out : pyval)
           (parameter_group : dict (list string))
           (sensitivity : sens_table) (su : setup) (x : list float)
  : result outcome :=
  let params := su_params su in
  let values := su_values su in
  let difference := su_difference su in
  optimal_changes <- optimal_changes_of params x ;;
  log <- print_change (keys (weights cfg)) difference sensitivity params x ;;
  before <- objective_function (su_initial_guess su) params values
                               (reference_parameters cfg) penalty sensitivity
                               difference (weights cfg)
                               (weights_season_of cfg) (weights_region_of cfg) ;;
  after <- objective_function x params values
                              (reference_parameters cfg) penalty sensitivity
                              difference (weights cfg)
                              (weights_season_of cfg) (weights_region_of cfg) ;;
  written <- write_output out parameter_group values optimal_changes ;;
  table <- report values (su_diffmax su) optimal_changes ;;
  Ok {| oc_changes := optimal_changes; oc_log := log;
        score_before := before; score_after := after;
        oc_written := written; oc_table := table |}.

(* ------------------------------------------------------------------ *)
(** ** More sample data *)

Definition sample_ref : dict (dict obs) :=
  [("tas", [("obs", ObsTable [("ALL", [("Global", [("mean", Fin 14)])])])]);
   ("net_toa", [("obs", ObsScalar (Fin (7 # 10)))])].

Definition sample_groups : dict (list string) :=
  [("oifs", ["ocean_albedo"])].

Definition toa_base : table float :=
  [("net_toa", [("ALL", [("Global", Fin 1); ("NH", Fin 2)]);
                ("DJF", [("Global", Fin 3)])])].

(** The attributes argparse defines on the namespace. *)
Definition namespace_attributes : list string :=
  ["config"; "year1"; "year2"; "exp"; "loglevel"; "maxiter"; "penalty";
   "inc"; "output"].

(** The settings that fall back on the configuration file. *)
Definition config_settings : list string :=
  ["year1"; "year2"; "penalty"; "inc"].

(** A command line that gives everything: no setting is left to the
    configuration file. *)
Definition full_args : dict pyval :=
  [("config", PStr "my.yaml"); ("output", PStr "out.yaml");
   ("loglevel", PStr "DEBUG"); ("maxiter", PInt 50);
   ("penalty", PFloat (Fin (1 # 2))); ("inc", PFloat (Fin (1 # 5)));
   ("exp", PStr "s000"); ("year1", PInt 1990); ("year2", PInt 1997)].

Definition full_settings : settings :=
  {| config_file := PStr "my.yaml"; year1 := PInt 1990;
     year2 := PInt 1997; exp := PStr "s000"; loglevel := PStr "DEBUG";
     maxiter := PInt 50; penalty_arg := PFloat (Fin (1 # 2));
     inc_arg := PFloat (Fin (1 # 5)); out := PStr "out.yaml" |}.

(** A configuration without an [args] section and with nothing else. *)
Definition empty_config : config :=
  {| cfg_args := []; reference_parameters := []; weights := [];
     weights_region_of := []; weights_season_of := [] |}.

(** A command line without an experiment. *)
Definition no_exp_args : dict pyval :=
  [("config", PNone); ("output", PNone); ("loglevel", PNone);
   ("maxiter", PNone); ("penalty", PNone); ("inc", PNone);
   ("exp", PStr ""); ("year1", PNone); ("year2", PNone)].

(** A configuration with other values, and a [maxiter] that nothing reads. *)
Definition other_config : config :=
  {| cfg_args := [("year1", PInt 2000); ("year2", PInt 2005);
                  ("penalty", PFloat (Fin 5));
                  ("inc", PFloat (Fin (1 # 2)));
                  ("maxiter", PInt 7)];
     reference_parameters := [];
     weights := [];
     weights_region_of := [];
     weights_season_of := [] |}.

Definition other_settings : settings :=
  {| config_file := PStr "config-tuner.yaml"; year1 := PInt 1990;
     year2 := PInt 1997; exp := PStr "s000"; loglevel := PStr "INFO";
     maxiter := PInt 10000; penalty_arg := PFloat (Fin 5);
     inc_arg := PFloat (Fin (1 # 2)); out := PNone |}.

(* ------------------------------------------------------------------ *)
(** ** The score in machine arithmetic

    [objective_function] once more, with the arithmetic as a parameter, so
    that the properties that depend on rounding, overflow and underflow can
    be stated in binary64.  With the exact operations of [float] it is the
    [objective_function] above ([exact_objective_function]). *)

Module Rounded.

Section WithArithmetic.

Variable F : Type.
Variables add sub mul div : F -> F -> F.
Variable isnan : F -> bool.
Variables zero nan : F.

Variable changes : list F.
Variable params : list string.
Variable values : dict F.
Variable reference_pars : dict F.
Variable penalty : F.
Variable sensitivity : dict (table (list F)).
Variable difference : table F.
Variables weights_flux weights_season weights_region : dict F.

(** [sensitivity[param][fluxname][season][region][0]] *)
Definition coefficient (param fluxname season region : string) : result F :=
  sp <- getitem sensitivity param ;;
  sf <- getitem sp fluxname ;;
  ss <- getitem sf season ;;
  sr <- getitem ss region ;;
  index sr 0.

Definition flux_change (fluxname season region : string) : result F :=
  foldM (fun acc (ip : nat * string) =>
           let '(i, param) := ip in
           c <- coefficient param fluxname season region ;;
           x <- index changes i ;;
           Ok (add acc (mul c x)))
        (enumerate params) zero.

Definition bias_or_nan (fluxname season region : string) : F :=
  get_default (get_default (get_default difference fluxname []) season []) region nan.

Definition triple_step (fluxname season : string)
           (total_difference : F) (region : string) : result F :=
  if negb (isnan (bias_or_nan fluxname season region)) then
    fc <- flux_change fluxname season region ;;
    wf <- getitem weights_flux fluxname ;;
    wr <- getitem weights_region region ;;
    ws <- getitem weights_season season ;;
    df <- getitem difference fluxname ;;
    ds <- getitem df season ;;
    d <- getitem ds region ;;
    Ok (add total_difference
            (mul (mul (mul wf wr) ws) (mul (add d fc) (add d fc))))
  else Ok total_difference.

Definition season_step (fluxname : string)
           (total_difference : F) (season : string) : result F :=
  p0 <- index params 0 ;;
  sp <- getitem sensitivity p0 ;;
  sf <- getitem sp fluxname ;;
  ss <- getitem sf season ;;
  foldM (triple_step fluxname season) (keys ss) total_difference.

Definition flux_step (total_difference : F) (fluxname : string) : result F :=
  p0 <- index params 0 ;;
  sp <- getitem sensitivity p0 ;;
  sf <- getitem sp fluxname ;;
  foldM (season_step fluxname) (keys sf) total_difference.

Definition total_difference : result F :=
  p0 <- index params 0 ;;
  sp <- getitem sensitivity p0 ;;
  foldM flux_step (keys sp) zero.

(** The relative deviation of a parameter:
    [(reference - (value + change)) / reference]. *)
Definition deviation (r v x : F) : F := div (sub r (add v x)) r.

Definition param_term (ip : nat * string) : result F :=
  let '(i, param) := ip in
  r <- getitem reference_pars param ;;
  v <- getitem values param ;;
  x <- index changes i ;;
  r' <- getitem reference_pars param ;;
  Ok (mul (div (sub r (add v x)) r') (div (sub r (add v x)) r')).

Definition param_difference : result F :=
  terms <- mapM param_term (enumerate params) ;;
  Ok (add zero (fold_left add terms zero)).

Definition objective_function : result F :=
  t <- total_difference ;;
  p <- param_difference ;;
  Ok (add t (mul p penalty)).

(** The entries that the evaluation of a triple subscripts are there. *)
Definition present_triple (t : string * string * string) : Prop :=
  let '(f, s, r) := t in
  isnan (bias_or_nan f s r) = true \/
  (dict_get weights_flux f <> None /\
   dict_get weights_region r <> None /\
   dict_get weights_season s <> None /\
   Forall (fun ip : nat * string =>
             (exists c, coefficient (snd ip) f s r = Ok c) /\
             nth_error changes (fst ip) <> None)
          (enumerate params)).

(** The entries of a parameter are there. *)
Definition present_param (ip : nat * string) : Prop :=
  dict_get reference_pars (snd ip) <> None /\
  dict_get values (snd ip) <> None /\
  nth_error changes (fst ip) <> None.

End WithArithmetic.

End Rounded.

(** IEEE 754 binary64, round to nearest even: the floats of Python and of
    numpy.  [x ** 2] is taken as the rounded product [x * x]. *)
Module Binary64.

Definition add : spec_float -> spec_float -> spec_float := SFadd 53 1024.
Definition sub : spec_float -> spec_float -> spec_float := SFsub 53 1024.
Definition mul : spec_float -> spec_float -> spec_float := SFmul 53 1024.
Definition div : spec_float -> spec_float -> spec_float := SFdiv 53 1024.

Definition isnan (x : spec_float) : bool :=
  match x with S754_nan => true | _ => false end.

Definition zero : spec_float := S754_zero false.

(** [0 <= x] *)
Definition nonneg (x : spec_float) : bool := SFleb zero x.

(** [x == 0] *)
Definition is_zero (x : spec_float) : bool := SFeqb x zero.

Definition is_finite (x : spec_float) : bool :=
  match x with S754_finite _ _ _ | S754_zero _ => true | _ => false end.

(** [x] is a binary64 number: 53 bits of mantissa, in canonical form. *)
Definition valid (x : spec_float) : bool := valid_binary 53 1024 x.

(** The power of two [2 ^ e], for [e] in the range of the normal numbers. *)
Definition pow2 (e : Z) : spec_float :=
  S754_finite false 4503599627370496 (e - 52).

(** The number a float stands for. *)
Definition exact (x : spec_float) : option Q :=
  match x with
  | S754_zero _ => Some 0
  | S754_finite s m e =>
      let a := if s then (- inject_Z (Zpos m)) else inject_Z (Zpos m) in
      Some (match e with
            | Z0 => a
            | Zpos p => a * inject_Z (Z.pow_pos 2 p)
            | Zneg p => a / inject_Z (Z.pow_pos 2 p)
            end)
  | _ => None
  end.

(** Not negative: nan, or [0 <= x]. *)
Definition never_negative (x : spec_float) : bool := isnan x || nonneg x.

(** The weights of a dict are at least 0. *)
Definition nonneg_dict (w : dict spec_float) : Prop :=
  forall k x, dict_get w k = Some x -> nonneg x = true.

Definition flux_change := Rounded.flux_change spec_float add mul zero.

Definition total_difference :=
  Rounded.total_difference spec_float add mul isnan zero S754_nan.

Definition param_difference :=
  Rounded.param_difference spec_float add sub mul div zero.

Definition objective_function :=
  Rounded.objective_function spec_float add sub mul div isnan zero S754_nan.

(** The reference value of the parameter is finite and not zero, and the
    float [values[param] + changes[i]] compares equal to it. *)
Definition on_reference (reference_pars values : dict spec_float)
           (changes : list spec_float) (ip : nat * string) : Prop :=
  exists r v c,
    dict_get reference_pars (snd ip) = Some r /\
    dict_get values (snd ip) = Some v /\
    nth_error changes (fst ip) = Some c /\
    is_finite r = true /\
    is_zero r = false /\
    SFeqb (add v c) r = true.


(** Real data for which the exact score is a real number and at least 0,
    and whose score in binary64 is nan: two coefficients of opposite sign
    whose products with the changes overflow. *)
Definition big : spec_float := pow2 600.

Definition big_params : list string := ["p"; "q"].
Definition big_sensitivity : dict (table (list spec_float)) :=
  [("p", [("tas", [("ALL", [("Global", [big])])])]);
   ("q", [("tas", [("ALL", [("Global", [SFopp big])])])])].
Definition one_difference : table spec_float :=
  [("tas", [("ALL", [("Global", pow2 0)])])].
Definition ones_pq : dict spec_float := [("p", pow2 0); ("q", pow2 0)].
Definition w_flux : dict spec_float := [("tas", pow2 0)].
Definition w_season : dict spec_float := [("ALL", pow2 0)].
Definition w_region : dict spec_float := [("Global", pow2 0)].

(** A zero weight and a bias whose square overflows. *)
Definition w_flux_zero : dict spec_float := [("tas", zero)].
Definition big_difference : table spec_float :=
  [("tas", [("ALL", [("Global", big)])])].
Definition one_table : table (list spec_float) :=
  [("tas", [("ALL", [("Global", [pow2 0])])])].
Definition one_sensitivity : dict (table (list spec_float)) :=
  [("p", one_table)].
Definition ones_p : dict spec_float := [("p", pow2 0)].


End Binary64.
(* ------------------------------------------------------------------ *)
(** ** Basic facts: floats *)

Lemma is_zero_true (q : Q) : is_zero q = true <-> q == 0.
Proof.
  unfold is_zero, Qeq. destruct q as [n d]. simpl.
  rewrite Z.eqb_eq. lia.
Qed.

Lemma is_zero_false (q : Q) : is_zero q = false <-> ~ q == 0.
Proof.
  rewrite <- is_zero_true. destruct (is_zero q); split; congruence.
Qed.

(* ------------------------------------------------------------------ *)
(** ** Basic facts: dictionaries *)

Section DictFacts.

Context {V : Type}.
Implicit Types (d : dict V) (k : string) (v : V).

Lemma dict_get_set_same d k v : dict_get (dict_set d k v) k = Some v.
Proof.
  induction d as [|[k' v'] d IH]; simpl.
  - now rewrite String.eqb_refl.
  - destruct (String.eqb k' k) eqn:E; simpl.
    + now rewrite String.eqb_refl.
    + now rewrite E.
Qed.

Lemma dict_get_set_other d k k' v :
  k <> k' -> dict_get (dict_set d k v) k' = dict_get d k'.
Proof.
  intros Hne. induction d as [|[k0 v0] d IH]; simpl.
  - destruct (String.eqb k k') eqn:E; auto.
    apply String.eqb_eq in E. contradiction.
  - destruct (String.eqb k0 k) eqn:E; simpl.
    + apply String.eqb_eq in E. subst k0.
      destruct (String.eqb k k') eqn:E'; auto.
      apply String.eqb_eq in E'. contradiction.
    + destruct (String.eqb k0 k'); auto.
Qed.

Lemma dict_get_set d k k' v :
  dict_get (dict_set d k v) k' =
  if String.eqb k k' then Some v else dict_get d k'.
Proof.
  destruct (String.eqb k k') eqn:E.
  - apply String.eqb_eq in E. subst. apply dict_get_set_same.
  - apply String.eqb_neq in E. now apply dict_get_set_other.
Qed.

Lemma dict_set_set d k v v' :
  dict_set (dict_set d k v) k v' = dict_set d k v'.
Proof.
  induction d as [|[k0 v0] d IH]; simpl.
  - now rewrite String.eqb_refl.
  - destruct (String.eqb k0 k) eqn:E; simpl.
    + now rewrite String.eqb_refl.
    + rewrite E. now rewrite IH.
Qed.

Lemma mem_string_In k (l : list string) : mem_string k l = true <-> In k l.
Proof.
  induction l as [|k' l IH]; simpl.
  - split; [discriminate | tauto].
  - rewrite orb_true_iff, IH, String.eqb_eq. tauto.
Qed.

Lemma distinct_NoDup (l : list string) : distinct l = true <-> NoDup l.
Proof.
  induction l as [|k l IH]; simpl.
  - split; [constructor | reflexivity].
  - rewrite andb_true_iff, negb_true_iff, IH. split.
    + intros [Hm Hd]. constructor; auto.
      rewrite <- mem_string_In. congruence.
    + intros H. inversion H as [|? ? Hn Hd]; subst. split; auto.
      destruct (mem_string k l) eqn:E; auto.
      apply mem_string_In in E. contradiction.
Qed.

Lemma dict_get_In_keys d k : dict_get d k <> None <-> In k (keys d).
Proof.
  induction d as [|[k' v'] d IH]; simpl.
  - tauto.
  - destruct (String.eqb k' k) eqn:E.
    + apply String.eqb_eq in E. split; [auto | discriminate].
    + apply String.eqb_neq in E. rewrite IH. tauto.
Qed.

Lemma dict_get_None_keys d k : dict_get d k = None <-> ~ In k (keys d).
Proof.
  rewrite <- dict_get_In_keys. destruct (dict_get d k); split; try congruence.
  intros H. exfalso. apply H. discriminate.
Qed.

Lemma dict_get_In d k v : dict_get d k = Some v -> In (k, v) d.
Proof.
  induction d as [|[k' v'] d IH]; simpl; [discriminate|].
  destruct (String.eqb k' k) eqn:E.
  - apply String.eqb_eq in E. intros [= ->]. subst. now left.
  - intros H. right. auto.
Qed.


Lemma keys_dict_set_in d k v :
  In k (keys d) -> keys (dict_set d k v) = keys d.
Proof.
  induction d as [|[k' v'] d IH]; simpl; [tauto|].
  destruct (String.eqb k' k) eqn:E; simpl.
  - apply String.eqb_eq in E. now subst.
  - intros [H|H].
    + subst. now rewrite String.eqb_refl in E.
    + f_equal. now apply IH.
Qed.

Lemma keys_dict_set_new d k v :
  ~ In k (keys d) -> keys (dict_set d k v) = (keys d ++ [k])%list.
Proof.
  induction d as [|[k' v'] d IH]; simpl; [reflexivity|].
  intros Hn. destruct (String.eqb k' k) eqn:E; simpl.
  - apply String.eqb_eq in E. tauto.
  - f_equal. apply IH. tauto.
Qed.

Lemma getitem_Ok d k v : getitem d k = Ok v <-> dict_get d k = Some v.
Proof.
  unfold getitem. destruct (dict_get d k); split; congruence.
Qed.

End DictFacts.

(* ------------------------------------------------------------------ *)
(** ** Basic facts: loops *)

Lemma foldM_app {A S} (f : S -> A -> result S) (l1 l2 : list A) (s : S) :
  foldM f (l1 ++ l2)%list s = (s' <- foldM f l1 s ;; foldM f l2 s').
Proof.
  revert s. induction l1 as [|a l1 IH]; intros s; simpl; auto.
  destruct (f s a); simpl; auto.
Qed.

Lemma foldM_ext_in {A S} (f g : S -> A -> result S) (l : list A) (s : S) :
  (forall a s, In a l -> f s a = g s a) -> foldM f l s = foldM g l s.
Proof.
  revert s. induction l as [|a l IH]; intros s H; simpl; auto.
  rewrite (H a s) by now left.
  destruct (g s a); simpl; auto.
  apply IH. intros. apply H. now right.
Qed.

Lemma enumerate_from_nth {A} (l : list A) (i j : nat) (a : A) :
  In (j, a) (enumerate_from i l) <-> (i <= j)%nat /\ nth_error l (j - i) = Some a.
Proof.
  revert i. induction l as [|b l IH]; intros i; simpl.
  - split; [tauto|]. intros [_ H]. destruct (j - i)%nat; discriminate.
  - rewrite IH. split.
    + intros [H|[H1 H2]].
      * inversion H; subst. rewrite Nat.sub_diag. simpl. auto.
      * split; [lia|]. replace (j - i)%nat with (S (j - S i)) by lia. exact H2.
    + intros [H1 H2]. destruct (Nat.eq_dec i j) as [->|Hne].
      * rewrite Nat.sub_diag in H2. simpl in H2. left. congruence.
      * right. split; [lia|].
        replace (j - i)%nat with (S (j - S i)) in H2 by lia. exact H2.
Qed.

Lemma enumerate_nth {A} (l : list A) (j : nat) (a : A) :
  In (j, a) (enumerate l) <-> nth_error l j = Some a.
Proof.
  unfold enumerate. rewrite enumerate_from_nth, Nat.sub_0_r.
  split; [tauto|]. split; [lia|auto].
Qed.

(* ------------------------------------------------------------------ *)
(** ** The command line *)

Lemma get_arg_falsy (args : dict pyval) (arg : string) (default v : pyval) :
  dict_get args arg = Some v -> truthy v = false ->
  get_arg args arg default = Ok default.
Proof.
  intros Hget Hf. unfold get_arg, getattr. rewrite Hget. simpl.
  now rewrite Hf.
Qed.

Lemma or_config_falsy (cfg : config) (name : string) (v w : pyval) :
  truthy v = false -> or_config cfg name v = Ok w ->
  dict_get (cfg_args cfg) name = Some w.
Proof.
  unfold or_config. intros ->. simpl. apply getitem_Ok.
Qed.

Ltac step_bind H :=
  match type of H with
  | bind ?m _ = Ok _ =>
      let E := fresh "E" in
      destruct m eqn:E; simpl in H; [|discriminate H]
  end.

(** C10. [get_arg] returns the default whenever the value of the argument is
    falsy, not only when it is absent ([None]): the integer 0, the float 0.0
    and the empty string are falsy.  In the main program a falsy [maxiter]
    on the command line becomes 10000, and a falsy [penalty] or [inc]
    becomes the value of the configuration file, so a zero given on the
    command line never reaches the core. *)
Theorem get_arg_falsy_is_default :
  (forall args arg default v,
      dict_get args arg = Some v -> truthy v = false ->
      get_arg args arg default = Ok default) /\
  (truthy (PInt 0) = false /\
   (forall q, q == 0 -> truthy (PFloat (Fin q)) = false) /\
   truthy (PStr "") = false) /\
  (forall load_config args st cfg,
      resolve_args load_config args = Ok (st, cfg) ->
      (forall v, dict_get args "maxiter" = Some v -> truthy v = false ->
                 maxiter st = PInt 10000) /\
      (forall v, dict_get args "penalty" = Some v -> truthy v = false ->
                 dict_get (cfg_args cfg) "penalty" = Some (penalty_arg st)) /\
      (forall v, dict_get args "inc" = Some v -> truthy v = false ->
                 dict_get (cfg_args cfg) "inc" = Some (inc_arg st))).
Proof.
  split; [exact get_arg_falsy|]. split.
  - repeat split.
    intros q Hq. simpl. apply is_zero_true in Hq. now rewrite Hq.
  - intros load_config args st cfg H. unfold resolve_args in H.
    do 9 step_bind H.
    destruct (negb (truthy a2)); [discriminate H|].
    do 4 step_bind H.
    injection H as <- <-. simpl.
    repeat split; intros v Hv Hf.
    + rewrite (get_arg_falsy _ _ _ _ Hv Hf) in E4. congruence.
    + rewrite (get_arg_falsy _ _ _ _ Hv Hf) in E5. injection E5 as <-.
      now apply or_config_falsy in E10.
    + rewrite (get_arg_falsy _ _ _ _ Hv Hf) in E6. injection E6 as <-.
      now apply or_config_falsy in E11.
Qed.

Lemma get_arg_falsy_is_default_witness :
  resolve_args (fun _ => sample_config) sample_args
    = Ok (sample_settings, sample_config) /\
  maxiter sample_settings = PInt 10000 /\
  dict_get (cfg_args sample_config) "penalty" = Some (penalty_arg sample_settings) /\
  dict_get (cfg_args sample_config) "inc" = Some (inc_arg sample_settings).
Proof.
  destruct get_arg_falsy_is_default as [_ [_ H]].
  assert (resolve_args (fun _ => sample_config) sample_args
          = Ok (sample_settings, sample_config)) as E by reflexivity.
  destruct (H _ _ _ _ E) as [H1 [H2 H3]].
  split; [exact E|].
  split; [apply (H1 (PInt 0)); reflexivity|].
  split; [apply (H2 (PFloat (Fin 0))); reflexivity|].
  apply (H3 (PFloat (Fin 0))); reflexivity.
Defined.

(* ------------------------------------------------------------------ *)
(** ** The constraint functions *)

Lemma constraints_nth (diffmax : dict float) (params : list string) (i : nat) :
  (i < List.length params)%nat ->
  nth_error (constraints diffmax params) i = Some (constraint_fun diffmax params i).
Proof.
  intros Hi. unfold constraints.
  rewrite nth_error_map, nth_error_seq.
  destruct (Nat.ltb_spec i (List.length params)); [reflexivity|lia].
Qed.

(** C6. The function of the constraint of parameter [i] is nonnegative
    exactly when |change_i| <= max_change_i, and is zero on the boundary
    |change_i| = max_change_i. *)
Theorem constraint_nonneg_iff_within_bound
        (diffmax : dict float) (params : list string) (i : nat)
        (x : list float) (p : string) (m c : Q) :
  nth_error params i = Some p ->
  dict_get diffmax p = Some (Fin m) ->
  nth_error x i = Some (Fin c) ->
  exists f v,
    nth_error (constraints diffmax params) i = Some f /\
    f x = Ok (Fin v) /\
    (0 <= v <-> Qabs c <= m) /\
    (Qabs c == m -> v == 0).
Proof.
  intros Hp Hm Hx.
  exists (constraint_fun diffmax params i), (m + - Qabs c).
  split.
  - apply constraints_nth. apply nth_error_Some. congruence.
  - split.
    + unfold constraint_fun, index, getitem. rewrite Hp. simpl.
      rewrite Hm. simpl. rewrite Hx. reflexivity.
    + split; [split; intros H; lra | intros H; lra].
Qed.

Lemma constraint_nonneg_iff_within_bound_witness :
  exists f v,
    nth_error (constraints [("ocean_albedo", Fin (6 # 1000))] ["ocean_albedo"]) 0
      = Some f /\
    f [Fin (- (6 # 1000))] = Ok (Fin v) /\
    (0 <= v <-> Qabs (- (6 # 1000)) <= 6 # 1000) /\
    (Qabs (- (6 # 1000)) == 6 # 1000 -> v == 0).
Proof.
  apply (constraint_nonneg_iff_within_bound
           [("ocean_albedo", Fin (6 # 1000))] ["ocean_albedo"] 0%nat
           [Fin (- (6 # 1000))] "ocean_albedo" (6 # 1000) (- (6 # 1000)));
    reflexivity.
Defined.

(* ------------------------------------------------------------------ *)
(** ** The bounds *)

Lemma nth_error_middle {A} (pre rest : list A) (a : A) :
  nth_error (pre ++ a :: rest) (List.length pre) = Some a.
Proof.
  rewrite nth_error_app2 by lia. now rewrite Nat.sub_diag.
Qed.

Lemma index_map_middle {A B} (f : A -> B) (pre rest : list A) (a : A) :
  index (map f (pre ++ a :: rest)) (List.length pre) = Ok (f a).
Proof.
  unfold index. rewrite nth_error_map, nth_error_middle. reflexivity.
Qed.

Lemma bounds_loop (inc : pyval) (k : float) (rest pre : dict float)
      (st : dict float * dict float) :
  number_of inc = Ok k ->
  foldM (bounds_step (map fst (pre ++ rest)) (map snd (pre ++ rest)) inc)
        (seq (List.length pre) (List.length rest)) st
  = Ok (bounds_of k rest st).
Proof.
  intros Hk. revert pre st.
  induction rest as [|[p v] rest IH]; intros pre st; simpl.
  - reflexivity.
  - destruct st as [dm vs]. unfold bounds_step at 1.
    rewrite !index_map_middle, Hk. simpl.
    specialize (IH (pre ++ [(p, v)])%list
                   (dict_set dm p (fmul v k), dict_set vs p v)).
    rewrite <- app_assoc in IH. simpl in IH.
    rewrite length_app in IH. simpl in IH.
    rewrite Nat.add_1_r in IH. exact IH.
Qed.

Lemma bounds_closed (inc : pyval) (k : float) (pars : dict float) :
  number_of inc = Ok k ->
  bounds (fst (load_params pars)) (snd (load_params pars)) inc
  = Ok (bounds_of k pars ([], [])).
Proof.
  intros Hk. unfold bounds, load_params. simpl. rewrite length_map.
  exact (bounds_loop inc k pars [] ([], []) Hk).
Qed.

(** When [inc] is no number the first multiplication raises. *)
Lemma bounds_not_a_number (inc : pyval) (e : exn) (pars : dict float) :
  number_of inc = Raise e ->
  bounds (fst (load_params pars)) (snd (load_params pars)) inc
  = match pars with
    | [] => Ok ([], [])
    | _ :: _ => Raise e
    end.
Proof.
  intros Hk. unfold bounds, load_params. destruct pars as [|[p v] pars]; simpl.
  - reflexivity.
  - unfold index. simpl. now rewrite Hk.
Qed.

Lemma bounds_of_get (inc : float) (pars : dict float)
      (st : dict float * dict float) (p : string) :
  unique_keys pars = true ->
  dict_get (fst (bounds_of inc pars st)) p
  = match dict_get pars p with
    | Some v => Some (fmul v inc)
    | None => dict_get (fst st) p
    end
  /\
  dict_get (snd (bounds_of inc pars st)) p
  = match dict_get pars p with
    | Some v => Some v
    | None => dict_get (snd st) p
    end.
Proof.
  unfold unique_keys. revert st.
  induction pars as [|[k v] pars IH]; intros st Hu; simpl.
  - auto.
  - simpl in Hu. apply andb_true_iff in Hu. destruct Hu as [Hm Hd].
    apply negb_true_iff in Hm.
    destruct (IH (dict_set (fst st) k (fmul v inc), dict_set (snd st) k v) Hd)
      as [H1 H2].
    unfold bounds_of in *. simpl. rewrite H1, H2. simpl.
    destruct (String.eqb k p) eqn:E.
    + apply String.eqb_eq in E. subst p.
      assert (dict_get pars k = None) as Hn.
      { apply dict_get_None_keys. rewrite <- mem_string_In.
        unfold keys in *. rewrite Hm. discriminate. }
      rewrite Hn, !dict_get_set_same. auto.
    + apply String.eqb_neq in E.
      rewrite !dict_get_set_other by assumption. auto.
Qed.

(** C8, as the program has it.  The maximum change of every parameter of the
    parameter file is its current value times [inc], and the current value
    is stored unchanged; the maximum change is nonnegative when the current
    value and [inc] are both nonnegative. *)
Theorem diffmax_is_value_times_inc
        (pars : dict float) (inc : pyval) (k : float) (p : string) (v : float) :
  unique_keys pars = true ->
  number_of inc = Ok k ->
  dict_get pars p = Some v ->
  exists diffmax values,
    bounds (fst (load_params pars)) (snd (load_params pars)) inc
      = Ok (diffmax, values) /\
    dict_get diffmax p = Some (fmul v k) /\
    dict_get values p = Some v /\
    (forall q i, v = Fin q -> k = Fin i -> 0 <= q -> 0 <= i ->
                 fmul v k = Fin (q * i) /\ 0 <= q * i).
Proof.
  intros Hu Hk Hp.
  exists (fst (bounds_of k pars ([], []))), (snd (bounds_of k pars ([], []))).
  split; [rewrite (bounds_closed inc k pars Hk);
          now destruct (bounds_of k pars ([], []))|].
  destruct (bounds_of_get k pars ([], []) p Hu) as [H1 H2].
  rewrite Hp in H1, H2. repeat split; auto.
  - subst. reflexivity.
  - nra.
Qed.

Lemma diffmax_is_value_times_inc_witness :
  exists diffmax values,
    bounds (fst (load_params sample_pars)) (snd (load_params sample_pars))
           (PFloat (Fin (1 # 10)))
      = Ok (diffmax, values) /\
    dict_get diffmax "ocean_albedo" = Some (fmul (Fin (6 # 100)) (Fin (1 # 10))) /\
    dict_get values "ocean_albedo" = Some (Fin (6 # 100)) /\
    (forall q i, Fin (6 # 100) = Fin q -> Fin (1 # 10) = Fin i -> 0 <= q -> 0 <= i ->
                 fmul (Fin (6 # 100)) (Fin (1 # 10)) = Fin (q * i) /\ 0 <= q * i).
Proof.
  apply (diffmax_is_value_times_inc
           sample_pars (PFloat (Fin (1 # 10))) (Fin (1 # 10))
           "ocean_albedo" (Fin (6 # 100))); reflexivity.
Defined.

(** C8 as stated fails: a parameter with a negative current value gets a
    negative maximum change. *)
Lemma diffmax_negative :
  exists diffmax values m,
    bounds (fst (load_params negative_pars)) (snd (load_params negative_pars))
           (PFloat (Fin (1 # 10))) = Ok (diffmax, values) /\
    dict_get diffmax "rlcrit" = Some (Fin m) /\
    m == (- (1)) * (1 # 10) /\
    ~ 0 <= m.
Proof.
  eexists _, _, _. split; [reflexivity|]. split; [reflexivity|].
  split; [reflexivity|]. intros H. vm_compute in H. apply H. reflexivity.
Qed.

(* ------------------------------------------------------------------ *)
(** ** The penalty term *)

Lemma fold_left_fadd_Fin (qs : list Q) (a : Q) :
  fold_left fadd (map Fin qs) (Fin a) = Fin (fold_left Qplus qs a).
Proof.
  revert a. induction qs as [|q qs IH]; intros a; simpl; auto.
Qed.

Lemma fold_left_Qplus_nonneg (qs : list Q) (a : Q) :
  Forall (fun q => 0 <= q) qs -> 0 <= a ->
  0 <= fold_left Qplus qs a /\
  (fold_left Qplus qs a == 0 <-> a == 0 /\ Forall (fun q => q == 0) qs).
Proof.
  intros H. revert a. induction H as [|q qs Hq Hqs IH]; intros a Ha; simpl.
  - split; [assumption|]. split; [intros E; split; [assumption|constructor]|tauto].
  - destruct (IH (a + q)) as [H1 H2]; [lra|]. split; [assumption|].
    rewrite H2. split.
    + intros [E F]. split; [lra|]. constructor; [lra|assumption].
    + intros [E F]. inversion F; subst. split; [lra|assumption].
Qed.

Lemma Qdiv_eq_0 (x r : Q) : ~ r == 0 -> (x / r == 0 <-> x == 0).
Proof.
  intros Hr. split; intros H.
  - rewrite <- (Qmult_div_r x r Hr). rewrite H. ring.
  - rewrite H. unfold Qdiv. ring.
Qed.

Lemma Qsquare_nonneg (x : Q) : 0 <= x * x.
Proof. nra. Qed.

Lemma Qsquare_eq_0 (x : Q) : x * x == 0 <-> x == 0.
Proof.
  split; intros H; [|rewrite H; ring].
  destruct (Qmult_integral _ _ H); assumption.
Qed.

Section PenaltyFacts.

Variable changes : list float.
Variable values reference_pars : dict float.

Lemma param_term_valid (ip : nat * string) :
  valid_param reference_pars values changes ip ->
  exists q,
    param_term changes values reference_pars ip = Ok (Fin q) /\
    0 <= q /\
    (q == 0 <-> on_reference reference_pars values changes ip).
Proof.
  destruct ip as [i p]. intros (r & v & c & Hr & Hv & Hc & Hnz). simpl in *.
  exists (((r + - (v + c)) / r) * ((r + - (v + c)) / r)).
  split; [|split].
  - unfold param_term, getitem, index. rewrite Hr, Hv, Hc. simpl.
    apply is_zero_false in Hnz. now rewrite Hnz.
  - apply Qsquare_nonneg.
  - rewrite Qsquare_eq_0, Qdiv_eq_0 by assumption. split.
    + intros E. exists r, v, c. simpl. repeat split; auto. lra.
    + intros (r' & v' & c' & Hr' & Hv' & Hc' & E). simpl in *.
      rewrite Hr in Hr'. rewrite Hv in Hv'. rewrite Hc in Hc'.
      injection Hr' as <-. injection Hv' as <-. injection Hc' as <-. lra.
Qed.

Lemma mapM_param_term_valid (l : list (nat * string)) :
  Forall (valid_param reference_pars values changes) l ->
  exists qs,
    mapM (param_term changes values reference_pars) l = Ok (map Fin qs) /\
    Forall (fun q => 0 <= q) qs /\
    (Forall (fun q => q == 0) qs
     <-> Forall (on_reference reference_pars values changes) l).
Proof.
  induction 1 as [|ip l Hip Hl (qs & E & Hn & Hz)].
  - exists []. simpl. repeat split; constructor.
  - destruct (param_term_valid ip Hip) as (q & Eq & Hq & Hqz).
    exists (q :: qs). simpl. rewrite Eq. simpl. rewrite E. simpl.
    split; [reflexivity|]. split; [now constructor|]. split.
    + intros F. inversion F; subst. constructor; [apply Hqz|apply Hz]; auto.
    + intros F. inversion F; subst. constructor; [apply Hqz|apply Hz]; auto.
Qed.

Lemma param_difference_valid (params : list string) :
  Forall (valid_param reference_pars values changes) (enumerate params) ->
  exists q,
    param_difference changes params values reference_pars = Ok (Fin q) /\
    0 <= q /\
    (q == 0 <->
     Forall (on_reference reference_pars values changes) (enumerate params)).
Proof.
  intros H. destruct (mapM_param_term_valid _ H) as (qs & E & Hn & Hz).
  exists (0 + fold_left Qplus qs 0). unfold param_difference.
  rewrite E. simpl. rewrite fold_left_fadd_Fin.
  destruct (fold_left_Qplus_nonneg qs 0 Hn) as [H1 H2]; [lra|].
  split; [reflexivity|]. split; [lra|].
  rewrite <- Hz. split.
  - intros E0. apply H2. lra.
  - intros F. assert (fold_left Qplus qs 0 == 0) as E0; [|lra].
    apply H2. split; [reflexivity|assumption].
Qed.

End PenaltyFacts.

(** In exact arithmetic (no rounding, no underflow): with real data and
    nonzero reference values, the sum of squared relative deviations is zero
    exactly when current value plus change equals the reference value for
    every parameter, and so is the penalty term, the sum times a positive
    penalty coefficient. *)
Lemma penalty_zero_iff_on_reference_exact
        (changes : list float) (params : list string)
        (values reference_pars : dict float) :
  Forall (valid_param reference_pars values changes) (enumerate params) ->
  exists q,
    param_difference changes params values reference_pars = Ok (Fin q) /\
    (q == 0 <->
     Forall (on_reference reference_pars values changes) (enumerate params)) /\
    (forall pen, 0 < pen ->
       fmul (Fin q) (Fin pen) = Fin (q * pen) /\
       (q * pen == 0 <->
        Forall (on_reference reference_pars values changes) (enumerate params))).
Proof.
  intros H.
  destruct (param_difference_valid changes values reference_pars params H)
    as (q & E & Hq & Hz).
  exists q. split; [assumption|]. split; [assumption|].
  intros pen Hpen. split; [reflexivity|].
  rewrite <- Hz. split; intros E0.
  - destruct (Qmult_integral _ _ E0); [assumption|lra].
  - rewrite E0. ring.
Qed.

(* ------------------------------------------------------------------ *)
(** ** The flux term as one loop over triples *)

Lemma foldM_flat_map {A B S} (f : S -> B -> result S) (g : A -> list B)
      (l : list A) (s : S) :
  foldM f (flat_map g l) s = foldM (fun s a => foldM f (g a) s) l s.
Proof.
  revert s. induction l as [|a l IH]; intros s; simpl; auto.
  rewrite foldM_app. destruct (foldM f (g a) s); simpl; auto.
Qed.

Lemma foldM_map {A B S} (f : S -> B -> result S) (g : A -> B)
      (l : list A) (s : S) :
  foldM f (map g l) s = foldM (fun s a => f s (g a)) l s.
Proof.
  revert s. induction l as [|a l IH]; intros s; simpl; auto.
  destruct (f s (g a)); simpl; auto.
Qed.

Lemma get_default_Some {V} (d : dict V) (k : string) (v default : V) :
  dict_get d k = Some v -> get_default d k default = v.
Proof. unfold get_default. now intros ->. Qed.

Section FluxTerm.

Variable changes : list float.
Variable params : list string.
Variable sensitivity : sens_table.
Variable difference : table float.
Variables weights_flux weights_season weights_region : dict float.

Local Abbreviation step := (step3 changes params sensitivity difference
                               weights_flux weights_season weights_region).

Lemma total_difference_triples (p0 : string) (sp : table (list float)) :
  nth_error params 0 = Some p0 ->
  dict_get sensitivity p0 = Some sp ->
  total_difference changes params sensitivity difference
                   weights_flux weights_season weights_region
  = foldM step (triples sp) (Fin 0).
Proof.
  intros Hp Hs. unfold total_difference, triples, index, getitem.
  rewrite Hp. simpl. rewrite Hs. simpl.
  rewrite foldM_flat_map. apply foldM_ext_in. intros f acc Hf.
  unfold flux_step, index, getitem. rewrite Hp. simpl. rewrite Hs. simpl.
  apply dict_get_In_keys in Hf.
  destruct (dict_get sp f) as [sf|] eqn:Ef; [|congruence]. simpl.
  rewrite (get_default_Some _ _ _ _ Ef).
  rewrite foldM_flat_map. apply foldM_ext_in. intros s acc' Hin.
  unfold season_step, index, getitem. rewrite Hp. simpl. rewrite Hs. simpl.
  rewrite Ef. simpl.
  apply dict_get_In_keys in Hin.
  destruct (dict_get sf s) as [ss|] eqn:Es; [|congruence]. simpl.
  rewrite (get_default_Some _ _ _ _ Es).
  rewrite foldM_map. reflexivity.
Qed.

(** When the bias is not nan the three subscripts succeed. *)
Lemma bias_lookup (f s r : string) :
  bias_or_nan difference f s r <> NaN ->
  exists df ds,
    dict_get difference f = Some df /\ dict_get df s = Some ds /\
    dict_get ds r = Some (bias_or_nan difference f s r).
Proof.
  unfold bias_or_nan, get_default.
  destruct (dict_get difference f) as [df|] eqn:E1; simpl; [|congruence].
  destruct (dict_get df s) as [ds|] eqn:E2; simpl; [|congruence].
  destruct (dict_get ds r) as [d|] eqn:E3; simpl; [|congruence].
  intros _. exists df, ds. auto.
Qed.

Lemma bias_or_nan_lookup3 (f s r : string) :
  bias_or_nan difference f s r =
  match lookup3 difference f s r with Some d => d | None => NaN end.
Proof.
  unfold bias_or_nan, lookup3, get_default.
  destruct (dict_get difference f) as [df|]; simpl; auto.
  destruct (dict_get df s) as [ds|]; simpl; auto.
Qed.

Lemma flux_change_loop (f s r : string) (l : list (nat * string)) (a : Q) :
  Forall (fun ip : nat * string =>
            exists c x,
              coefficient sensitivity (snd ip) f s r = Ok (Fin c) /\
              nth_error changes (fst ip) = Some (Fin x)) l ->
  exists q,
    foldM (fun acc (ip : nat * string) =>
             let '(i, param) := ip in
             c <- coefficient sensitivity param f s r ;;
             x <- index changes i ;;
             Ok (fadd acc (fmul c x))) l (Fin a) = Ok (Fin q) /\
    ((forall i x, nth_error changes i = Some (Fin x) -> x == 0) -> q == a).
Proof.
  intros H. revert a. induction H as [|[i p] l (c & x & Hc & Hx) Hl IH];
    intros a; simpl.
  - exists a. split; [reflexivity|]. intros _. reflexivity.
  - simpl in Hc, Hx. rewrite Hc. simpl. unfold index at 1. rewrite Hx. simpl.
    destruct (IH (a + c * x)) as (q & E & Hq). exists q.
    split; [assumption|]. intros Hz. rewrite (Hq Hz).
    rewrite (Hz _ _ Hx). ring.
Qed.

Lemma flux_change_real (f s r : string) :
  real_coefficients changes params sensitivity f s r ->
  exists q,
    flux_change changes params sensitivity f s r = Ok (Fin q) /\
    ((forall i x, nth_error changes i = Some (Fin x) -> x == 0) -> q == 0).
Proof. apply flux_change_loop. Qed.

(** One step of the loop on a triple of real data. *)
Lemma step_real (t : string * string * string) (a : Q) :
  real_triple changes params sensitivity difference
              weights_flux weights_season weights_region t ->
  exists q,
    step (Fin a) t = Ok (Fin q) /\
    (nonneg_dict weights_flux -> nonneg_dict weights_region ->
     nonneg_dict weights_season -> a <= q) /\
    ((forall i x, nth_error changes i = Some (Fin x) -> x == 0) ->
     q == a + weighted_square difference weights_flux weights_season
                              weights_region t).
Proof.
  destruct t as [[f s] r]. unfold step, step3, triple_step, weighted_square.
  intros [Hnan | (b & wf & wr & ws & Hb & Hwf & Hwr & Hws & Hc)].
  - rewrite Hnan. simpl. exists a. split; [reflexivity|].
    split; intros; lra.
  - rewrite Hb. simpl.
    destruct (flux_change_real f s r Hc) as (fc & Efc & Hfc).
    rewrite Efc. simpl. unfold getitem.
    rewrite Hwf, Hwr, Hws. simpl.
    destruct (bias_lookup f s r) as (df & ds & E1 & E2 & E3);
      [rewrite Hb; discriminate|].
    rewrite E1. simpl. rewrite E2. simpl. rewrite E3, Hb. simpl.
    eexists. split; [reflexivity|]. split.
    + intros Nf Nr Ns.
      specialize (Nf _ _ Hwf). specialize (Nr _ _ Hwr). specialize (Ns _ _ Hws).
      assert (0 <= wf * wr * ws) by (apply Qmult_le_0_compat;
        [apply Qmult_le_0_compat|]; assumption).
      assert (0 <= (b + fc) * (b + fc)) by apply Qsquare_nonneg.
      assert (0 <= wf * wr * ws * ((b + fc) * (b + fc)))
        by (apply Qmult_le_0_compat; assumption).
      lra.
    + intros Hz. rewrite (Hfc Hz). ring.
Qed.

Lemma steps_real (ts : list (string * string * string)) (a : Q) :
  Forall (real_triple changes params sensitivity difference
                      weights_flux weights_season weights_region) ts ->
  exists q,
    foldM step ts (Fin a) = Ok (Fin q) /\
    (nonneg_dict weights_flux -> nonneg_dict weights_region ->
     nonneg_dict weights_season -> a <= q) /\
    ((forall i x, nth_error changes i = Some (Fin x) -> x == 0) ->
     q == fold_left Qplus
            (map (weighted_square difference weights_flux weights_season
                                  weights_region) ts) a).
Proof.
  intros H. revert a. induction H as [|t ts Ht Hts IH]; intros a; simpl.
  - exists a. split; [reflexivity|]. split; intros; lra.
  - destruct (step_real t a Ht) as (q1 & E1 & N1 & Z1).
    rewrite E1. simpl.
    destruct (IH q1) as (q & E & N & Z). exists q.
    split; [assumption|]. split.
    + intros Nf Nr Ns. specialize (N1 Nf Nr Ns). specialize (N Nf Nr Ns). lra.
    + intros Hz. rewrite (Z Hz).
      clear - Z1 Hz. specialize (Z1 Hz).
      generalize dependent (weighted_square difference weights_flux
                              weights_season weights_region t).
      intros w Hw.
      generalize (map (weighted_square difference weights_flux weights_season
                                       weights_region) ts).
      intros l. revert q1 Hw. generalize (a + w). clear.
      induction l as [|x l IH]; intros q q1 Hw; simpl; [assumption|].
      apply IH. rewrite Hw. reflexivity.
Qed.

End FluxTerm.

(* ------------------------------------------------------------------ *)
(** ** The score is nonnegative *)

(** In exact arithmetic (no rounding, no overflow): on valid model data
    (the first parameter has a sensitivity table; every triple of that table
    either has no defined bias or has a real bias, real weights and real
    coefficients for all parameters; weights are nonnegative; parameter
    values, reference values and changes are real and the reference values
    nonzero; the penalty coefficient is nonnegative) [objective_function]
    returns a real number that is at least zero. *)
Lemma objective_function_nonneg_exact
        (changes : list float) (params : list string)
        (values reference_pars : dict float) (pen : Q)
        (sensitivity : sens_table) (difference : table float)
        (weights_flux weights_season weights_region : dict float)
        (p0 : string) (sp : table (list float)) :
  nth_error params 0 = Some p0 ->
  dict_get sensitivity p0 = Some sp ->
  Forall (real_triple changes params sensitivity difference
                      weights_flux weights_season weights_region)
         (triples sp) ->
  nonneg_dict weights_flux ->
  nonneg_dict weights_region ->
  nonneg_dict weights_season ->
  Forall (valid_param reference_pars values changes) (enumerate params) ->
  0 <= pen ->
  exists q,
    objective_function changes params values reference_pars (Fin pen)
                       sensitivity difference
                       weights_flux weights_season weights_region
    = Ok (Fin q) /\
    0 <= q.
Proof.
  intros Hp Hs Ht Nf Nr Ns Hv Hpen. unfold objective_function.
  rewrite (total_difference_triples _ _ _ _ _ _ _ p0 sp Hp Hs).
  destruct (steps_real changes params sensitivity difference
                       weights_flux weights_season weights_region
                       (triples sp) 0 Ht) as (t & Et & Nt & _).
  rewrite Et. simpl.
  destruct (param_difference_valid changes values reference_pars params Hv)
    as (p & Ep & Np & _).
  rewrite Ep. simpl. eexists. split; [reflexivity|].
  specialize (Nt Nf Nr Ns). nra.
Qed.

(* ------------------------------------------------------------------ *)
(** ** Zero reference values and zero current values *)

Lemma fdiv_zero_not_finite (x : float) (r : Q) :
  r == 0 -> is_finite (fdiv x (Fin r)) = false.
Proof.
  intros Hr. apply is_zero_true in Hr.
  destruct x as [a| | |]; simpl; try rewrite Hr; auto.
  destruct (Qsgn a); reflexivity.
Qed.

Lemma fpow2_not_ninf (x : float) : not_ninf (fpow2 x) = true.
Proof.
  destruct x as [a| | |]; reflexivity.
Qed.

Lemma fpow2_top (x : float) : is_finite x = false -> top (fpow2 x) = true.
Proof.
  destruct x as [a| | |]; simpl; auto; discriminate.
Qed.

Lemma fadd_not_ninf (x y : float) :
  not_ninf x = true -> not_ninf y = true -> not_ninf (fadd x y) = true.
Proof. destruct x, y; simpl; auto. Qed.

Lemma fadd_top_l (x y : float) :
  top x = true -> not_ninf y = true -> top (fadd x y) = true.
Proof. destruct x, y; simpl; auto. Qed.

Lemma fadd_top_r (x y : float) :
  not_ninf x = true -> top y = true -> top (fadd x y) = true.
Proof. destruct x, y; simpl; auto. Qed.

Lemma top_not_finite (x : float) : top x = true -> is_finite x = false.
Proof. destruct x; simpl; auto; discriminate. Qed.

Lemma fmul_not_finite (x y : float) :
  is_finite x = false -> is_finite (fmul x y) = false.
Proof.
  destruct x as [a| | |], y as [b| | |]; simpl; auto; try discriminate;
    intros _; unfold Qsgn; destruct (Z.sgn (Qnum b)); reflexivity.
Qed.

Lemma fadd_not_finite_r (x y : float) :
  is_finite y = false -> is_finite (fadd x y) = false.
Proof. destruct x, y; simpl; auto. Qed.

Lemma fold_left_fadd_top_acc (terms : list float) (acc : float) :
  Forall (fun t => not_ninf t = true) terms -> top acc = true ->
  top (fold_left fadd terms acc) = true.
Proof.
  intros H. revert acc. induction H as [|t terms Ht Hts IH]; intros acc Ha;
    simpl; auto using fadd_top_l.
Qed.

Lemma fold_left_fadd_top (terms : list float) (acc : float) :
  Forall (fun t => not_ninf t = true) terms -> not_ninf acc = true ->
  Exists (fun t => top t = true) terms ->
  top (fold_left fadd terms acc) = true.
Proof.
  intros H. revert acc. induction H as [|t terms Ht Hts IH]; intros acc Ha He;
    simpl; inversion He; subst.
  - apply fold_left_fadd_top_acc; auto using fadd_top_r.
  - apply IH; auto using fadd_not_ninf.
Qed.

Section ZeroReference.

Variable changes : list float.
Variable values reference_pars : dict float.

Lemma param_term_not_ninf (ip : nat * string) (t : float) :
  param_term changes values reference_pars ip = Ok t -> not_ninf t = true.
Proof.
  destruct ip as [i p]. unfold param_term. intros H.
  do 3 step_bind H. injection H as <-. apply fpow2_not_ninf.
Qed.

Lemma param_term_zero_reference (i : nat) (p : string) (r : Q) (t : float) :
  dict_get reference_pars p = Some (Fin r) -> r == 0 ->
  param_term changes values reference_pars (i, p) = Ok t -> top t = true.
Proof.
  intros Hr Hz. unfold param_term, getitem. rewrite Hr. simpl. intros H.
  do 2 step_bind H. injection H as <-.
  apply fpow2_top. now apply fdiv_zero_not_finite.
Qed.

Lemma mapM_param_term_zero (l : list (nat * string)) (terms : list float)
      (i : nat) (p : string) (r : Q) :
  mapM (param_term changes values reference_pars) l = Ok terms ->
  Forall (fun t => not_ninf t = true) terms /\
  (In (i, p) l -> dict_get reference_pars p = Some (Fin r) -> r == 0 ->
   Exists (fun t => top t = true) terms).
Proof.
  revert terms. induction l as [|ip l IH]; intros terms H; simpl in H.
  - injection H as <-. split; [constructor|]. intros [].
  - do 2 step_bind H. injection H as <-.
    destruct (IH _ eq_refl) as [H1 H2]. split.
    + constructor; [now apply (param_term_not_ninf ip)|assumption].
    + intros [->|Hin] Hr Hz.
      * apply Exists_cons_hd. now apply (param_term_zero_reference i p r).
      * apply Exists_cons_tl. auto.
Qed.

Lemma param_difference_zero_reference (params : list string)
      (i : nat) (p : string) (r : Q) (pd : float) :
  nth_error params i = Some p ->
  dict_get reference_pars p = Some (Fin r) -> r == 0 ->
  param_difference changes params values reference_pars = Ok pd ->
  top pd = true.
Proof.
  intros Hp Hr Hz H. unfold param_difference in H.
  destruct (mapM (param_term changes values reference_pars)
                 (enumerate params)) as [a|] eqn:E; [|discriminate H].
  unfold bind in H. injection H as <-.
  destruct (mapM_param_term_zero _ _ i p r E) as [H1 H2].
  apply (fadd_top_r (Fin 0)); [reflexivity|].
  apply fold_left_fadd_top; auto.
  apply H2; auto. now apply enumerate_nth.
Qed.

End ZeroReference.

Lemma report_rows (values diffmax optimal_changes : dict float)
      (l : list string) (rows : list row) (rw : row) :
  mapM (fun p =>
          v <- getitem values p ;;
          c <- getitem optimal_changes p ;;
          v' <- getitem values p ;;
          c' <- getitem optimal_changes p ;;
          c'' <- getitem optimal_changes p ;;
          v'' <- getitem values p ;;
          m <- getitem diffmax p ;;
          Ok {| row_param := p; new_value := fadd v c; old_value := v';
                change := c'; relative_change := fdiv c'' v'';
                max_change := m |}) l = Ok rows ->
  In rw rows ->
  exists v c,
    dict_get values (row_param rw) = Some v /\
    dict_get optimal_changes (row_param rw) = Some c /\
    new_value rw = fadd v c /\
    relative_change rw = fdiv c v.
Proof.
  revert rows. induction l as [|p l IH]; intros rows H Hin; simpl in H.
  - injection H as <-. destruct Hin.
  - unfold getitem in H at 1 2 3 4 5 6 7.
    destruct (dict_get values p) as [v|] eqn:Ev; simpl in H; [|discriminate].
    destruct (dict_get optimal_changes p) as [c|] eqn:Ec; simpl in H;
      [|discriminate].
    destruct (dict_get diffmax p) as [m|] eqn:Em; simpl in H; [|discriminate].
    step_bind H. injection H as <-. destruct Hin as [<-|Hin].
    + exists v, c. simpl. auto.
    + eapply IH; eauto.
Qed.

(** C2, as the program has it.  Nothing checks the parameter values.  With a
    reference value of zero every score that [objective_function] returns
    is infinite or nan (the quotient of the penalty term is a numpy
    quotient, which raises nothing); with a current value of zero the
    relative change of the report is infinite or nan; and whether the
    program reaches the minimizer depends neither on the reference values
    nor on the current values. *)
Theorem zero_values_are_not_rejected :
  (forall changes params values reference_pars penalty sensitivity difference
          weights_flux weights_season weights_region i p r score,
      nth_error params i = Some p ->
      dict_get reference_pars p = Some (Fin r) -> r == 0 ->
      objective_function changes params values reference_pars penalty
                         sensitivity difference
                         weights_flux weights_season weights_region
      = Ok score ->
      is_finite score = false) /\
  (forall values diffmax optimal_changes rows rw v,
      report values diffmax optimal_changes = Ok rows ->
      In rw rows ->
      dict_get values (row_param rw) = Some (Fin v) -> v == 0 ->
      is_finite (relative_change rw) = false) /\
  (forall cfg cfg' (inc : pyval) sensitivity reference base pars pars',
      weights cfg = weights cfg' ->
      map fst pars = map fst pars' ->
      (exists su, before_optimization cfg inc sensitivity reference base pars
                  = Ok su)
      <->
      (exists su', before_optimization cfg' inc sensitivity reference base pars'
                   = Ok su')).
Proof.
  split; [|split].
  - intros changes params values reference_pars penalty sensitivity difference
           weights_flux weights_season weights_region i p r score Hp Hr Hz H.
    unfold objective_function in H. do 2 step_bind H. injection H as <-.
    apply fadd_not_finite_r, fmul_not_finite, top_not_finite.
    eapply param_difference_zero_reference; eauto.
  - intros values diffmax optimal_changes rows rw v H Hin Hv Hz.
    destruct (report_rows _ _ _ _ _ rw H Hin) as (v' & c & Ev & _ & _ & Er).
    rewrite Hv in Ev. injection Ev as <-. rewrite Er.
    now apply fdiv_zero_not_finite.
  - intros cfg cfg' inc sensitivity reference base pars pars' Hw Hk.
    unfold before_optimization. rewrite <- Hw.
    destruct (compute_difference reference base) as [difference|e]; simpl;
      [|split; intros [su Hsu]; discriminate].
    destruct (number_of inc) as [k|e] eqn:Ek.
    + pose proof (bounds_closed inc k pars Ek) as B.
      pose proof (bounds_closed inc k pars' Ek) as B'.
      unfold load_params in *. simpl in B, B'. rewrite <- Hk in *.
      rewrite B, B'. simpl.
      destruct (bounds_of k pars ([], [])) as [dm vs].
      destruct (bounds_of k pars' ([], [])) as [dm' vs'].
      destruct (print_change (keys (weights cfg)) difference sensitivity
                             (map fst pars) (zeros (List.length (map fst pars))));
        simpl; split; intros [su Hsu]; try discriminate; eauto.
    + pose proof (bounds_not_a_number inc e pars Ek) as B.
      pose proof (bounds_not_a_number inc e pars' Ek) as B'.
      unfold load_params in *. simpl in B, B'. rewrite <- Hk in *.
      rewrite B, B'.
      destruct pars as [|kv pars], pars' as [|kv' pars']; try discriminate Hk;
        simpl.
      * destruct (print_change (keys (weights cfg)) difference sensitivity
                               [] (zeros 0));
          simpl; split; intros [su Hsu]; try discriminate; eauto.
      * split; intros [su Hsu]; discriminate.
Qed.

(* ------------------------------------------------------------------ *)
(** ** compute_difference *)

Lemma dict_set_get_same {V} (d : dict V) (k : string) (v : V) :
  dict_get d k = Some v -> dict_set d k v = d.
Proof.
  induction d as [|[k' v'] d IH]; simpl; [discriminate|].
  destruct (String.eqb k' k) eqn:E.
  - apply String.eqb_eq in E. intros [= ->]. now subst.
  - intros H. now rewrite IH.
Qed.

Lemma update_from_get {A B} (g : string -> A -> option B)
      (l : dict A) (acc : dict B) (k : string) :
  unique_keys l = true ->
  dict_get (update_from g l acc) k
  = match dict_get l k with
    | Some a =>
        match g k a with
        | Some v => Some v
        | None => dict_get acc k
        end
    | None => dict_get acc k
    end.
Proof.
  unfold unique_keys, update_from. revert acc.
  induction l as [|[k' a] l IH]; intros acc Hu; simpl; [reflexivity|].
  simpl in Hu. apply andb_true_iff in Hu. destruct Hu as [Hm Hd].
  apply negb_true_iff in Hm. rewrite IH by assumption.
  destruct (String.eqb k' k) eqn:E.
  - apply String.eqb_eq in E. subst k'.
    assert (dict_get l k = None) as Hn.
    { apply dict_get_None_keys. rewrite <- mem_string_In.
      unfold keys in *. rewrite Hm. discriminate. }
    rewrite Hn. destruct (g k a); [apply dict_get_set_same|reflexivity].
  - apply String.eqb_neq in E.
    destruct (dict_get l k) as [a'|]; [destruct (g k a')|]; auto;
      destruct (g k' a); auto using dict_get_set_other.
Qed.

Section ComputeDifferenceFacts.

Variable reference : table float.

Lemma region_loop_closed (key subkey : string)
      (rk : dict (dict float)) (rks : dict float) (subvalue : dict float) :
  dict_get reference key = Some rk ->
  dict_get rk subkey = Some rks ->
  forall (difference : table float) (m : dict (dict float)) (acc : dict float),
    dict_get difference key = Some m ->
    dict_get m subkey = Some acc ->
    region_loop reference key subkey subvalue difference
    = Ok (dict_set difference key
                   (dict_set m subkey (region_build rks subvalue acc))).
Proof.
  intros Hrk Hrks. unfold region_loop, region_build, update_from.
  induction subvalue as [|[r b] subvalue IH]; intros difference m acc Hm Ha;
    simpl.
  - now rewrite (dict_set_get_same m), (dict_set_get_same difference).
  - unfold getitem at 1 2. rewrite Hrk. simpl. rewrite Hrks. simpl.
    unfold dict_in, getitem at 1.
    destruct (dict_get rks r) as [x|] eqn:Ex; simpl.
    + unfold setitem3, getitem. rewrite Hm. simpl. rewrite Ha. simpl.
      rewrite (IH _ (dict_set m subkey (dict_set acc r (fsub b x)))
                  (dict_set acc r (fsub b x)));
        auto using dict_get_set_same.
      now rewrite !dict_set_set.
    + now apply IH.
Qed.

Lemma season_loop_closed (key : string) (value : dict (dict float)) :
  forall (difference : table float) (m : dict (dict float)),
    dict_get difference key = Some m ->
    season_loop reference key value difference
    = Ok (dict_set difference key
                   match dict_get reference key with
                   | Some rk => season_build rk value m
                   | None => m
                   end).
Proof.
  unfold season_loop, season_build, update_from, matched, dict_in.
  induction value as [|[s subvalue] value IH]; intros difference m Hm; simpl.
  - destruct (dict_get reference key); now rewrite dict_set_get_same.
  - destruct (dict_get reference key) as [rk|] eqn:Hrk.
    + destruct (dict_get rk s) as [rks|] eqn:Hrks; simpl.
      * unfold setitem2, getitem. rewrite Hm. simpl.
        rewrite (region_loop_closed key s rk rks subvalue Hrk Hrks _
                                    (dict_set m s []) []);
          auto using dict_get_set_same.
        simpl. rewrite !dict_set_set.
        rewrite (IH _ (dict_set m s (region_build rks subvalue [])));
          auto using dict_get_set_same.
        now rewrite dict_set_set.
      * now apply IH.
    + now apply IH.
Qed.

Lemma compute_difference_loop (base acc : table float) :
  foldM (fun difference (item : string * dict (dict float)) =>
           let '(key, value) := item in
           season_loop reference key value (dict_set difference key []))
        base acc
  = Ok (update_from
          (fun key value =>
             Some match dict_get reference key with
                  | Some rk => season_build rk value []
                  | None => []
                  end)
          base acc).
Proof.
  unfold update_from. revert acc.
  induction base as [|[key value] base IH]; intros acc; simpl; [reflexivity|].
  rewrite (season_loop_closed key value _ []) by apply dict_get_set_same.
  simpl. rewrite dict_set_set. apply IH.
Qed.

Lemma compute_difference_closed (base : table float) :
  compute_difference reference base = Ok (difference_of reference base).
Proof. apply compute_difference_loop. Qed.

End ComputeDifferenceFacts.

Lemma unique_keys3_inner {V} (t : table V) (k : string) (m : dict (dict V)) :
  unique_keys3 t = true -> dict_get t k = Some m ->
  unique_keys m = true /\
  forall s r, dict_get m s = Some r -> unique_keys r = true.
Proof.
  unfold unique_keys3. intros H Hm. apply andb_true_iff in H.
  destruct H as [_ H]. rewrite forallb_forall in H.
  specialize (H _ (dict_get_In _ _ _ Hm)). simpl in H.
  apply andb_true_iff in H. destruct H as [H1 H2]. split; [assumption|].
  intros s r Hr. rewrite forallb_forall in H2.
  exact (H2 _ (dict_get_In _ _ _ Hr)).
Qed.

Lemma unique_keys3_outer {V} (t : table V) :
  unique_keys3 t = true -> unique_keys t = true.
Proof.
  unfold unique_keys3. intros H. apply andb_true_iff in H. tauto.
Qed.

(** C3. [compute_difference] returns a table that has a (variable, season,
    region) entry exactly for the triples that both the simulated table and
    the reference table have, with the value simulated minus reference; the
    other triples are left out, and nothing is raised. *)
Theorem compute_difference_both_present
        (reference base : table float) :
  unique_keys3 base = true ->
  exists difference,
    compute_difference reference base = Ok difference /\
    forall k s r,
      lookup3 difference k s r
      = match lookup3 base k s r, lookup3 reference k s r with
        | Some b, Some x => Some (fsub b x)
        | _, _ => None
        end.
Proof.
  intros Hu. exists (difference_of reference base).
  split; [apply compute_difference_closed|].
  intros k s r. unfold lookup3, difference_of.
  rewrite update_from_get by now apply unique_keys3_outer.
  destruct (dict_get base k) as [value|] eqn:Ev; simpl; [|reflexivity].
  destruct (unique_keys3_inner _ _ _ Hu Ev) as [Uv Ur].
  destruct (dict_get reference k) as [rk|] eqn:Erk; simpl.
  - unfold season_build. rewrite update_from_get by assumption.
    destruct (dict_get value s) as [subvalue|] eqn:Es; simpl; [|reflexivity].
    destruct (dict_get rk s) as [rks|] eqn:Erks; simpl;
      [|now destruct (dict_get subvalue r)].
    unfold region_build. rewrite update_from_get by (eapply Ur; eauto).
    destruct (dict_get subvalue r) as [b|]; simpl; [|reflexivity].
    destruct (dict_get rks r); reflexivity.
  - destruct (dict_get value s) as [subvalue|]; [|reflexivity].
    destruct (dict_get subvalue r); reflexivity.
Qed.

(* ------------------------------------------------------------------ *)
(** ** Entries that the loops do not read *)

Lemma triple_eqb_eq (t u : string * string * string) :
  triple_eqb t u = true <-> t = u.
Proof.
  destruct t as [[f s] r], u as [[f' s'] r']. simpl.
  rewrite !andb_true_iff, !String.eqb_eq. split.
  - intros [[-> ->] ->]. reflexivity.
  - intros [= -> -> ->]. auto.
Qed.

Lemma triple_eqb_neq (t u : string * string * string) :
  triple_eqb t u = false <-> t <> u.
Proof.
  rewrite <- triple_eqb_eq. destruct (triple_eqb t u); split; congruence.
Qed.

Lemma get_default_set {V} (d : dict V) (k k' : string) (v default : V) :
  get_default (dict_set d k v) k' default
  = if String.eqb k k' then v else get_default d k' default.
Proof.
  unfold get_default. rewrite dict_get_set. now destruct (String.eqb k k').
Qed.

Lemma lookup3_table_set {V} (t : table V) (f s r f' s' r' : string) (v : V) :
  lookup3 (table_set t f s r v) f' s' r'
  = if triple_eqb (f, s, r) (f', s', r') then Some v
    else lookup3 t f' s' r'.
Proof.
  unfold lookup3, table_set, get_default. simpl. rewrite dict_get_set.
  destruct (String.eqb f f') eqn:Ef; simpl; [|reflexivity].
  apply String.eqb_eq in Ef. subst f'. rewrite dict_get_set.
  destruct (String.eqb s s') eqn:Es; simpl.
  - apply String.eqb_eq in Es. subst s'. rewrite dict_get_set.
    destruct (String.eqb r r'); [reflexivity|].
    destruct (dict_get t f) as [m|]; [|reflexivity].
    destruct (dict_get m s); reflexivity.
  - destruct (dict_get t f) as [m|]; reflexivity.
Qed.

Lemma filter_flat_map {A B} (P : B -> bool) (h : A -> list B) (l : list A) :
  filter P (flat_map h l) = flat_map (fun a => filter P (h a)) l.
Proof.
  induction l as [|a l IH]; simpl; [reflexivity|].
  now rewrite filter_app, IH.
Qed.

Lemma filter_flat_map_dict_set {V T} (P : T -> bool) (d : dict V)
      (k : string) (x : V) (h h' : string -> list T) :
  (forall k', k' <> k -> h' k' = h k') ->
  filter P (h' k) = filter P (h k) ->
  (~ In k (keys d) -> h k = []) ->
  filter P (flat_map h' (keys (dict_set d k x)))
  = filter P (flat_map h (keys d)).
Proof.
  intros Hother Hsame Hnew.
  assert (forall l, flat_map (fun a => filter P (h' a)) l
                    = flat_map (fun a => filter P (h a)) l) as Hl.
  { intros l. apply flat_map_ext. intros a.
    destruct (string_dec a k) as [->|Hne]; [assumption|].
    now rewrite Hother. }
  destruct (in_dec string_dec k (keys d)) as [Hin|Hnin].
  - rewrite keys_dict_set_in by assumption.
    rewrite !filter_flat_map. apply Hl.
  - rewrite keys_dict_set_new by assumption.
    rewrite flat_map_app, filter_app, !filter_flat_map, Hl. simpl.
    rewrite app_nil_r, Hsame, (Hnew Hnin). simpl. now rewrite app_nil_r.
Qed.

(** The triples of a table with one more entry are those of the table, the
    new triple apart. *)
Lemma triples_table_set {V} (t : table V) (f s r : string) (v : V) :
  filter (fun u => negb (triple_eqb (f, s, r) u)) (triples (table_set t f s r v))
  = filter (fun u => negb (triple_eqb (f, s, r) u)) (triples t).
Proof.
  unfold triples, table_set.
  apply filter_flat_map_dict_set.
  - intros f' Hne. rewrite get_default_set.
    destruct (String.eqb f f') eqn:E; [|reflexivity].
    apply String.eqb_eq in E. congruence.
  - rewrite get_default_set, String.eqb_refl.
    apply filter_flat_map_dict_set.
    + intros s' Hne. rewrite get_default_set.
      destruct (String.eqb s s') eqn:E; [|reflexivity].
      apply String.eqb_eq in E. congruence.
    + rewrite get_default_set, String.eqb_refl.
      set (rs := get_default (get_default t f []) s []).
      destruct (in_dec string_dec r (keys rs)) as [Hin|Hnin].
      * now rewrite keys_dict_set_in.
      * rewrite keys_dict_set_new by assumption.
        rewrite map_app, filter_app. simpl.
        rewrite !String.eqb_refl. simpl. now rewrite app_nil_r.
    + intros Hnin. apply dict_get_None_keys in Hnin.
      unfold get_default at 1. now rewrite Hnin.
  - intros Hnin. apply dict_get_None_keys in Hnin.
    unfold get_default. now rewrite Hnin.
Qed.

Lemma foldM_filter {A S} (P : A -> bool) (f : S -> A -> result S)
      (l : list A) (s : S) :
  (forall a s, P a = false -> f s a = Ok s) ->
  foldM f (filter P l) s = foldM f l s.
Proof.
  intros H. revert s. induction l as [|a l IH]; intros s; simpl; [reflexivity|].
  destruct (P a) eqn:E; simpl.
  - destruct (f s a); simpl; auto.
  - rewrite (H a s E). simpl. apply IH.
Qed.

Lemma coefficient_lookup (sensitivity : sens_table) (p f s r : string) :
  coefficient sensitivity p f s r
  = match dict_get sensitivity p with
    | Some sp =>
        match lookup3 sp f s r with
        | Some l => index l 0
        | None => Raise KeyError
        end
    | None => Raise KeyError
    end.
Proof.
  unfold coefficient, lookup3, getitem.
  destruct (dict_get sensitivity p) as [sp|]; simpl; [|reflexivity].
  destruct (dict_get sp f) as [sf|]; simpl; [|reflexivity].
  destruct (dict_get sf s) as [ss|]; simpl; [|reflexivity].
  destruct (dict_get ss r); reflexivity.
Qed.

Lemma coefficient_add_other (sensitivity : sens_table)
      (p f s r p' f' s' r' : string) (c : float) :
  (f, s, r) <> (f', s', r') ->
  coefficient (add_sensitivity sensitivity p f s r c) p' f' s' r'
  = coefficient sensitivity p' f' s' r'.
Proof.
  intros Hne. apply triple_eqb_neq in Hne.
  rewrite !coefficient_lookup. unfold add_sensitivity.
  rewrite dict_get_set.
  destruct (String.eqb p p') eqn:E; [|reflexivity].
  apply String.eqb_eq in E. subst p'.
  rewrite lookup3_table_set, Hne. unfold get_default.
  destruct (dict_get sensitivity p); reflexivity.
Qed.

Lemma flux_change_add_other (changes : list float) (params : list string)
      (sensitivity : sens_table) (p f s r f' s' r' : string) (c : float) :
  (f, s, r) <> (f', s', r') ->
  flux_change changes params (add_sensitivity sensitivity p f s r c) f' s' r'
  = flux_change changes params sensitivity f' s' r'.
Proof.
  intros Hne. unfold flux_change. apply foldM_ext_in.
  intros [i q] acc _. now rewrite coefficient_add_other.
Qed.

Section StepFacts.

Variable changes : list float.
Variable params : list string.
Variables weights_flux weights_season weights_region : dict float.

(** The step reads the bias table only through the bias of the triple. *)
Lemma triple_step_bias (sensitivity : sens_table) (difference : table float)
      (f s r : string) (acc : float) :
  triple_step changes params sensitivity difference
              weights_flux weights_season weights_region f s acc r
  = let b := bias_or_nan difference f s r in
    if negb (isnan b) then
      fc <- flux_change changes params sensitivity f s r ;;
      wf <- getitem weights_flux f ;;
      wr <- getitem weights_region r ;;
      ws <- getitem weights_season s ;;
      Ok (fadd acc (fmul (fmul (fmul wf wr) ws) (fpow2 (fadd b fc))))
    else Ok acc.
Proof.
  unfold triple_step. simpl.
  destruct (isnan (bias_or_nan difference f s r)) eqn:E; simpl; [reflexivity|].
  destruct (bias_lookup difference f s r) as (df & ds & E1 & E2 & E3).
  { intros H. rewrite H in E. discriminate. }
  unfold getitem at 4 5 6. rewrite E1. simpl. rewrite E2. simpl.
  rewrite E3. reflexivity.
Qed.

Lemma step3_undefined (sensitivity : sens_table) (difference : table float)
      (t : string * string * string) (acc : float) :
  (let '(f, s, r) := t in isnan (bias_or_nan difference f s r)) = true ->
  step3 changes params sensitivity difference
        weights_flux weights_season weights_region acc t = Ok acc.
Proof.
  destruct t as [[f s] r]. intros H. unfold step3, triple_step.
  now rewrite H.
Qed.

Lemma step3_add_sensitivity (sensitivity : sens_table)
      (difference : table float) (p f s r : string) (c : float)
      (t : string * string * string) (acc : float) :
  isnan (bias_or_nan difference f s r) = true \/ (f, s, r) <> t ->
  step3 changes params (add_sensitivity sensitivity p f s r c) difference
        weights_flux weights_season weights_region acc t
  = step3 changes params sensitivity difference
          weights_flux weights_season weights_region acc t.
Proof.
  destruct t as [[f' s'] r']. intros H. unfold step3.
  rewrite !triple_step_bias. cbv zeta.
  destruct (isnan (bias_or_nan difference f' s' r')) eqn:E; simpl;
    [reflexivity|].
  rewrite flux_change_add_other; [reflexivity|].
  destruct H as [H|H]; [|assumption].
  intros [= -> -> ->]. congruence.
Qed.

Lemma bias_or_nan_table_set (difference : table float)
      (f s r f' s' r' : string) (b : float) :
  (f, s, r) <> (f', s', r') ->
  bias_or_nan (table_set difference f s r b) f' s' r'
  = bias_or_nan difference f' s' r'.
Proof.
  intros Hne. apply triple_eqb_neq in Hne.
  now rewrite !bias_or_nan_lookup3, lookup3_table_set, Hne.
Qed.

Lemma step3_table_set (sensitivity : sens_table)
      (difference : table float) (f s r : string) (b : float)
      (t : string * string * string) (acc : float) :
  (f, s, r) <> t ->
  step3 changes params sensitivity (table_set difference f s r b)
        weights_flux weights_season weights_region acc t
  = step3 changes params sensitivity difference
          weights_flux weights_season weights_region acc t.
Proof.
  destruct t as [[f' s'] r']. intros H. unfold step3.
  rewrite !triple_step_bias. cbv zeta.
  now rewrite bias_or_nan_table_set.
Qed.

End StepFacts.

Section Unread.

Variable changes : list float.
Variable params : list string.
Variables values reference_pars : dict float.
Variable penalty : float.
Variables weights_flux weights_season weights_region : dict float.

Lemma objective_function_flux_term
      (sensitivity sensitivity' : sens_table)
      (difference difference' : table float) :
  total_difference changes params sensitivity' difference'
                   weights_flux weights_season weights_region
  = total_difference changes params sensitivity difference
                     weights_flux weights_season weights_region ->
  objective_function changes params values reference_pars penalty
                     sensitivity' difference'
                     weights_flux weights_season weights_region
  = objective_function changes params values reference_pars penalty
                       sensitivity difference
                       weights_flux weights_season weights_region.
Proof. unfold objective_function. now intros ->. Qed.

Lemma total_difference_add_undefined
      (sensitivity : sens_table) (difference : table float)
      (p f s r : string) (c : float) :
  isnan (bias_or_nan difference f s r) = true ->
  (nth_error params 0 = Some p -> dict_get sensitivity p <> None) ->
  total_difference changes params (add_sensitivity sensitivity p f s r c)
                   difference weights_flux weights_season weights_region
  = total_difference changes params sensitivity
                     difference weights_flux weights_season weights_region.
Proof.
  intros Hnan Hp0.
  destruct (nth_error params 0) as [p0|] eqn:Ep;
    [|unfold total_difference, index; now rewrite Ep].
  assert (forall sp : table (list float),
            foldM (step3 changes params (add_sensitivity sensitivity p f s r c)
                         difference weights_flux weights_season weights_region)
                  (triples sp) (Fin 0)
            = foldM (step3 changes params sensitivity
                           difference weights_flux weights_season weights_region)
                    (triples sp) (Fin 0)) as Hsame.
  { intros sp. apply foldM_ext_in. intros t acc _.
    apply step3_add_sensitivity. now left. }
  destruct (String.eqb p p0) eqn:E.
  - apply String.eqb_eq in E. subst p.
    destruct (dict_get sensitivity p0) as [sp|] eqn:Es;
      [|exfalso; now apply Hp0].
    rewrite (total_difference_triples _ _ sensitivity _ _ _ _ p0 sp Ep Es).
    rewrite (total_difference_triples
               _ _ (add_sensitivity sensitivity p0 f s r c) _ _ _ _
               p0 (table_set sp f s r [c]) Ep).
    2:{ unfold add_sensitivity. rewrite dict_get_set_same.
        now rewrite (get_default_Some _ _ _ _ Es). }
    rewrite <- (Hsame sp).
    set (P := fun u => negb (triple_eqb (f, s, r) u)).
    assert (forall u acc, P u = false ->
              step3 changes params (add_sensitivity sensitivity p0 f s r c)
                    difference weights_flux weights_season weights_region
                    acc u = Ok acc) as Hid.
    { intros u acc Hu. unfold P in Hu. apply negb_false_iff in Hu.
      apply triple_eqb_eq in Hu. subst u. now apply step3_undefined. }
    rewrite <- (foldM_filter P _ (triples (table_set sp f s r [c])) _ Hid).
    rewrite <- (foldM_filter P _ (triples sp) _ Hid).
    unfold P. now rewrite triples_table_set.
  - apply String.eqb_neq in E.
    assert (dict_get (add_sensitivity sensitivity p f s r c) p0
            = dict_get sensitivity p0) as Hget
        by (unfold add_sensitivity; now rewrite dict_get_set_other).
    destruct (dict_get sensitivity p0) as [sp|] eqn:Es.
    + rewrite (total_difference_triples _ _ sensitivity _ _ _ _ p0 sp Ep Es).
      rewrite (total_difference_triples
                 _ _ (add_sensitivity sensitivity p f s r c) _ _ _ _
                 p0 sp Ep Hget).
      apply Hsame.
    + unfold total_difference, index, getitem. rewrite Ep. simpl.
      now rewrite Hget, Es.
Qed.

End Unread.

(** C4. A sensitivity entry for a triple whose bias is absent from the bias
    table, or is nan there, does not change the score: for every change
    vector, entering a coefficient for such a triple under a parameter [p]
    leaves the result of [objective_function] as it was, and the missing
    bias raises nothing.  (When [p] is the first parameter it must have had
    a sensitivity table already, or the entry would create the table the
    loops run over.) *)
Theorem unmatched_sensitivity_entry_is_skipped
        (changes : list float) (params : list string)
        (values reference_pars : dict float) (penalty : float)
        (sensitivity : sens_table) (difference : table float)
        (weights_flux weights_season weights_region : dict float)
        (p f s r : string) (c : float) :
  isnan (bias_or_nan difference f s r) = true ->
  (nth_error params 0 = Some p -> dict_get sensitivity p <> None) ->
  objective_function changes params values reference_pars penalty
                     (add_sensitivity sensitivity p f s r c) difference
                     weights_flux weights_season weights_region
  = objective_function changes params values reference_pars penalty
                       sensitivity difference
                       weights_flux weights_season weights_region.
Proof.
  intros Hnan Hp0. apply objective_function_flux_term.
  now apply total_difference_add_undefined.
Qed.

(** C9. The flux term is a loop over the triples of the sensitivity table of
    the first parameter and of no other.  For a triple that is not in that
    table the score depends neither on the coefficient another parameter
    has for it nor on its bias, whether defined or not. *)
Theorem only_first_parameter_triples_count
        (changes : list float) (params : list string)
        (values reference_pars : dict float) (penalty : float)
        (sensitivity : sens_table) (difference : table float)
        (weights_flux weights_season weights_region : dict float)
        (p0 : string) (sp : table (list float)) (f s r : string) :
  nth_error params 0 = Some p0 ->
  dict_get sensitivity p0 = Some sp ->
  ~ In (f, s, r) (triples sp) ->
  total_difference changes params sensitivity difference
                   weights_flux weights_season weights_region
  = foldM (step3 changes params sensitivity difference
                 weights_flux weights_season weights_region)
          (triples sp) (Fin 0)
  /\
  (forall p c,
      p <> p0 ->
      objective_function changes params values reference_pars penalty
                         (add_sensitivity sensitivity p f s r c) difference
                         weights_flux weights_season weights_region
      = objective_function changes params values reference_pars penalty
                           sensitivity difference
                           weights_flux weights_season weights_region)
  /\
  (forall b,
      objective_function changes params values reference_pars penalty
                         sensitivity (table_set difference f s r b)
                         weights_flux weights_season weights_region
      = objective_function changes params values reference_pars penalty
                           sensitivity difference
                           weights_flux weights_season weights_region).
Proof.
  intros Ep Es Hnin.
  assert (forall t, In t (triples sp) -> (f, s, r) <> t) as Hne
      by (intros t Ht E; subst t; contradiction).
  split; [now apply total_difference_triples with (p0 := p0)|]. split.
  - intros p c Hp. apply objective_function_flux_term.
    rewrite (total_difference_triples _ _ sensitivity _ _ _ _ p0 sp Ep Es).
    rewrite (total_difference_triples
               _ _ (add_sensitivity sensitivity p f s r c) _ _ _ _ p0 sp Ep).
    + apply foldM_ext_in. intros t acc Ht.
      apply step3_add_sensitivity. right. auto.
    + unfold add_sensitivity. now rewrite dict_get_set_other.
  - intros b. apply objective_function_flux_term.
    rewrite !(total_difference_triples _ _ sensitivity _ _ _ _ p0 sp Ep Es).
    apply foldM_ext_in. intros t acc Ht. apply step3_table_set. auto.
Qed.

(* ------------------------------------------------------------------ *)
(** ** Sums over tables *)



Section SumsOverDistinct.

Context {T : Type}.
Hypothesis T_dec : forall x y : T, {x = y} + {x <> y}.
Variable W : T -> Q.


End SumsOverDistinct.




Lemma unique_keys_NoDup {V} (d : dict V) :
  unique_keys d = true -> NoDup (keys d).
Proof. apply distinct_NoDup. Qed.



Lemma lookup3_In_triples {V} (t : table V) (f s r : string) (v : V) :
  lookup3 t f s r = Some v -> In (f, s, r) (triples t).
Proof.
  unfold lookup3, triples. intros H.
  destruct (dict_get t f) as [m|] eqn:Em; [|discriminate].
  destruct (dict_get m s) as [rs|] eqn:Ers; [|discriminate].
  apply in_flat_map. exists f. split.
  { apply dict_get_In_keys. congruence. }
  rewrite (get_default_Some _ _ _ _ Em).
  apply in_flat_map. exists s. split.
  { apply dict_get_In_keys. congruence. }
  rewrite (get_default_Some _ _ _ _ Ers).
  apply in_map. apply dict_get_In_keys. congruence.
Qed.


Section ZeroChange.

Variable difference : table float.
Variables weights_flux weights_season weights_region : dict float.

Local Abbreviation W := (weighted_square difference weights_flux weights_season
                                     weights_region).




End ZeroChange.

Lemma nth_error_zeros (n i : nat) (x : Q) :
  nth_error (zeros n) i = Some (Fin x) -> x == 0.
Proof.
  intros H. apply nth_error_In in H. unfold zeros in H.
  apply repeat_spec in H. injection H as ->. reflexivity.
Qed.


(* ------------------------------------------------------------------ *)
(** ** The theorems on the sample data *)

Lemma nonneg_dict_nil : nonneg_dict [].
Proof. intros k q H. discriminate H. Qed.

Lemma nonneg_dict_cons (k : string) (q : Q) (d : dict float) :
  0 <= q -> nonneg_dict d -> nonneg_dict ((k, Fin q) :: d).
Proof.
  intros Hq Hd k' q' H. unfold dict_get in H. fold (@dict_get float) in H.
  destruct (String.eqb k k').
  - injection H as <-. assumption.
  - eapply Hd; eauto.
Qed.

Lemma sample_real_triples (x : Q) :
  Forall (real_triple [Fin x] sample_params sample_sensitivity
                      sample_difference (weights sample_config)
                      (weights_season_of sample_config)
                      (weights_region_of sample_config))
         (triples sample_table).
Proof.
  constructor; [|constructor].
  right. exists (1 # 2), 1, 1, 1. repeat split; try reflexivity.
  constructor; [|constructor].
  exists (- (10)), x. split; reflexivity.
Qed.

Lemma sample_valid_params (x : Q) :
  Forall (valid_param sample_pars sample_pars [Fin x]) (enumerate sample_params).
Proof.
  constructor; [|constructor].
  exists (6 # 100), (6 # 100), x. repeat split; try reflexivity.
  apply is_zero_false. reflexivity.
Qed.


Lemma zero_values_are_not_rejected_witness :
  exists score,
    objective_function [Fin 0] sample_params sample_pars
                       (reference_parameters zero_reference_config)
                       (Fin (1 # 100)) sample_sensitivity sample_difference
                       (weights sample_config) (weights_season_of sample_config)
                       (weights_region_of sample_config)
    = Ok score /\
    is_finite score = false.
Proof.
  destruct zero_values_are_not_rejected as [H _].
  exists PInf. split; [reflexivity|].
  apply (H [Fin 0] sample_params sample_pars
           (reference_parameters zero_reference_config)
           (Fin (1 # 100)) sample_sensitivity sample_difference
           (weights sample_config) (weights_season_of sample_config)
           (weights_region_of sample_config)
           0%nat "ocean_albedo" 0 PInf); reflexivity.
Defined.

(** C2 as stated fails.  With a reference value of zero the program reaches
    the call of the minimizer and the score of the initial guess is
    infinite; with a current value of zero it reaches the call as well and
    the relative change in the final table is nan. *)
Lemma zero_values_reach_the_minimizer :
  main_until_minimize (fun _ => zero_reference_config) sample_args
                      sample_sensitivity sample_reference sample_base
                      sample_pars
  = Ok (sample_settings,
        sample_setup sample_pars
                     [("ocean_albedo", fmul (Fin (6 # 100)) (Fin (1 # 10)))]) /\
  objective_function [Fin 0] sample_params sample_pars
                     (reference_parameters zero_reference_config)
                     (Fin (1 # 100)) sample_sensitivity sample_difference
                     (weights sample_config) (weights_season_of sample_config)
                     (weights_region_of sample_config)
  = Ok PInf /\
  main_until_minimize (fun _ => sample_config) sample_args
                      sample_sensitivity sample_reference sample_base
                      zero_pars
  = Ok (sample_settings,
        sample_setup zero_pars
                     [("ocean_albedo", fmul (Fin 0) (Fin (1 # 10)))]) /\
  (oc <- optimal_changes_of sample_params [Fin 0] ;;
   report zero_pars [("ocean_albedo", fmul (Fin 0) (Fin (1 # 10)))] oc)
  = Ok [{| row_param := "ocean_albedo"; new_value := Fin 0;
           old_value := Fin 0; change := Fin 0; relative_change := NaN;
           max_change := fmul (Fin 0) (Fin (1 # 10)) |}].
Proof. repeat split. Qed.

Lemma compute_difference_both_present_witness :
  exists difference,
    compute_difference sample_reference sample_base = Ok difference /\
    forall k s r,
      lookup3 difference k s r
      = match lookup3 sample_base k s r, lookup3 sample_reference k s r with
        | Some b, Some x => Some (fsub b x)
        | _, _ => None
        end.
Proof.
  apply (compute_difference_both_present sample_reference sample_base).
  reflexivity.
Defined.

Lemma unmatched_sensitivity_entry_is_skipped_witness :
  objective_function [Fin (6 # 1000)] sample_params sample_pars sample_pars
                     (Fin (1 # 100))
                     (add_sensitivity sample_sensitivity
                                      "ocean_albedo" "pr" "ALL" "Global" (Fin 3))
                     sample_difference
                     (weights sample_config) (weights_season_of sample_config)
                     (weights_region_of sample_config)
  = objective_function [Fin (6 # 1000)] sample_params sample_pars sample_pars
                       (Fin (1 # 100)) sample_sensitivity sample_difference
                       (weights sample_config) (weights_season_of sample_config)
                       (weights_region_of sample_config).
Proof.
  apply unmatched_sensitivity_entry_is_skipped.
  - reflexivity.
  - intros _. discriminate.
Defined.

Lemma objective_function_nonneg_exact_witness :
  exists q,
    objective_function [Fin (6 # 1000)] sample_params sample_pars sample_pars
                       (Fin (1 # 100)) sample_sensitivity sample_difference
                       (weights sample_config) (weights_season_of sample_config)
                       (weights_region_of sample_config)
    = Ok (Fin q) /\
    0 <= q.
Proof.
  apply (objective_function_nonneg_exact
           [Fin (6 # 1000)] sample_params sample_pars sample_pars (1 # 100)
           sample_sensitivity sample_difference
           (weights sample_config) (weights_season_of sample_config)
           (weights_region_of sample_config) "ocean_albedo" sample_table).
  - reflexivity.
  - reflexivity.
  - apply sample_real_triples.
  - apply nonneg_dict_cons; [discriminate|apply nonneg_dict_nil].
  - apply nonneg_dict_cons; [discriminate|apply nonneg_dict_nil].
  - apply nonneg_dict_cons; [discriminate|apply nonneg_dict_nil].
  - apply sample_valid_params.
  - discriminate.
Defined.

Lemma penalty_zero_iff_on_reference_exact_witness :
  exists q,
    param_difference [Fin 0] sample_params sample_pars sample_pars
    = Ok (Fin q) /\
    (q == 0 <->
     Forall (on_reference sample_pars sample_pars [Fin 0])
            (enumerate sample_params)) /\
    (forall pen, 0 < pen ->
       fmul (Fin q) (Fin pen) = Fin (q * pen) /\
       (q * pen == 0 <->
        Forall (on_reference sample_pars sample_pars [Fin 0])
               (enumerate sample_params))).
Proof.
  apply (penalty_zero_iff_on_reference_exact
           [Fin 0] sample_params sample_pars sample_pars).
  apply sample_valid_params.
Defined.

Lemma only_first_parameter_triples_count_witness :
  objective_function [Fin (6 # 1000)] sample_params sample_pars sample_pars
                     (Fin (1 # 100))
                     (add_sensitivity sample_sensitivity
                                      "rlcrit" "pr" "ALL" "Global" (Fin 3))
                     sample_difference
                     (weights sample_config) (weights_season_of sample_config)
                     (weights_region_of sample_config)
  = objective_function [Fin (6 # 1000)] sample_params sample_pars sample_pars
                       (Fin (1 # 100)) sample_sensitivity sample_difference
                       (weights sample_config) (weights_season_of sample_config)
                       (weights_region_of sample_config)
  /\
  objective_function [Fin (6 # 1000)] sample_params sample_pars sample_pars
                     (Fin (1 # 100)) sample_sensitivity
                     (table_set sample_difference "pr" "ALL" "Global" (Fin 5))
                     (weights sample_config) (weights_season_of sample_config)
                     (weights_region_of sample_config)
  = objective_function [Fin (6 # 1000)] sample_params sample_pars sample_pars
                       (Fin (1 # 100)) sample_sensitivity sample_difference
                       (weights sample_config) (weights_season_of sample_config)
                       (weights_region_of sample_config).
Proof.
  destruct (only_first_parameter_triples_count
              [Fin (6 # 1000)] sample_params sample_pars sample_pars
              (Fin (1 # 100)) sample_sensitivity sample_difference
              (weights sample_config) (weights_season_of sample_config)
              (weights_region_of sample_config)
              "ocean_albedo" sample_table "pr" "ALL" "Global")
    as [_ [H1 H2]].
  - reflexivity.
  - reflexivity.
  - simpl. intros [H|[]]. discriminate H.
  - split; [apply H1; discriminate | apply H2].
Defined.

(* ------------------------------------------------------------------ *)
(** ** Loops that fill a dict key by key *)

Section SetLoop.

Context {B : Type}.
Variable F : string -> result B.

Local Abbreviation set_step :=
  (fun (acc : dict B) (k : string) => v <- F k ;; Ok (dict_set acc k v)).

Lemma set_loop_ok (l : list string) (acc0 acc : dict B) :
  foldM set_step l acc0 = Ok acc ->
  (forall k, In k l -> exists v, F k = Ok v /\ dict_get acc k = Some v) /\
  (forall k, ~ In k l -> dict_get acc k = dict_get acc0 k).
Proof.
  revert acc0. induction l as [|a l IH]; intros acc0 H; simpl in H.
  - injection H as <-. split; [intros k []|reflexivity].
  - destruct (F a) as [v|e] eqn:Ea; simpl in H; [|discriminate H].
    destruct (IH _ H) as [H1 H2]. split.
    + intros k Hk. destruct (in_dec string_dec k l) as [Hin|Hnin].
      * now apply H1.
      * destruct Hk as [->|Hk]; [|contradiction].
        exists v. split; [assumption|].
        rewrite (H2 k Hnin). apply dict_get_set_same.
    + intros k Hk. rewrite H2 by (intros Hc; apply Hk; now right).
      apply dict_get_set_other. intros ->. apply Hk. now left.
Qed.

Lemma set_loop_raise (l : list string) (acc0 : dict B) (e : exn) :
  foldM set_step l acc0 = Raise e -> exists k, In k l /\ F k = Raise e.
Proof.
  revert acc0. induction l as [|a l IH]; intros acc0 H; simpl in H.
  - discriminate H.
  - destruct (F a) as [v|e'] eqn:Ea; simpl in H.
    + destruct (IH _ H) as (k & Hk & E). exists k. split; [now right|assumption].
    + injection H as ->. exists a. split; [now left|assumption].
Qed.

Lemma set_loop_total (l : list string) (acc0 : dict B) :
  (forall k, In k l -> exists v, F k = Ok v) ->
  exists acc, foldM set_step l acc0 = Ok acc.
Proof.
  revert acc0. induction l as [|a l IH]; intros acc0 H; simpl.
  - eauto.
  - destruct (H a) as [v Ev]; [now left|]. rewrite Ev. simpl.
    apply IH. intros k Hk. apply H. now right.
Qed.

Lemma set_loop_keys (l : list string) (acc0 acc : dict B) :
  NoDup (keys acc0 ++ l) ->
  foldM set_step l acc0 = Ok acc ->
  keys acc = (keys acc0 ++ l)%list.
Proof.
  revert acc0. induction l as [|a l IH]; intros acc0 Hn H; simpl in H.
  - injection H as <-. now rewrite app_nil_r.
  - destruct (F a) as [v|e] eqn:Ea; simpl in H; [|discriminate H].
    assert (~ In a (keys acc0)) as Hfresh.
    { apply NoDup_remove_2 in Hn. intros Hc. apply Hn, in_or_app. now left. }
    rewrite (IH (dict_set acc0 a v)); [| |assumption].
    + rewrite keys_dict_set_new by assumption. now rewrite <- app_assoc.
    + rewrite keys_dict_set_new by assumption. now rewrite <- app_assoc.
Qed.

End SetLoop.

(* ------------------------------------------------------------------ *)
(** ** load_reference *)

Lemma lookup2_getitem {V} (t : dict (dict V)) (s r : string) (v : V) :
  (m <- getitem t s ;; getitem m r) = Ok v <-> lookup2 t s r = Some v.
Proof.
  unfold lookup2, getitem. destruct (dict_get t s) as [m|]; simpl.
  - destruct (dict_get m r); split; congruence.
  - split; discriminate.
Qed.

Lemma means_of_regions_get (m : dict (dict float)) (regions : dict float) :
  means_of_regions m = Ok regions ->
  forall r, dict_get regions r = lookup2 m r "mean".
Proof.
  intros H r. unfold means_of_regions in H.
  apply set_loop_ok in H. destruct H as [H1 H2].
  destruct (in_dec string_dec r (keys m)) as [Hin|Hnin].
  - destruct (H1 r Hin) as (v & Ev & Hv). apply lookup2_getitem in Ev.
    congruence.
  - rewrite (H2 r Hnin). apply dict_get_None_keys in Hnin.
    unfold lookup2. now rewrite Hnin.
Qed.

Lemma means_of_regions_ok (m : dict (dict float)) :
  (exists regions, means_of_regions m = Ok regions) <->
  (forall r cell, dict_get m r = Some cell -> dict_get cell "mean" <> None).
Proof.
  unfold means_of_regions. split.
  - intros [regions H] r cell Hr. apply set_loop_ok in H. destruct H as [H1 _].
    destruct (H1 r) as (v & Ev & _).
    { apply dict_get_In_keys. congruence. }
    unfold getitem in Ev. rewrite Hr in Ev. simpl in Ev.
    destruct (dict_get cell "mean"); [discriminate|discriminate Ev].
  - intros H. apply set_loop_total. intros r Hr.
    apply dict_get_In_keys in Hr.
    destruct (dict_get m r) as [cell|] eqn:Ec; [|congruence].
    specialize (H r cell Ec). unfold getitem. rewrite Ec. simpl.
    destruct (dict_get cell "mean") as [x|]; [eauto|congruence].
Qed.

Lemma means_of_get (tb : table float) (rt : dict (dict float)) :
  means_of tb = Ok rt ->
  forall s r, lookup2 rt s r = lookup3 tb s r "mean".
Proof.
  intros H s r. unfold means_of in H.
  apply set_loop_ok in H. destruct H as [H1 H2].
  unfold lookup2, lookup3.
  destruct (in_dec string_dec s (keys tb)) as [Hin|Hnin].
  - destruct (H1 s Hin) as (regions & Ev & Hv). rewrite Hv.
    unfold getitem in Ev. destruct (dict_get tb s) as [m|]; [|discriminate Ev].
    simpl in Ev. apply (means_of_regions_get m regions Ev).
  - rewrite (H2 s Hnin). apply dict_get_None_keys in Hnin.
    now rewrite Hnin.
Qed.

Lemma means_of_ok (tb : table float) :
  (exists rt, means_of tb = Ok rt) <->
  (forall s r cell, lookup2 tb s r = Some cell -> dict_get cell "mean" <> None).
Proof.
  unfold means_of. split.
  - intros [rt H] s r cell Hc. apply set_loop_ok in H. destruct H as [H1 _].
    unfold lookup2 in Hc. destruct (dict_get tb s) as [m|] eqn:Em; [|discriminate].
    destruct (H1 s) as (regions & Ev & _).
    { apply dict_get_In_keys. congruence. }
    unfold getitem in Ev. rewrite Em in Ev. simpl in Ev.
    assert (exists regions, means_of_regions m = Ok regions) as Hex by eauto.
    rewrite means_of_regions_ok in Hex. eauto.
  - intros H. apply set_loop_total. intros s Hs.
    apply dict_get_In_keys in Hs.
    destruct (dict_get tb s) as [m|] eqn:Em; [|congruence].
    unfold getitem. rewrite Em. simpl.
    apply means_of_regions_ok. intros r cell Hr.
    apply (H s r). unfold lookup2. now rewrite Em.
Qed.

Lemma means_raise_KeyError (tb : table float) (e : exn) :
  means_of tb = Raise e -> e = KeyError.
Proof.
  unfold means_of. intros H. apply set_loop_raise in H.
  destruct H as (s & _ & H). unfold getitem in H.
  destruct (dict_get tb s) as [m|]; simpl in H; [|congruence].
  unfold means_of_regions in H. apply set_loop_raise in H.
  destruct H as (r & _ & H). unfold getitem in H.
  destruct (dict_get m r) as [cell|]; simpl in H; [|congruence].
  destruct (dict_get cell "mean"); congruence.
Qed.

Lemma reference_of_variable_ok (ref : dict (dict obs)) (t : string)
      (entry : dict obs) :
  dict_get ref t = Some entry ->
  (exists reft, reference_of_variable ref t = Ok reft) <->
  well_formed_entry entry.
Proof.
  intros Ht. unfold reference_of_variable, well_formed_entry, getitem.
  rewrite Ht. simpl.
  destruct (dict_get entry "obs") as [[x|tb]|]; simpl.
  - split; eauto.
  - apply means_of_ok.
  - split; [intros [reft H]; discriminate H|tauto].
Qed.

(** X1. [load_reference] returns a table exactly when every variable of the
    file has an ['obs'] field and, where that field is a table by season and
    region, every cell has a ['mean']; the only exception it raises is
    KeyError. *)
Theorem load_reference_succeeds_iff (ref : dict (dict obs)) :
  ((exists reference, load_reference ref = Ok reference) <->
   (forall t entry, dict_get ref t = Some entry -> well_formed_entry entry)) /\
  (forall e, load_reference ref = Raise e -> e = KeyError).
Proof.
  unfold load_reference. split; [split|].
  - intros [reference H] t entry Ht. apply set_loop_ok in H.
    destruct H as [H1 _]. destruct (H1 t) as (reft & E & _).
    { apply dict_get_In_keys. congruence. }
    apply (reference_of_variable_ok ref t entry Ht). eauto.
  - intros H. apply set_loop_total. intros t Ht.
    apply dict_get_In_keys in Ht.
    destruct (dict_get ref t) as [entry|] eqn:Et; [|congruence].
    apply (reference_of_variable_ok ref t entry Et). eauto.
  - intros e H. apply set_loop_raise in H. destruct H as (t & _ & H).
    unfold reference_of_variable, getitem in H.
    destruct (dict_get ref t) as [entry|]; simpl in H; [|congruence].
    destruct (dict_get entry "obs") as [[x|tb]|]; simpl in H;
      [discriminate H| |congruence].
    now apply means_raise_KeyError with (tb := tb).
Qed.

(** X2. In the table [load_reference] returns, a variable whose ['obs'] is a
    number has the single entry season ALL, region Global, with that number;
    a variable whose ['obs'] is a table has, for every season and region,
    the ['mean'] of the cell; and a name that is no variable of the file has
    no entry. *)
Theorem load_reference_entries
        (ref : dict (dict obs)) (reference : table float) (t : string) :
  load_reference ref = Ok reference ->
  match dict_get ref t with
  | None => dict_get reference t = None
  | Some entry =>
      match dict_get entry "obs" with
      | Some (ObsScalar x) =>
          dict_get reference t = Some [("ALL", [("Global", x)])]
      | Some (ObsTable tb) =>
          forall s r, lookup3 reference t s r = lookup3 tb s r "mean"
      | None => False
      end
  end.
Proof.
  unfold load_reference. intros H. apply set_loop_ok in H.
  destruct H as [H1 H2].
  destruct (dict_get ref t) as [entry|] eqn:Et.
  - destruct (H1 t) as (reft & E & Hget).
    { apply dict_get_In_keys. congruence. }
    unfold reference_of_variable, getitem in E. rewrite Et in E. simpl in E.
    destruct (dict_get entry "obs") as [[x|tb]|]; cbn [bind] in E.
    + injection E as <-. exact Hget.
    + intros s r. pose proof (means_of_get tb reft E s r) as Hm.
      unfold lookup3 at 1. rewrite Hget. exact Hm.
    + discriminate E.
  - rewrite H2; [reflexivity|]. now apply dict_get_None_keys.
Qed.

Lemma load_reference_entries_witness :
  exists reference,
    load_reference sample_ref = Ok reference /\
    dict_get reference "net_toa" = Some [("ALL", [("Global", Fin (7 # 10))])] /\
    lookup3 reference "tas" "ALL" "Global" = Some (Fin 14).
Proof.
  assert (load_reference sample_ref
          = Ok [("tas", [("ALL", [("Global", Fin 14)])]);
                ("net_toa", [("ALL", [("Global", Fin (7 # 10))])])]) as E
      by reflexivity.
  eexists. split; [exact E|]. split.
  - exact (load_reference_entries sample_ref _ "net_toa" E).
  - exact (load_reference_entries sample_ref _ "tas" E "ALL" "Global").
Defined.

(* ------------------------------------------------------------------ *)
(** ** More on compute_difference *)

Lemma difference_of_lookup3 (reference base : table float) (k s r : string) :
  unique_keys3 base = true ->
  lookup3 (difference_of reference base) k s r
  = match lookup3 base k s r, lookup3 reference k s r with
    | Some b, Some x => Some (fsub b x)
    | _, _ => None
    end.
Proof.
  intros Hu. unfold lookup3, difference_of.
  rewrite update_from_get by now apply unique_keys3_outer.
  destruct (dict_get base k) as [value|] eqn:Ev; simpl; [|reflexivity].
  destruct (unique_keys3_inner _ _ _ Hu Ev) as [Uv Ur].
  destruct (dict_get reference k) as [rk|] eqn:Erk; simpl.
  - unfold season_build. rewrite update_from_get by assumption.
    destruct (dict_get value s) as [subvalue|] eqn:Es; simpl; [|reflexivity].
    destruct (dict_get rk s) as [rks|] eqn:Erks; simpl;
      [|now destruct (dict_get subvalue r)].
    unfold region_build. rewrite update_from_get by (eapply Ur; eauto).
    destruct (dict_get subvalue r) as [b|]; simpl; [|reflexivity].
    destruct (dict_get rks r); reflexivity.
  - destruct (dict_get value s) as [subvalue|]; [|reflexivity].
    destruct (dict_get subvalue r); reflexivity.
Qed.

Lemma difference_of_lookup2 (reference base : table float) (k s : string) :
  unique_keys3 base = true ->
  (lookup2 (difference_of reference base) k s <> None <->
   lookup2 base k s <> None /\ lookup2 reference k s <> None).
Proof.
  intros Hu. unfold lookup2, difference_of.
  rewrite update_from_get by now apply unique_keys3_outer.
  destruct (dict_get base k) as [value|] eqn:Ev; simpl; [|tauto].
  destruct (unique_keys3_inner _ _ _ Hu Ev) as [Uv _].
  destruct (dict_get reference k) as [rk|] eqn:Erk; simpl.
  - unfold season_build. rewrite update_from_get by assumption.
    destruct (dict_get value s) as [subvalue|]; simpl; [|tauto].
    destruct (dict_get rk s) as [rks|]; simpl; split; try tauto;
      intros; try split; discriminate.
  - tauto.
Qed.

Lemma dict_set_fresh {V} (d : dict V) (k : string) (v : V) :
  ~ In k (keys d) -> dict_set d k v = (d ++ [(k, v)])%list.
Proof.
  induction d as [|[k' v'] d IH]; simpl; [reflexivity|].
  intros Hn. destruct (String.eqb k' k) eqn:E.
  - apply String.eqb_eq in E. tauto.
  - f_equal. apply IH. tauto.
Qed.

(** Setting distinct fresh keys one after the other appends them. *)
Lemma fold_set_fresh {A B} (h : string -> A -> B) (l : dict A) (acc : dict B) :
  NoDup (keys acc ++ keys l) ->
  fold_left (fun acc (kv : string * A) =>
               dict_set acc (fst kv) (h (fst kv) (snd kv))) l acc
  = (acc ++ map (fun kv : string * A => (fst kv, h (fst kv) (snd kv))) l)%list.
Proof.
  revert acc. induction l as [|[k a] l IH]; intros acc Hn; simpl.
  - now rewrite app_nil_r.
  - simpl in Hn.
    assert (~ In k (keys acc)) as Hfresh.
    { apply NoDup_remove_2 in Hn. intros Hc. apply Hn, in_or_app. now left. }
    rewrite dict_set_fresh by assumption. rewrite IH.
    + now rewrite <- app_assoc.
    + unfold keys in *. rewrite map_app. simpl. now rewrite <- app_assoc.
Qed.

Lemma difference_of_keys (reference base : table float) :
  unique_keys base = true ->
  keys (difference_of reference base) = keys base.
Proof.
  intros Hu. unfold difference_of, update_from.
  rewrite (fold_set_fresh
             (fun key value =>
                match dict_get reference key with
                | Some rk => season_build rk value []
                | None => []
                end) base []).
  - unfold keys. simpl. rewrite map_map. reflexivity.
  - simpl. now apply unique_keys_NoDup.
Qed.

(** X3. [compute_difference] gives every simulated variable an entry, in the
    order of the simulated table, also a variable the reference does not
    have; and the entry of a variable has a season exactly when both tables
    have that season for the variable, also when no region of it matches. *)
Theorem compute_difference_variables_and_seasons
        (reference base : table float) :
  unique_keys3 base = true ->
  exists difference,
    compute_difference reference base = Ok difference /\
    keys difference = keys base /\
    forall k s,
      lookup2 difference k s <> None <->
      lookup2 base k s <> None /\ lookup2 reference k s <> None.
Proof.
  intros Hu. exists (difference_of reference base).
  split; [apply compute_difference_closed|]. split.
  - apply difference_of_keys. now apply unique_keys3_outer.
  - intros k s. now apply difference_of_lookup2.
Qed.

Lemma compute_difference_variables_and_seasons_witness :
  exists difference,
    compute_difference sample_reference toa_base = Ok difference /\
    keys difference = keys toa_base /\
    forall k s,
      lookup2 difference k s <> None <->
      lookup2 toa_base k s <> None /\ lookup2 sample_reference k s <> None.
Proof.
  apply (compute_difference_variables_and_seasons sample_reference toa_base).
  reflexivity.
Defined.

Lemma load_reference_scalar_entry
      (ref : dict (dict obs)) (reference : table float)
      (t : string) (entry : dict obs) (x : float) :
  load_reference ref = Ok reference ->
  dict_get ref t = Some entry ->
  dict_get entry "obs" = Some (ObsScalar x) ->
  dict_get reference t = Some [("ALL", [("Global", x)])].
Proof.
  unfold load_reference. intros H Ht Hobs. apply set_loop_ok in H.
  destruct H as [H1 _]. destruct (H1 t) as (reft & E & Hget).
  { apply dict_get_In_keys. congruence. }
  unfold reference_of_variable, getitem in E.
  rewrite Ht in E. cbn [bind] in E. rewrite Hobs in E. cbn [bind] in E.
  injection E as <-. exact Hget.
Qed.

(** X4. [load_reference] followed by [compute_difference]: a variable whose
    observation is a single number gets a bias for season ALL and region
    Global only, the simulated value there minus the number; its other
    seasons and regions have no bias. *)
Theorem scalar_observation_bias
        (ref : dict (dict obs)) (reference base : table float)
        (t : string) (entry : dict obs) (x : float) :
  load_reference ref = Ok reference ->
  dict_get ref t = Some entry ->
  dict_get entry "obs" = Some (ObsScalar x) ->
  unique_keys3 base = true ->
  exists difference,
    compute_difference reference base = Ok difference /\
    forall s r,
      lookup3 difference t s r
      = if String.eqb s "ALL" && String.eqb r "Global"
        then match lookup3 base t "ALL" "Global" with
             | Some b => Some (fsub b x)
             | None => None
             end
        else None.
Proof.
  intros Hload Ht Hobs Hu. exists (difference_of reference base).
  split; [apply compute_difference_closed|].
  intros s r. rewrite difference_of_lookup3 by assumption.
  pose proof (load_reference_scalar_entry ref reference t entry x
                                          Hload Ht Hobs) as He.
  assert (lookup3 reference t s r
          = if String.eqb s "ALL" && String.eqb r "Global"
            then Some x else None) as Hr.
  { unfold lookup3. rewrite He. cbn [dict_get].
    rewrite (String.eqb_sym s "ALL"), (String.eqb_sym r "Global").
    destruct (String.eqb "ALL" s); cbn [andb]; [|reflexivity].
    cbn [dict_get]. destruct (String.eqb "Global" r); reflexivity. }
  rewrite Hr.
  destruct (String.eqb s "ALL") eqn:Es; simpl.
  - apply String.eqb_eq in Es. subst s.
    destruct (String.eqb r "Global") eqn:Er.
    + apply String.eqb_eq in Er. subst r.
      destruct (lookup3 base t "ALL" "Global"); reflexivity.
    + now destruct (lookup3 base t "ALL" r).
  - now destruct (lookup3 base t s r).
Qed.

Lemma scalar_observation_bias_witness :
  exists difference,
    compute_difference [("tas", [("ALL", [("Global", Fin 14)])]);
                        ("net_toa", [("ALL", [("Global", Fin (7 # 10))])])]
                       toa_base
    = Ok difference /\
    forall s r,
      lookup3 difference "net_toa" s r
      = if String.eqb s "ALL" && String.eqb r "Global"
        then match lookup3 toa_base "net_toa" "ALL" "Global" with
             | Some b => Some (fsub b (Fin (7 # 10)))
             | None => None
             end
        else None.
Proof.
  apply (scalar_observation_bias
           sample_ref _ toa_base "net_toa"
           [("obs", ObsScalar (Fin (7 # 10)))] (Fin (7 # 10)));
    reflexivity.
Defined.

(* ------------------------------------------------------------------ *)
(** ** More on the bounds and the constraints *)

Lemma bounds_of_components (k : float) (l : dict float) (dm vs : dict float) :
  bounds_of k l (dm, vs)
  = (fold_left (fun acc (kv : string * float) =>
                  dict_set acc (fst kv) (fmul (snd kv) k)) l dm,
     fold_left (fun acc (kv : string * float) =>
                  dict_set acc (fst kv) (snd kv)) l vs).
Proof.
  unfold bounds_of. revert dm vs.
  induction l as [|[p v] l IH]; intros dm vs; simpl; [reflexivity|].
  apply IH.
Qed.

(** X5. For a parameter file with distinct names and a numeric [inc], the
    loop over the parameters rebuilds the parameter file as [values], entry
    for entry and in order, and [diffmax] has the same names in the same
    order, each with its value times [inc]. *)
Theorem bounds_rebuilds_parameter_file
        (pars : dict float) (inc : pyval) (k : float) :
  unique_keys pars = true ->
  number_of inc = Ok k ->
  bounds (fst (load_params pars)) (snd (load_params pars)) inc
  = Ok (map (fun kv : string * float => (fst kv, fmul (snd kv) k)) pars, pars).
Proof.
  intros Hu Hk. rewrite (bounds_closed inc k pars Hk), bounds_of_components.
  apply unique_keys_NoDup in Hu.
  rewrite (fold_set_fresh (fun _ v => fmul v k) pars []) by exact Hu.
  rewrite (fold_set_fresh (fun _ v => v) pars []) by exact Hu.
  simpl. do 2 f_equal.
  rewrite <- (map_id pars) at 2. apply map_ext. now intros [p v].
Qed.

Lemma bounds_rebuilds_parameter_file_witness :
  bounds (fst (load_params sample_pars)) (snd (load_params sample_pars))
         (PInt 2)
  = Ok (map (fun kv : string * float => (fst kv, fmul (snd kv) (Fin (inject_Z 2))))
            sample_pars, sample_pars).
Proof.
  apply (bounds_rebuilds_parameter_file sample_pars (PInt 2) (Fin (inject_Z 2)));
    reflexivity.
Defined.



(* ------------------------------------------------------------------ *)
(** ** print_change *)

Lemma foldM_raise_in {A S} (f : S -> A -> result S) (l : list A) (a : A) (s : S) :
  In a l -> (forall s, exists e, f s a = Raise e) ->
  exists e, foldM f l s = Raise e.
Proof.
  intros Hin Hr. revert s. induction l as [|b l IH]; intros s; [destruct Hin|].
  simpl. destruct (f s b) as [s'|e] eqn:E; simpl; [|eauto].
  destruct Hin as [->|Hin]; [|now apply IH].
  destruct (Hr s) as [e He]. congruence.
Qed.

Section PrintChange.

Variable difference : table float.
Variable sensitivity : sens_table.
Variable params : list string.
Variable changes : list float.

(** The lines one flux adds to the log. *)
Lemma print_change_regions (f : string) (df : dict (dict float))
      (da : dict float) (ks : list string)
      (lines0 lines : list (string * string * float)) :
  dict_get difference f = Some df ->
  dict_get df "ALL" = Some da ->
  foldM (fun lines region =>
           df <- getitem difference f ;;
           da <- getitem df "ALL" ;;
           d <- getitem da region ;;
           if negb (isnan d) then
             fc <- flux_change changes params sensitivity f "ALL" region ;;
             Ok (lines ++ [(f, region, fadd d fc)])%list
           else Ok lines)
        ks lines0 = Ok lines ->
  forall x,
    In x lines <->
    In x lines0 \/
    exists r d fc,
      In r ks /\ dict_get da r = Some d /\ isnan d = false /\
      flux_change changes params sensitivity f "ALL" r = Ok fc /\
      x = (f, r, fadd d fc).
Proof.
  intros Hdf Hda. revert lines0.
  induction ks as [|k ks IH]; intros lines0 H x; simpl in H.
  - injection H as <-. split; [tauto|].
    intros [Hx|(r & d & fc & [] & _)]. exact Hx.
  - unfold getitem at 1 2 3 in H. rewrite Hdf in H. simpl in H.
    rewrite Hda in H. simpl in H.
    destruct (dict_get da k) as [d|] eqn:Ed; simpl in H; [|discriminate H].
    destruct (isnan d) eqn:En; simpl in H.
    + rewrite (IH _ H x). split.
      * intros [Hx|(r & d' & fc & Hr & Hrest)]; [now left|].
        right. exists r, d', fc. split; [now right|assumption].
      * intros [Hx|(r & d' & fc & [->|Hr] & Hd' & Hn' & Hrest)]; [now left| |].
        -- congruence.
        -- right. exists r, d', fc. auto.
    + destruct (flux_change changes params sensitivity f "ALL" k) as [fc|e] eqn:Ef;
        simpl in H; [|discriminate H].
      rewrite (IH _ H x). rewrite in_app_iff. simpl. split.
      * intros [[Hx|[<-|[]]]|(r & d' & fc' & Hr & Hrest)].
        -- now left.
        -- right. exists k, d, fc. split; [now left|auto].
        -- right. exists r, d', fc'. split; [now right|assumption].
      * intros [Hx|(r & d' & fc' & [->|Hr] & Hd' & Hn' & Hf' & ->)].
        -- left. now left.
        -- left. right. left. congruence.
        -- right. exists r, d', fc'. auto.
Qed.

Lemma print_change_lines (targets : list string)
      (lines0 lines : list (string * string * float)) :
  foldM (fun lines fluxname =>
           df <- getitem difference fluxname ;;
           da <- getitem df "ALL" ;;
           foldM (fun lines region =>
                    df <- getitem difference fluxname ;;
                    da <- getitem df "ALL" ;;
                    d <- getitem da region ;;
                    if negb (isnan d) then
                      fc <- flux_change changes params sensitivity
                                        fluxname "ALL" region ;;
                      Ok (lines ++ [(fluxname, region, fadd d fc)])%list
                    else Ok lines)
                 (keys da) lines)
        targets lines0 = Ok lines ->
  forall x,
    In x lines <->
    In x lines0 \/
    exists f r d fc,
      In f targets /\ lookup3 difference f "ALL" r = Some d /\
      isnan d = false /\
      flux_change changes params sensitivity f "ALL" r = Ok fc /\
      x = (f, r, fadd d fc).
Proof.
  revert lines0. induction targets as [|t targets IH]; intros lines0 H x;
    simpl in H.
  - injection H as <-. split; [tauto|].
    intros [Hx|(f & r & d & fc & [] & _)]. exact Hx.
  - unfold getitem at 1 2 in H.
    destruct (dict_get difference t) as [df|] eqn:Edf; simpl in H;
      [|discriminate H].
    destruct (dict_get df "ALL") as [da|] eqn:Eda; simpl in H;
      [|discriminate H].
    match type of H with
    | bind ?m _ = _ => destruct m as [lines1|e] eqn:E1; simpl in H;
                       [|discriminate H]
    end.
    rewrite (IH _ H x).
    rewrite (print_change_regions t df da (keys da) lines0 lines1 Edf Eda E1 x).
    split.
    + intros [[Hx|(r & d & fc & Hr & Hd & Hn & Hf & ->)]
             |(f & r & d & fc & Hf & Hrest)].
      * now left.
      * right. exists t, r, d, fc. split; [now left|].
        unfold lookup3. rewrite Edf, Eda. auto.
      * right. exists f, r, d, fc. split; [now right|assumption].
    + intros [Hx|(f & r & d & fc & [->|Hf] & Hl & Hn & Hfc & ->)].
      * left. now left.
      * left. right. unfold lookup3 in Hl. rewrite Edf, Eda in Hl.
        exists r, d, fc. split; [|auto].
        apply dict_get_In_keys. congruence.
      * right. exists f, r, d, fc. auto.
Qed.

End PrintChange.

(** X7. What [print_change] logs: a line (flux, region, value) is logged
    exactly for the fluxes of [targets] and the regions of their season ALL
    whose bias is not nan, and the value is the bias plus the flux change of
    the triple; the other seasons are not logged. *)
Theorem print_change_logs_season_ALL
        (targets : list string) (difference : table float)
        (sensitivity : sens_table) (params : list string)
        (changes : list float) (lines : list (string * string * float)) :
  print_change targets difference sensitivity params changes = Ok lines ->
  forall f r v,
    In (f, r, v) lines <->
    exists d fc,
      In f targets /\ lookup3 difference f "ALL" r = Some d /\
      isnan d = false /\
      flux_change changes params sensitivity f "ALL" r = Ok fc /\
      v = fadd d fc.
Proof.
  intros H f r v. unfold print_change in H.
  rewrite (print_change_lines _ _ _ _ _ _ _ H (f, r, v)). split.
  - intros [[]|(f' & r' & d & fc & Hf & Hl & Hn & Hfc & E)].
    injection E as -> -> ->. exists d, fc. auto.
  - intros (d & fc & Hf & Hl & Hn & Hfc & ->).
    right. exists f, r, d, fc. auto.
Qed.

Lemma print_change_logs_season_ALL_witness :
  In ("tas", "Global", Fin (1 # 2)) [("tas", "Global", Fin (1 # 2))] <->
  exists d fc,
    In "tas" (keys (weights sample_config)) /\
    lookup3 sample_difference "tas" "ALL" "Global" = Some d /\
    isnan d = false /\
    flux_change [Fin 0] sample_params sample_sensitivity "tas" "ALL" "Global"
    = Ok fc /\
    Fin (1 # 2) = fadd d fc.
Proof.
  apply (print_change_logs_season_ALL
           (keys (weights sample_config)) sample_difference
           sample_sensitivity sample_params [Fin 0]
           [("tas", "Global", Fin (1 # 2))]).
  reflexivity.
Defined.

(** X8. Before the optimization, at the all-zero change vector, the value
    logged for a flux and a region is the current bias: with real
    coefficients for the triple, a real bias is logged unchanged. *)
Theorem print_change_initial_is_bias
        (targets : list string) (difference : table float)
        (sensitivity : sens_table) (params : list string)
        (lines : list (string * string * float))
        (f r : string) (v : float) :
  print_change targets difference sensitivity params
               (zeros (List.length params)) = Ok lines ->
  In (f, r, v) lines ->
  real_coefficients (zeros (List.length params)) params sensitivity f "ALL" r ->
  exists d,
    lookup3 difference f "ALL" r = Some d /\
    forall b, d = Fin b -> exists q, v = Fin q /\ q == b.
Proof.
  intros H Hin Hreal. unfold print_change in H.
  apply (print_change_lines _ _ _ _ _ _ _ H (f, r, v)) in Hin.
  destruct Hin as [[]|(f' & r' & d & fc & Hf & Hl & Hn & Hfc & E)].
  injection E as <- <- ->. exists d. split; [assumption|].
  intros b ->.
  destruct (flux_change_real _ _ _ f "ALL" r Hreal) as (z & Ez & Hz).
  rewrite Ez in Hfc. injection Hfc as <-.
  exists (b + z). split; [reflexivity|].
  rewrite (Hz (nth_error_zeros (List.length params))). ring.
Qed.

Lemma print_change_initial_is_bias_witness :
  exists d,
    lookup3 sample_difference "tas" "ALL" "Global" = Some d /\
    forall b, d = Fin b -> exists q, Fin (1 # 2) = Fin q /\ q == b.
Proof.
  apply (print_change_initial_is_bias
           (keys (weights sample_config)) sample_difference
           sample_sensitivity sample_params
           [("tas", "Global", Fin (1 # 2))] "tas" "Global" (Fin (1 # 2))).
  - reflexivity.
  - now left.
  - constructor; [|constructor].
    exists (- (10)), 0. split; reflexivity.
Defined.

Lemma season_ALL_table_set (difference : table float)
      (f s r f' : string) (b : float) :
  s <> "ALL" ->
  (df <- getitem (table_set difference f s r b) f' ;; getitem df "ALL")
  = (df <- getitem difference f' ;; getitem df "ALL").
Proof.
  intros Hs. unfold table_set, getitem. rewrite dict_get_set.
  destruct (String.eqb f f') eqn:E; [|reflexivity].
  apply String.eqb_eq in E. subst f'. cbn [bind].
  rewrite dict_get_set_other by assumption.
  unfold get_default. destruct (dict_get difference f); reflexivity.
Qed.

Lemma bind_bind {A B C} (m : result A) (f : A -> result B) (g : B -> result C) :
  (y <- (x <- m ;; f x) ;; g y) = (x <- m ;; y <- f x ;; g y).
Proof. destruct m; reflexivity. Qed.

(** X9. The log does not depend on the biases of the seasons other than
    ALL: entering a bias for another season into the bias table leaves the
    result of [print_change] as it was, whereas [objective_function] counts
    every season. *)
Theorem print_change_ignores_other_seasons
        (targets : list string) (difference : table float)
        (sensitivity : sens_table) (params : list string)
        (changes : list float) (f s r : string) (b : float) :
  s <> "ALL" ->
  print_change targets (table_set difference f s r b) sensitivity params changes
  = print_change targets difference sensitivity params changes.
Proof.
  intros Hs. unfold print_change. apply foldM_ext_in. intros t lines _.
  rewrite <- !bind_bind.
  rewrite (season_ALL_table_set difference f s r t b Hs).
  destruct (df <- getitem difference t ;; getitem df "ALL") as [da|e];
    [|reflexivity].
  cbn [bind]. apply foldM_ext_in. intros region lines' _.
  rewrite <- !bind_bind.
  now rewrite (season_ALL_table_set difference f s r t b Hs).
Qed.

Lemma print_change_ignores_other_seasons_witness :
  print_change (keys (weights sample_config))
               (table_set sample_difference "tas" "DJF" "Global" (Fin 3))
               sample_sensitivity sample_params [Fin 0]
  = print_change (keys (weights sample_config)) sample_difference
                 sample_sensitivity sample_params [Fin 0].
Proof.
  apply print_change_ignores_other_seasons. discriminate.
Defined.

(** X10. Every flux that has a weight must have the season ALL both in the
    simulated table and in the reference table: when one of them lacks it,
    the main program raises before it calls the minimizer, whereas
    [objective_function] would skip the flux. *)
Theorem weighted_flux_needs_season_ALL
        (cfg : config) (inc : pyval) (sensitivity : sens_table)
        (reference base : table float) (pars : dict float) (f : string) :
  unique_keys3 base = true ->
  In f (keys (weights cfg)) ->
  lookup2 base f "ALL" = None \/ lookup2 reference f "ALL" = None ->
  exists e,
    before_optimization cfg inc sensitivity reference base pars = Raise e.
Proof.
  intros Hu Hf Hmiss. unfold before_optimization, load_params.
  rewrite compute_difference_closed. cbn [bind].
  destruct (bounds (map fst pars) (map snd pars) inc) as [[dm vs]|e];
    [|eexists; reflexivity].
  cbn [bind].
  assert (lookup2 (difference_of reference base) f "ALL" = None) as Hnone.
  { destruct (lookup2 (difference_of reference base) f "ALL") eqn:E;
      [|reflexivity].
    assert (lookup2 (difference_of reference base) f "ALL" <> None) as Hc
        by congruence.
    apply difference_of_lookup2 in Hc; [|assumption].
    destruct Hc as [H1 H2]. destruct Hmiss; contradiction. }
  destruct (foldM_raise_in
              (fun lines fluxname =>
                 df <- getitem (difference_of reference base) fluxname ;;
                 da <- getitem df "ALL" ;;
                 foldM (fun lines region =>
                          df <- getitem (difference_of reference base) fluxname ;;
                          da <- getitem df "ALL" ;;
                          d <- getitem da region ;;
                          if negb (isnan d) then
                            fc <- flux_change (zeros (List.length (map fst pars)))
                                              (map fst pars) sensitivity
                                              fluxname "ALL" region ;;
                            Ok (lines ++ [(fluxname, region, fadd d fc)])%list
                          else Ok lines)
                       (keys da) lines)
              (keys (weights cfg)) f [] Hf) as [e He].
  - intros lines. unfold lookup2 in Hnone. unfold getitem.
    destruct (dict_get (difference_of reference base) f) as [df|]; simpl.
    + rewrite Hnone. simpl. eexists. reflexivity.
    + eexists. reflexivity.
  - exists e. unfold print_change. rewrite He. reflexivity.
Qed.

Lemma weighted_flux_needs_season_ALL_witness :
  exists e,
    before_optimization sample_config (PFloat (Fin (1 # 10)))
                        sample_sensitivity sample_reference toa_base sample_pars
    = Raise e.
Proof.
  apply (weighted_flux_needs_season_ALL
           sample_config (PFloat (Fin (1 # 10))) sample_sensitivity
           sample_reference toa_base sample_pars "tas").
  - reflexivity.
  - now left.
  - now left.
Defined.

(* ------------------------------------------------------------------ *)
(** ** More on the command line *)

Lemma get_arg_value (args : dict pyval) (arg : string) (default v r : pyval) :
  dict_get args arg = Some v ->
  get_arg args arg default = Ok r ->
  r = if truthy v then v else default.
Proof.
  unfold get_arg, getattr. intros ->. simpl. intros [= <-].
  now destruct (truthy v).
Qed.

Lemma get_arg_present (args : dict pyval) (arg : string) (default : pyval) :
  dict_get args arg <> None ->
  exists r, get_arg args arg default = Ok r.
Proof.
  unfold get_arg, getattr. destruct (dict_get args arg); [|congruence].
  simpl. eauto.
Qed.

Lemma or_config_truthy (cfg : config) (name : string) (v : pyval) :
  truthy v = true -> or_config cfg name v = Ok v.
Proof. unfold or_config. now intros ->. Qed.

Lemma or_config_raise (cfg : config) (name : string) (v : pyval) (e : exn) :
  or_config cfg name v = Raise e -> e = KeyError.
Proof.
  unfold or_config, getitem. destruct (negb (truthy v)); [|discriminate].
  destruct (dict_get (cfg_args cfg) name); congruence.
Qed.

Lemma resolve_args_inv (load_config : pyval -> config) (args : dict pyval)
      (st : settings) (cfg : config) :
  resolve_args load_config args = Ok (st, cfg) ->
  exists y1 y2 pe ic,
    get_arg args "config" (PStr "config-tuner.yaml") = Ok (config_file st) /\
    get_arg args "year1" PNone = Ok y1 /\
    get_arg args "year2" PNone = Ok y2 /\
    get_arg args "exp" PNone = Ok (exp st) /\
    get_arg args "loglevel" (PStr "INFO") = Ok (loglevel st) /\
    get_arg args "maxiter" (PInt 10000) = Ok (maxiter st) /\
    get_arg args "penalty" PNone = Ok pe /\
    get_arg args "inc" PNone = Ok ic /\
    get_arg args "output" PNone = Ok (out st) /\
    truthy (exp st) = true /\
    cfg = load_config (config_file st) /\
    or_config cfg "year1" y1 = Ok (year1 st) /\
    or_config cfg "year2" y2 = Ok (year2 st) /\
    or_config cfg "penalty" pe = Ok (penalty_arg st) /\
    or_config cfg "inc" ic = Ok (inc_arg st).
Proof.
  intros H. unfold resolve_args in H.
  do 9 step_bind H.
  destruct (truthy a2) eqn:Et; simpl in H; [|discriminate H].
  do 4 step_bind H.
  injection H as <- <-. simpl.
  exists a0, a1, a5, a6. repeat split; assumption.
Qed.

(** X11. A truthy value given on the command line is the setting, for every
    option; the configuration file and the defaults are used for falsy
    values only. *)
Theorem command_line_value_wins
        (load_config : pyval -> config) (args : dict pyval)
        (st : settings) (cfg : config) :
  resolve_args load_config args = Ok (st, cfg) ->
  forall v, truthy v = true ->
    (dict_get args "config" = Some v -> config_file st = v) /\
    (dict_get args "year1" = Some v -> year1 st = v) /\
    (dict_get args "year2" = Some v -> year2 st = v) /\
    (dict_get args "exp" = Some v -> exp st = v) /\
    (dict_get args "loglevel" = Some v -> loglevel st = v) /\
    (dict_get args "maxiter" = Some v -> maxiter st = v) /\
    (dict_get args "penalty" = Some v -> penalty_arg st = v) /\
    (dict_get args "inc" = Some v -> inc_arg st = v) /\
    (dict_get args "output" = Some v -> out st = v).
Proof.
  intros H v Hv.
  destruct (resolve_args_inv _ _ _ _ H)
    as (y1 & y2 & pe & ic & G1 & G2 & G3 & G4 & G5 & G6 & G7 & G8 & G9
        & _ & _ & O1 & O2 & O3 & O4).
  repeat split; intros Ha.
  - pose proof (get_arg_value _ _ _ _ _ Ha G1) as E. now rewrite Hv in E.
  - pose proof (get_arg_value _ _ _ _ _ Ha G2) as E. rewrite Hv in E. subst y1.
    rewrite (or_config_truthy _ _ _ Hv) in O1. congruence.
  - pose proof (get_arg_value _ _ _ _ _ Ha G3) as E. rewrite Hv in E. subst y2.
    rewrite (or_config_truthy _ _ _ Hv) in O2. congruence.
  - pose proof (get_arg_value _ _ _ _ _ Ha G4) as E. now rewrite Hv in E.
  - pose proof (get_arg_value _ _ _ _ _ Ha G5) as E. now rewrite Hv in E.
  - pose proof (get_arg_value _ _ _ _ _ Ha G6) as E. now rewrite Hv in E.
  - pose proof (get_arg_value _ _ _ _ _ Ha G7) as E. rewrite Hv in E. subst pe.
    rewrite (or_config_truthy _ _ _ Hv) in O3. congruence.
  - pose proof (get_arg_value _ _ _ _ _ Ha G8) as E. rewrite Hv in E. subst ic.
    rewrite (or_config_truthy _ _ _ Hv) in O4. congruence.
  - pose proof (get_arg_value _ _ _ _ _ Ha G9) as E. now rewrite Hv in E.
Qed.

Lemma command_line_value_wins_witness :
  maxiter full_settings = PInt 50 /\
  penalty_arg full_settings = PFloat (Fin (1 # 2)).
Proof.
  assert (resolve_args (fun _ => sample_config) full_args
          = Ok (full_settings, sample_config)) as E by reflexivity.
  split.
  - apply (command_line_value_wins _ _ _ _ E (PInt 50) eq_refl). reflexivity.
  - apply (command_line_value_wins _ _ _ _ E (PFloat (Fin (1 # 2))) eq_refl).
    reflexivity.
Defined.

(** X12. Only [year1], [year2], [penalty] and [inc] can come from the
    configuration file: the configuration file name, the experiment, the log
    level, the output file and [maxiter] are the same whatever the
    configuration is; a [maxiter] in the configuration is not read. *)
Theorem settings_not_from_configuration
        (load_config load_config' : pyval -> config) (args : dict pyval)
        (st st' : settings) (cfg cfg' : config) :
  resolve_args load_config args = Ok (st, cfg) ->
  resolve_args load_config' args = Ok (st', cfg') ->
  config_file st = config_file st' /\
  exp st = exp st' /\
  loglevel st = loglevel st' /\
  maxiter st = maxiter st' /\
  out st = out st'.
Proof.
  intros H H'.
  destruct (resolve_args_inv _ _ _ _ H)
    as (y1 & y2 & pe & ic & G1 & _ & _ & G4 & G5 & G6 & _ & _ & G9 & _).
  destruct (resolve_args_inv _ _ _ _ H')
    as (y1' & y2' & pe' & ic' & G1' & _ & _ & G4' & G5' & G6' & _ & _ & G9' & _).
  repeat split; congruence.
Qed.

Lemma settings_not_from_configuration_witness :
  resolve_args (fun _ => other_config) sample_args
  = Ok (other_settings, other_config) /\
  maxiter sample_settings = maxiter other_settings /\
  penalty_arg sample_settings <> penalty_arg other_settings.
Proof.
  assert (resolve_args (fun _ => sample_config) sample_args
          = Ok (sample_settings, sample_config)) as E by reflexivity.
  assert (resolve_args (fun _ => other_config) sample_args
          = Ok (other_settings, other_config)) as E' by reflexivity.
  split; [exact E'|]. split; [|discriminate].
  apply (settings_not_from_configuration _ _ _ _ _ _ _ E E').
Defined.

(** X13. When [year1], [year2], [penalty] and [inc] are all given (truthy) on
    the command line, the [args] section of the configuration is not read:
    the settings are the same for every configuration, also for one that has
    no such section. *)
Theorem full_command_line_ignores_configuration
        (load_config load_config' : pyval -> config) (args : dict pyval)
        (st : settings) (cfg : config) (y1 y2 pe ic : pyval) :
  dict_get args "year1" = Some y1 -> truthy y1 = true ->
  dict_get args "year2" = Some y2 -> truthy y2 = true ->
  dict_get args "penalty" = Some pe -> truthy pe = true ->
  dict_get args "inc" = Some ic -> truthy ic = true ->
  resolve_args load_config args = Ok (st, cfg) ->
  resolve_args load_config' args = Ok (st, load_config' (config_file st)).
Proof.
  intros A1 T1 A2 T2 A3 T3 A4 T4 H.
  destruct (resolve_args_inv _ _ _ _ H)
    as (z1 & z2 & z3 & z4 & G1 & G2 & G3 & G4 & G5 & G6 & G7 & G8 & G9
        & Te & _ & O1 & O2 & O3 & O4).
  pose proof (get_arg_value _ _ _ _ _ A1 G2) as E1. rewrite T1 in E1. subst z1.
  pose proof (get_arg_value _ _ _ _ _ A2 G3) as E2. rewrite T2 in E2. subst z2.
  pose proof (get_arg_value _ _ _ _ _ A3 G7) as E3. rewrite T3 in E3. subst z3.
  pose proof (get_arg_value _ _ _ _ _ A4 G8) as E4. rewrite T4 in E4. subst z4.
  rewrite or_config_truthy in O1, O2, O3, O4 by assumption.
  unfold resolve_args.
  rewrite G1, G2, G3, G4, G5, G6, G7, G8, G9. cbn [bind].
  rewrite Te. cbn [negb].
  rewrite !or_config_truthy by assumption. cbn [bind].
  injection O1 as O1. injection O2 as O2. injection O3 as O3. injection O4 as O4.
  destruct st; simpl in *. subst. reflexivity.
Qed.

Lemma full_command_line_ignores_configuration_witness :
  resolve_args (fun _ => empty_config) full_args
  = Ok (full_settings, empty_config).
Proof.
  apply (full_command_line_ignores_configuration
           (fun _ => sample_config) (fun _ => empty_config) full_args
           full_settings sample_config
           (PInt 1990) (PInt 1997) (PFloat (Fin (1 # 2))) (PFloat (Fin (1 # 5))));
    reflexivity.
Defined.

(** X14. Without an experiment (a falsy [exp], as the empty string) the
    program exits, and it does so before the configuration is read. *)
Theorem missing_experiment_exits
        (load_config : pyval -> config) (args : dict pyval) (v : pyval) :
  Forall (fun a => dict_get args a <> None) namespace_attributes ->
  dict_get args "exp" = Some v ->
  truthy v = false ->
  resolve_args load_config args = Raise SystemExit.
Proof.
  intros Hall He Hv. unfold namespace_attributes in Hall.
  repeat match goal with
         | H : Forall _ (_ :: _) |- _ => inversion H; subst; clear H
         end.
  unfold resolve_args.
  rewrite (get_arg_falsy _ _ PNone _ He Hv).
  repeat match goal with
         | H : dict_get args ?a <> None |- context [get_arg args ?a ?d] =>
             let r := fresh "r" in
             let E := fresh "E" in
             destruct (get_arg_present args a d H) as [r E]; rewrite E; clear H
         end.
  reflexivity.
Qed.

Lemma missing_experiment_exits_witness :
  resolve_args (fun _ => sample_config) no_exp_args = Raise SystemExit.
Proof.
  apply (missing_experiment_exits (fun _ => sample_config) no_exp_args (PStr "")).
  - repeat constructor; discriminate.
  - reflexivity.
  - reflexivity.
Defined.

(** X15. A setting that is falsy on the command line must be in the [args]
    section of the configuration: when [year1], [year2], [penalty] or [inc]
    is neither given nor configured, the program raises KeyError. *)
Theorem missing_configuration_key
        (load_config : pyval -> config) (args : dict pyval)
        (ex v : pyval) (name : string) :
  Forall (fun a => dict_get args a <> None) namespace_attributes ->
  dict_get args "exp" = Some ex -> truthy ex = true ->
  In name config_settings ->
  dict_get args name = Some v -> truthy v = false ->
  (forall cf, get_arg args "config" (PStr "config-tuner.yaml") = Ok cf ->
              dict_get (cfg_args (load_config cf)) name = None) ->
  resolve_args load_config args = Raise KeyError.
Proof.
  intros Hall He Te Hname Hv Tv Hcfg. unfold namespace_attributes in Hall.
  repeat match goal with
         | H : Forall _ (_ :: _) |- _ => inversion H; subst; clear H
         end.
  assert (forall cfg w, or_config cfg name (if truthy v then v else PNone) = Ok w ->
                        dict_get (cfg_args cfg) name <> None) as Hor.
  { intros cfg w. rewrite Tv. unfold or_config, getitem. simpl.
    destruct (dict_get (cfg_args cfg) name); congruence. }
  unfold resolve_args.
  destruct (get_arg_present args "config" (PStr "config-tuner.yaml")) as [cf Ecf];
    [assumption|].
  destruct (get_arg_present args "year1" PNone) as [y1 Ey1]; [assumption|].
  destruct (get_arg_present args "year2" PNone) as [y2 Ey2]; [assumption|].
  destruct (get_arg_present args "exp" PNone) as [ex' Eex]; [assumption|].
  destruct (get_arg_present args "loglevel" (PStr "INFO")) as [ll Ell];
    [assumption|].
  destruct (get_arg_present args "maxiter" (PInt 10000)) as [mi Emi];
    [assumption|].
  destruct (get_arg_present args "penalty" PNone) as [pe Epe]; [assumption|].
  destruct (get_arg_present args "inc" PNone) as [ic Eic]; [assumption|].
  destruct (get_arg_present args "output" PNone) as [ou Eou]; [assumption|].
  rewrite Ecf, Ey1, Ey2, Eex, Ell, Emi, Epe, Eic, Eou. cbn [bind].
  pose proof (get_arg_value _ _ _ _ _ He Eex) as Hex. rewrite Te in Hex.
  subst ex'. rewrite Te. cbn [negb].
  specialize (Hcfg cf Ecf).
  destruct (or_config (load_config cf) "year1" y1) as [a1|e1] eqn:O1;
    [|apply or_config_raise in O1; now subst].
  destruct (or_config (load_config cf) "year2" y2) as [a2|e2] eqn:O2;
    [|apply or_config_raise in O2; now subst].
  destruct (or_config (load_config cf) "penalty" pe) as [a3|e3] eqn:O3;
    [|apply or_config_raise in O3; now subst].
  destruct (or_config (load_config cf) "inc" ic) as [a4|e4] eqn:O4;
    [|apply or_config_raise in O4; now subst].
  exfalso. unfold config_settings in Hname.
  destruct Hname as [<-|[<-|[<-|[<-|[]]]]].
  - rewrite (get_arg_value _ _ _ _ _ Hv Ey1) in O1. now apply Hor in O1.
  - rewrite (get_arg_value _ _ _ _ _ Hv Ey2) in O2. now apply Hor in O2.
  - rewrite (get_arg_value _ _ _ _ _ Hv Epe) in O3. now apply Hor in O3.
  - rewrite (get_arg_value _ _ _ _ _ Hv Eic) in O4. now apply Hor in O4.
Qed.

Lemma missing_configuration_key_witness :
  resolve_args (fun _ => empty_config) sample_args = Raise KeyError.
Proof.
  apply (missing_configuration_key
           (fun _ => empty_config) sample_args (PStr "s000") (PFloat (Fin 0))
           "penalty").
  - repeat constructor; discriminate.
  - reflexivity.
  - reflexivity.
  - right. right. now left.
  - reflexivity.
  - reflexivity.
  - reflexivity.
Defined.

(* ------------------------------------------------------------------ *)
(** ** The final table *)

Lemma optimal_changes_loop (rest pre : list string) (xpre xrest : list float)
      (acc : dict float) :
  List.length xpre = List.length pre ->
  (List.length rest <= List.length xrest)%nat ->
  foldM (fun oc i =>
           p <- index (pre ++ rest) i ;;
           xi <- index (xpre ++ xrest) i ;;
           Ok (dict_set oc p xi))
        (seq (List.length pre) (List.length rest)) acc
  = Ok (fold_left (fun acc (kv : string * float) =>
                     dict_set acc (fst kv) (snd kv))
                  (combine rest xrest) acc).
Proof.
  revert pre xpre xrest acc.
  induction rest as [|p rest IH]; intros pre xpre xrest acc Hl Hr; simpl.
  - reflexivity.
  - destruct xrest as [|xi xrest]; simpl in Hr; [lia|].
    unfold index at 1 2. rewrite nth_error_middle. cbn [bind].
    rewrite <- Hl, nth_error_middle. cbn [bind]. simpl.
    specialize (IH (pre ++ [p])%list (xpre ++ [xi])%list xrest
                   (dict_set acc p xi)).
    rewrite <- !app_assoc in IH. simpl in IH.
    rewrite !length_app in IH. simpl in IH.
    rewrite !Nat.add_1_r in IH. rewrite Hl. apply IH; lia.
Qed.

Lemma keys_combine (params : list string) (x : list float) :
  (List.length params <= List.length x)%nat ->
  keys (combine params x) = params.
Proof.
  revert x. induction params as [|p params IH]; intros x H; [reflexivity|].
  destruct x as [|xi x]; simpl in H; [lia|].
  simpl. f_equal. apply IH. lia.
Qed.

Lemma optimal_changes_closed (params : list string) (x : list float) :
  NoDup params ->
  (List.length params <= List.length x)%nat ->
  optimal_changes_of params x = Ok (combine params x).
Proof.
  intros Hn Hl. unfold optimal_changes_of.
  pose proof (optimal_changes_loop params [] [] x [] eq_refl Hl) as E.
  simpl in E. rewrite E. clear E.
  rewrite (fold_set_fresh (fun _ v => v) (combine params x) []).
  - simpl. f_equal. rewrite <- (map_id (combine params x)) at 2.
    apply map_ext. now intros [p v].
  - simpl. now rewrite keys_combine.
Qed.

Lemma dict_get_combine (params : list string) (x : list float)
      (i : nat) (p : string) :
  NoDup params ->
  (List.length params <= List.length x)%nat ->
  nth_error params i = Some p ->
  dict_get (combine params x) p = nth_error x i.
Proof.
  revert x i. induction params as [|q params IH]; intros x i Hn Hl Hp.
  - destruct i; discriminate Hp.
  - destruct x as [|xi x]; simpl in Hl; [lia|].
    inversion Hn as [|? ? Hq Hn']; subst. simpl.
    destruct i as [|i]; simpl in Hp.
    + injection Hp as ->. now rewrite String.eqb_refl.
    + destruct (String.eqb q p) eqn:E.
      * apply String.eqb_eq in E. subst q. exfalso. apply Hq.
        eapply nth_error_In; eauto.
      * cbn [nth_error]. apply IH; auto. lia.
Qed.

Lemma mapM_nth {A B} (f : A -> result B) (l : list A) :
  (forall a, In a l -> exists b, f a = Ok b) ->
  exists bs,
    mapM f l = Ok bs /\
    forall i a, nth_error l i = Some a ->
                exists b, nth_error bs i = Some b /\ f a = Ok b.
Proof.
  induction l as [|a l IH]; intros H; simpl.
  - exists []. split; [reflexivity|]. intros [|i] a' Hn; discriminate Hn.
  - destruct (H a) as [b Eb]; [now left|].
    destruct IH as (bs & E & Hbs); [intros; apply H; now right|].
    exists (b :: bs). rewrite Eb. simpl. rewrite E. simpl.
    split; [reflexivity|]. intros [|i] a' Hn; simpl in Hn.
    + injection Hn as <-. exists b. auto.
    + apply Hbs. exact Hn.
Qed.

Lemma mapM_length {A B} (f : A -> result B) (l : list A) (bs : list B) :
  mapM f l = Ok bs -> List.length bs = List.length l.
Proof.
  revert bs. induction l as [|a l IH]; intros bs H; simpl in H.
  - now injection H as <-.
  - destruct (f a); simpl in H; [|discriminate H].
    destruct (mapM f l); simpl in H; [|discriminate H].
    injection H as <-. simpl. f_equal. now apply IH.
Qed.

(** X16. The final table has one row per parameter, in the order of the
    parameters: the old value is the current value, the change is the entry
    of the minimizer's result at the position of the parameter, the new
    value is their sum, the relative change their quotient and the maximum
    change the bound of the parameter. *)
Theorem report_rows_in_order
        (params : list string) (x : list float) (values diffmax : dict float) :
  NoDup params ->
  (List.length params <= List.length x)%nat ->
  (forall p, In p params ->
             dict_get values p <> None /\ dict_get diffmax p <> None) ->
  exists rows,
    (oc <- optimal_changes_of params x ;; report values diffmax oc) = Ok rows /\
    List.length rows = List.length params /\
    forall i p,
      nth_error params i = Some p ->
      exists v c m,
        dict_get values p = Some v /\
        nth_error x i = Some c /\
        dict_get diffmax p = Some m /\
        nth_error rows i
        = Some {| row_param := p; new_value := fadd v c; old_value := v;
                  change := c; relative_change := fdiv c v;
                  max_change := m |}.
Proof.
  intros Hn Hl Hp.
  rewrite (optimal_changes_closed params x Hn Hl). cbn [bind].
  unfold report. rewrite (keys_combine params x Hl).
  assert (forall i p, nth_error params i = Some p ->
            exists v c m,
              dict_get values p = Some v /\ nth_error x i = Some c /\
              dict_get diffmax p = Some m /\
              dict_get (combine params x) p = Some c) as Hrow.
  { intros i p Hi.
    destruct (Hp p (nth_error_In _ _ Hi)) as [Hv Hm].
    destruct (dict_get values p) as [v|]; [|congruence].
    destruct (dict_get diffmax p) as [m|]; [|congruence].
    assert (i < List.length x)%nat as Hlt.
    { assert (i < List.length params)%nat
        by (apply nth_error_Some; congruence). lia. }
    destruct (nth_error x i) as [c|] eqn:Ec;
      [|apply nth_error_None in Ec; lia].
    exists v, c, m. repeat split; try reflexivity.
    now rewrite (dict_get_combine params x i p Hn Hl Hi). }
  match goal with
  | |- exists rows, mapM ?f params = Ok rows /\ _ =>
      destruct (mapM_nth f params) as (rows & E & Hrows)
  end.
  { intros p Hin. apply In_nth_error in Hin. destruct Hin as [i Hi].
    destruct (Hrow i p Hi) as (v & c & m & Hv & _ & Hm & Hc).
    unfold getitem. rewrite Hv, Hc, Hm. cbn [bind]. eauto. }
  exists rows. split; [exact E|]. split; [now apply mapM_length in E|].
  intros i p Hi.
  destruct (Hrow i p Hi) as (v & c & m & Hv & Hx & Hm & Hc).
  exists v, c, m. repeat split; try assumption.
  destruct (Hrows i p Hi) as (rw & Hrw & Erw).
  unfold getitem in Erw. rewrite Hv, Hc, Hm in Erw. cbn [bind] in Erw.
  congruence.
Qed.

Lemma report_rows_in_order_witness :
  exists rows,
    (oc <- optimal_changes_of sample_params [Fin (6 # 1000)] ;;
     report sample_pars [("ocean_albedo", Fin (6 # 1000))] oc) = Ok rows /\
    List.length rows = List.length sample_params /\
    forall i p,
      nth_error sample_params i = Some p ->
      exists v c m,
        dict_get sample_pars p = Some v /\
        nth_error [Fin (6 # 1000)] i = Some c /\
        dict_get [("ocean_albedo", Fin (6 # 1000))] p = Some m /\
        nth_error rows i
        = Some {| row_param := p; new_value := fadd v c; old_value := v;
                  change := c; relative_change := fdiv c v;
                  max_change := m |}.
Proof.
  apply (report_rows_in_order
           sample_params [Fin (6 # 1000)] sample_pars
           [("ocean_albedo", Fin (6 # 1000))]).
  - repeat constructor. intros [].
  - simpl. lia.
  - intros p [<-|[]]. split; discriminate.
Defined.

(* ------------------------------------------------------------------ *)
(** ** The output for Script Engine *)

Section ScriptEngineOutput.

Variables values optimal_changes : dict float.

(** The new value of a parameter, as the export computes it. *)
Local Abbreviation new_value_of :=
  (fun p : string =>
     v <- getitem values p ;; c <- getitem optimal_changes p ;; Ok (fadd v c)).

Local Abbreviation group_of parameter_group :=
  (fun pg : string =>
     ps <- getitem parameter_group pg ;;
     foldM (fun (g : dict float) (p : string) =>
              w <- new_value_of p ;; Ok (dict_set g p w)) ps []).

Lemma group_loop_closed (pg : string) (ps : list string) :
  forall (tuning : dict (dict float)) (g : dict float),
    dict_get tuning pg = Some g ->
    group_loop values optimal_changes pg ps tuning
    = (g' <- foldM (fun (g : dict float) (p : string) =>
                      w <- new_value_of p ;; Ok (dict_set g p w)) ps g ;;
       Ok (dict_set tuning pg g')).
Proof.
  unfold group_loop.
  induction ps as [|p ps IH]; intros tuning g Hg; simpl.
  - now rewrite dict_set_get_same.
  - destruct (getitem values p) as [v|e]; [|reflexivity]. cbn [bind].
    destruct (getitem optimal_changes p) as [c|e]; [|reflexivity]. cbn [bind].
    unfold getitem at 1. rewrite Hg. cbn [bind].
    rewrite (IH _ (dict_set g p (fadd v c))) by apply dict_get_set_same.
    destruct (foldM _ ps (dict_set g p (fadd v c))) as [g'|e]; [|reflexivity].
    cbn [bind]. now rewrite dict_set_set.
Qed.

Lemma outdict_closed (parameter_group : dict (list string)) :
  outdict_of parameter_group values optimal_changes
  = (tuning <- foldM (fun (tuning : dict (dict float)) (pg : string) =>
                        g <- group_of parameter_group pg ;;
                        Ok (dict_set tuning pg g))
                     (keys parameter_group) [] ;;
     Ok [("tuning", tuning)]).
Proof.
  unfold outdict_of. f_equal. apply foldM_ext_in. intros pg tuning _.
  cbv zeta. rewrite bind_bind.
  destruct (getitem parameter_group pg) as [ps|e]; [|reflexivity]. cbn [bind].
  rewrite (group_loop_closed pg ps _ []) by apply dict_get_set_same.
  match goal with
  | |- bind ?m _ = _ => destruct m as [g|e]; [|reflexivity]
  end.
  cbn [bind]. now rewrite dict_set_set.
Qed.

Lemma new_value_of_ok (p : string) (w : float) :
  new_value_of p = Ok w <->
  exists v c, dict_get values p = Some v /\
              dict_get optimal_changes p = Some c /\ w = fadd v c.
Proof.
  unfold getitem.
  destruct (dict_get values p) as [v|]; cbn [bind].
  - destruct (dict_get optimal_changes p) as [c|]; cbn [bind]; split.
    + intros [= <-]. eauto.
    + intros (v' & c' & [= <-] & [= <-] & ->). reflexivity.
    + discriminate.
    + intros (v' & c' & _ & Hc & _). discriminate Hc.
  - split; [discriminate|]. intros (v' & c' & Hv & _). discriminate Hv.
Qed.

Lemma group_of_get (parameter_group : dict (list string))
      (pg : string) (g : dict float) (p : string) (w : float) :
  group_of parameter_group pg = Ok g ->
  (dict_get g p = Some w <->
   exists ps v c,
     dict_get parameter_group pg = Some ps /\ In p ps /\
     dict_get values p = Some v /\ dict_get optimal_changes p = Some c /\
     w = fadd v c).
Proof.
  unfold getitem at 1.
  destruct (dict_get parameter_group pg) as [ps|]; cbn [bind]; [|discriminate].
  intros H. apply set_loop_ok in H. destruct H as [H1 H2]. split.
  - intros Hg. destruct (in_dec string_dec p ps) as [Hin|Hnin].
    + destruct (H1 p Hin) as (w' & Ew & Hw).
      assert (w' = w) as -> by congruence.
      apply new_value_of_ok in Ew. destruct Ew as (v & c & Hv & Hc & ->).
      exists ps, v, c. auto.
    + rewrite (H2 p Hnin) in Hg. discriminate Hg.
  - intros (ps' & v & c & [= <-] & Hin & Hv & Hc & ->).
    destruct (H1 p Hin) as (w' & Ew & Hw).
    apply new_value_of_ok in Ew. destruct Ew as (v' & c' & Hv' & Hc' & ->).
    congruence.
Qed.

End ScriptEngineOutput.

Lemma outdict_tuning_get
      (parameter_group : dict (list string))
      (values optimal_changes : dict float) (outdict : table float)
      (pg p : string) (w : float) :
  outdict_of parameter_group values optimal_changes = Ok outdict ->
  (lookup3 outdict "tuning" pg p = Some w <->
   exists ps v c,
     dict_get parameter_group pg = Some ps /\ In p ps /\
     dict_get values p = Some v /\ dict_get optimal_changes p = Some c /\
     w = fadd v c).
Proof.
  rewrite outdict_closed. intros H.
  match type of H with
  | bind ?m _ = _ => destruct m as [tuning|e] eqn:E; [|discriminate H]
  end.
  cbn [bind] in H. injection H as <-.
  apply set_loop_ok in E. destruct E as [H1 H2].
  unfold lookup3. cbn [dict_get]. rewrite String.eqb_refl.
  destruct (in_dec string_dec pg (keys parameter_group)) as [Hin|Hnin].
  - destruct (H1 pg Hin) as (g & Eg & Hg). rewrite Hg.
    now apply group_of_get.
  - rewrite (H2 pg Hnin). cbn [dict_get]. split; [discriminate|].
    intros (ps & v & c & Hps & _). apply dict_get_None_keys in Hnin.
    congruence.
Qed.

(** X17. In the output for Script Engine, the entry of a group and a
    parameter exists exactly when the group of the configuration lists the
    parameter, and it is the current value plus the optimal change; there
    is nothing but the ['tuning'] section. *)
Theorem outdict_entries
        (parameter_group : dict (list string))
        (values optimal_changes : dict float) (outdict : table float) :
  outdict_of parameter_group values optimal_changes = Ok outdict ->
  keys outdict = ["tuning"] /\
  forall pg p w,
    lookup3 outdict "tuning" pg p = Some w <->
    exists ps v c,
      dict_get parameter_group pg = Some ps /\ In p ps /\
      dict_get values p = Some v /\ dict_get optimal_changes p = Some c /\
      w = fadd v c.
Proof.
  intros H. split.
  - unfold outdict_of in H.
    match type of H with
    | bind ?m _ = _ => destruct m as [tuning|e]; [|discriminate H]
    end.
    cbn [bind] in H. now injection H as <-.
  - intros pg p w. now apply outdict_tuning_get.
Qed.

Lemma outdict_entries_witness :
  keys [("tuning", [("oifs", [("ocean_albedo",
                               fadd (Fin (6 # 100)) (Fin (6 # 1000)))])])]
  = ["tuning"] /\
  forall pg p w,
    lookup3 [("tuning", [("oifs", [("ocean_albedo",
                                    fadd (Fin (6 # 100)) (Fin (6 # 1000)))])])]
            "tuning" pg p = Some w <->
    exists ps v c,
      dict_get sample_groups pg = Some ps /\ In p ps /\
      dict_get sample_pars p = Some v /\
      dict_get [("ocean_albedo", Fin (6 # 1000))] p = Some c /\
      w = fadd v c.
Proof.
  apply (outdict_entries sample_groups sample_pars
                         [("ocean_albedo", Fin (6 # 1000))]).
  reflexivity.
Defined.

(** X18. The output is produced exactly when every parameter that a group of
    the configuration lists is a parameter of the run; a group that lists
    another name makes it raise, and the only exception is KeyError. *)
Theorem outdict_succeeds_iff
        (parameter_group : dict (list string))
        (values optimal_changes : dict float) :
  ((exists outdict,
       outdict_of parameter_group values optimal_changes = Ok outdict) <->
   (forall pg ps p,
       dict_get parameter_group pg = Some ps -> In p ps ->
       dict_get values p <> None /\ dict_get optimal_changes p <> None)) /\
  (forall e, outdict_of parameter_group values optimal_changes = Raise e ->
             e = KeyError).
Proof.
  rewrite outdict_closed. split; [split|].
  - intros [outdict H] pg ps p Hps Hp.
    match type of H with
    | bind ?m _ = _ => destruct m as [tuning|e] eqn:E; [|discriminate H]
    end.
    apply set_loop_ok in E. destruct E as [H1 _].
    destruct (H1 pg) as (g & Eg & _).
    { apply dict_get_In_keys. congruence. }
    unfold getitem at 1 in Eg. rewrite Hps in Eg. cbn [bind] in Eg.
    apply set_loop_ok in Eg. destruct Eg as [G1 _].
    destruct (G1 p Hp) as (w & Ew & _).
    apply new_value_of_ok in Ew. destruct Ew as (v & c & Hv & Hc & _).
    split; congruence.
  - intros H.
    match goal with
    | |- exists o, bind ?m _ = _ =>
        assert (exists tuning, m = Ok tuning) as [tuning E]
    end.
    { apply set_loop_total. intros pg Hpg. apply dict_get_In_keys in Hpg.
      destruct (dict_get parameter_group pg) as [ps|] eqn:Eps; [|congruence].
      unfold getitem at 1. rewrite Eps. cbn [bind].
      apply set_loop_total. intros p Hp.
      destruct (H pg ps p Eps Hp) as [Hv Hc]. unfold getitem.
      destruct (dict_get values p); [|congruence].
      destruct (dict_get optimal_changes p); [|congruence].
      cbn [bind]. eauto. }
    rewrite E. cbn [bind]. eauto.
  - intros e H.
    match type of H with
    | bind ?m _ = _ => destruct m as [tuning|e'] eqn:E; [discriminate H|]
    end.
    cbn [bind] in H. injection H as <-.
    apply set_loop_raise in E. destruct E as (pg & _ & E).
    unfold getitem at 1 in E.
    destruct (dict_get parameter_group pg) as [ps|]; cbn [bind] in E;
      [|congruence].
    apply set_loop_raise in E. destruct E as (p & _ & E).
    unfold getitem in E.
    destruct (dict_get values p); cbn [bind] in E; [|congruence].
    destruct (dict_get optimal_changes p); cbn [bind] in E; congruence.
Qed.

Lemma outdict_ok_listed
      (parameter_group : dict (list string))
      (values optimal_changes : dict float) (outdict : table float)
      (pg p : string) (ps : list string) :
  outdict_of parameter_group values optimal_changes = Ok outdict ->
  dict_get parameter_group pg = Some ps -> In p ps ->
  dict_get values p <> None.
Proof.
  intros H Hps Hp.
  assert (exists w, lookup3 outdict "tuning" pg p = Some w) as [w Hw].
  { rewrite outdict_closed in H.
    match type of H with
    | bind ?m _ = _ => destruct m as [tuning|e] eqn:E; [|discriminate H]
    end.
    cbn [bind] in H. injection H as <-.
    apply set_loop_ok in E. destruct E as [H1 _].
    destruct (H1 pg) as (g & Eg & Hg).
    { apply dict_get_In_keys. congruence. }
    unfold lookup3. cbn [dict_get]. rewrite String.eqb_refl, Hg.
    unfold getitem at 1 in Eg. rewrite Hps in Eg. cbn [bind] in Eg.
    apply set_loop_ok in Eg. destruct Eg as [G1 _].
    destruct (G1 p Hp) as (w & _ & Hw). eauto. }
  apply (outdict_tuning_get _ _ _ _ _ _ _ H) in Hw.
  destruct Hw as (ps' & v & c & _ & _ & Hv & _). congruence.
Qed.

(* ------------------------------------------------------------------ *)
(** ** After the minimizer *)

(** X19. With an output file requested, a group of the configuration that
    lists a name that is no parameter of the run makes the main program
    raise after the optimization, before the final table is built: the
    result of the optimization is not reported. *)
Theorem unknown_grouped_parameter_loses_report
        (cfg : config) (penalty : float) (out : pyval)
        (parameter_group : dict (list string)) (sensitivity : sens_table)
        (su : setup) (x : list float)
        (pg p : string) (ps : list string) :
  truthy out = true ->
  dict_get parameter_group pg = Some ps ->
  In p ps ->
  dict_get (su_values su) p = None ->
  exists e,
    after_optimization cfg penalty out parameter_group sensitivity su x
    = Raise e.
Proof.
  intros Hout Hps Hp Hv. unfold after_optimization.
  repeat match goal with
         | |- exists e, bind ?m _ = Raise e =>
             lazymatch m with
             | write_output _ _ _ _ => fail
             | _ => destruct m; cbn [bind]; [|eexists; reflexivity]
             end
         end.
  unfold write_output. rewrite Hout.
  destruct (outdict_of parameter_group (su_values su) a) as [d|e] eqn:E;
    cbn [bind]; [|eexists; reflexivity].
  exfalso. now apply (outdict_ok_listed _ _ _ _ pg p ps E Hps Hp).
Qed.

Lemma unknown_grouped_parameter_loses_report_witness :
  exists e,
    after_optimization sample_config (Fin (1 # 100)) (PStr "out.yaml")
                       [("oifs", ["ocean_albedo"; "rlcrit"])]
                       sample_sensitivity
                       (sample_setup sample_pars
                                     [("ocean_albedo", Fin (6 # 1000))])
                       [Fin (6 # 1000)]
    = Raise e.
Proof.
  apply (unknown_grouped_parameter_loses_report
           sample_config (Fin (1 # 100)) (PStr "out.yaml")
           [("oifs", ["ocean_albedo"; "rlcrit"])] sample_sensitivity
           (sample_setup sample_pars [("ocean_albedo", Fin (6 # 1000))])
           [Fin (6 # 1000)] "oifs" "rlcrit" ["ocean_albedo"; "rlcrit"]).
  - reflexivity.
  - reflexivity.
  - right. now left.
  - reflexivity.
Defined.

(** X20. What is written for Script Engine agrees with the final table: the
    value of a parameter in the output is the new value of the row of that
    parameter. *)
Theorem written_value_is_reported_value
        (cfg : config) (penalty : float) (out : pyval)
        (parameter_group : dict (list string)) (sensitivity : sens_table)
        (su : setup) (x : list float) (o : outcome)
        (d : table float) (pg p : string) (w : float) (rw : row) :
  after_optimization cfg penalty out parameter_group sensitivity su x = Ok o ->
  oc_written o = Some d ->
  lookup3 d "tuning" pg p = Some w ->
  In rw (oc_table o) ->
  row_param rw = p ->
  w = new_value rw.
Proof.
  intros H Hd Hw Hrw Hp. unfold after_optimization in H.
  do 4 step_bind H.
  unfold write_output in H. destruct (truthy out); cbn [bind] in H.
  - destruct (outdict_of parameter_group (su_values su) a) as [d'|e] eqn:Eo;
      cbn [bind] in H; [|discriminate H].
    step_bind H. injection H as <-. simpl in Hd, Hrw. injection Hd as ->.
    apply (outdict_tuning_get _ _ _ _ _ _ _ Eo) in Hw.
    destruct Hw as (ps & v & c & _ & _ & Hv & Hc & ->).
    unfold report in E3.
    destruct (report_rows _ _ _ _ _ rw E3 Hrw) as (v' & c' & Hv' & Hc' & Hn & _).
    rewrite Hp in Hv', Hc'. congruence.
  - step_bind H. injection H as <-. discriminate Hd.
Qed.

Lemma written_value_is_reported_value_witness :
  exists o d rw,
    after_optimization sample_config (Fin (1 # 100)) (PStr "out.yaml")
                       sample_groups sample_sensitivity
                       (sample_setup sample_pars
                                     [("ocean_albedo", Fin (6 # 1000))])
                       [Fin (6 # 1000)]
    = Ok o /\
    oc_written o = Some d /\
    In rw (oc_table o) /\
    lookup3 d "tuning" "oifs" "ocean_albedo" = Some (new_value rw).
Proof.
  destruct (after_optimization
              sample_config (Fin (1 # 100)) (PStr "out.yaml")
              sample_groups sample_sensitivity
              (sample_setup sample_pars [("ocean_albedo", Fin (6 # 1000))])
              [Fin (6 # 1000)]) as [o|e] eqn:E; [|discriminate E].
  vm_compute in E. injection E as <-.
  eexists _, _, _. split; [reflexivity|]. split; [reflexivity|].
  split; [now left|].
  match goal with
  | |- ?l = Some (new_value ?r) =>
      assert (exists w, l = Some w) as [w Hw] by (eexists; reflexivity);
      rewrite Hw; f_equal
  end.
  eapply (written_value_is_reported_value
            sample_config (Fin (1 # 100)) (PStr "out.yaml")
            sample_groups sample_sensitivity
            (sample_setup sample_pars [("ocean_albedo", Fin (6 # 1000))])
            [Fin (6 # 1000)] _ _ "oifs" "ocean_albedo" w).
  - vm_compute. reflexivity.
  - reflexivity.
  - exact Hw.
  - now left.
  - reflexivity.
Defined.

(* ------------------------------------------------------------------ *)
(** ** More on objective_function *)

(** X21. [objective_function] needs a first parameter with a sensitivity
    table: with no parameter at all it raises IndexError, and with a first
    parameter that the sensitivity model does not have it raises KeyError,
    whatever the other data are. *)
Theorem objective_function_needs_first_parameter
        (changes : list float) (params : list string)
        (values reference_pars : dict float) (penalty : float)
        (sensitivity : sens_table) (difference : table float)
        (weights_flux weights_season weights_region : dict float) :
  (params = [] ->
   objective_function changes params values reference_pars penalty
                      sensitivity difference
                      weights_flux weights_season weights_region
   = Raise IndexError) /\
  (forall p0,
      nth_error params 0 = Some p0 -> dict_get sensitivity p0 = None ->
      objective_function changes params values reference_pars penalty
                         sensitivity difference
                         weights_flux weights_season weights_region
      = Raise KeyError).
Proof.
  split.
  - intros ->. reflexivity.
  - intros p0 Hp Hs. unfold objective_function, total_difference, index, getitem.
    rewrite Hp. cbn [bind]. now rewrite Hs.
Qed.

Lemma mapM_ok_in {A B} (f : A -> result B) (l : list A) (bs : list B) (a : A) :
  mapM f l = Ok bs -> In a l -> exists b, f a = Ok b.
Proof.
  revert bs. induction l as [|a' l IH]; intros bs H Hin; [destruct Hin|].
  simpl in H. destruct (f a') as [b|e] eqn:E; cbn [bind] in H; [|discriminate H].
  destruct (mapM f l) as [bs'|e]; cbn [bind] in H; [|discriminate H].
  destruct Hin as [<-|Hin]; eauto.
Qed.

(** X22. A change vector with fewer entries than there are parameters makes
    [objective_function] raise. *)
Theorem objective_function_short_changes
        (changes : list float) (params : list string)
        (values reference_pars : dict float) (penalty : float)
        (sensitivity : sens_table) (difference : table float)
        (weights_flux weights_season weights_region : dict float) :
  (List.length changes < List.length params)%nat ->
  exists e,
    objective_function changes params values reference_pars penalty
                       sensitivity difference
                       weights_flux weights_season weights_region
    = Raise e.
Proof.
  intros Hlen. unfold objective_function.
  destruct (total_difference changes params sensitivity difference
                             weights_flux weights_season weights_region)
    as [t|e]; cbn [bind]; [|eexists; reflexivity].
  unfold param_difference.
  destruct (mapM (param_term changes values reference_pars) (enumerate params))
    as [terms|e] eqn:E; cbn [bind]; [|eexists; reflexivity].
  exfalso.
  destruct (nth_error params (List.length changes)) as [p|] eqn:Ep;
    [|apply nth_error_None in Ep; lia].
  destruct (mapM_ok_in _ _ _ (List.length changes, p) E) as [b Hb].
  { now apply enumerate_nth. }
  unfold param_term in Hb. do 2 step_bind Hb.
  unfold index in Hb.
  destruct (nth_error changes (List.length changes)) eqn:Ec.
  - assert (List.length changes < List.length changes)%nat
      by (apply nth_error_Some; congruence). lia.
  - discriminate Hb.
Qed.

Lemma objective_function_short_changes_witness :
  exists e,
    objective_function [] sample_params sample_pars sample_pars (Fin (1 # 100))
                       sample_sensitivity sample_difference
                       (weights sample_config) (weights_season_of sample_config)
                       (weights_region_of sample_config)
    = Raise e.
Proof.
  apply objective_function_short_changes. simpl. lia.
Defined.

Lemma index_app_l {A} (l extra : list A) (i : nat) :
  (i < List.length l)%nat -> index (l ++ extra) i = index l i.
Proof. intros H. unfold index. now rewrite nth_error_app1. Qed.

Lemma mapM_ext_in {A B} (f g : A -> result B) (l : list A) :
  (forall a, In a l -> f a = g a) -> mapM f l = mapM g l.
Proof.
  induction l as [|a l IH]; intros H; simpl; [reflexivity|].
  rewrite (H a) by now left. rewrite IH; [reflexivity|].
  intros. apply H. now right.
Qed.

Lemma enumerate_lt {A} (l : list A) (i : nat) (a : A) :
  In (i, a) (enumerate l) -> (i < List.length l)%nat.
Proof.
  intros H. apply enumerate_nth in H. apply nth_error_Some. congruence.
Qed.

(** X23. [objective_function] reads one entry of the change vector per
    parameter: entries beyond the number of parameters do not change its
    result. *)
Theorem objective_function_ignores_extra_changes
        (changes extra : list float) (params : list string)
        (values reference_pars : dict float) (penalty : float)
        (sensitivity : sens_table) (difference : table float)
        (weights_flux weights_season weights_region : dict float) :
  (List.length params <= List.length changes)%nat ->
  objective_function (changes ++ extra) params values reference_pars penalty
                     sensitivity difference
                     weights_flux weights_season weights_region
  = objective_function changes params values reference_pars penalty
                       sensitivity difference
                       weights_flux weights_season weights_region.
Proof.
  intros Hlen.
  assert (forall f s r,
             flux_change (changes ++ extra) params sensitivity f s r
             = flux_change changes params sensitivity f s r) as Hfc.
  { intros f s r. unfold flux_change. apply foldM_ext_in.
    intros [i p] acc Hin. apply enumerate_lt in Hin.
    now rewrite index_app_l by lia. }
  assert (param_difference (changes ++ extra) params values reference_pars
          = param_difference changes params values reference_pars) as Hpd.
  { unfold param_difference. f_equal. apply mapM_ext_in.
    intros [i p] Hin. apply enumerate_lt in Hin. unfold param_term.
    now rewrite index_app_l by lia. }
  unfold objective_function. rewrite Hpd.
  match goal with
  | |- bind ?a _ = bind ?b _ => assert (a = b) as ->; [|reflexivity]
  end.
  - unfold total_difference.
    destruct (index params 0) as [p0|]; [|reflexivity]. cbn [bind].
    destruct (getitem sensitivity p0) as [sp|]; [|reflexivity]. cbn [bind].
    apply foldM_ext_in. intros f acc _. unfold flux_step.
    destruct (index params 0) as [q0|]; [|reflexivity]. cbn [bind].
    destruct (getitem sensitivity q0) as [sq|]; [|reflexivity]. cbn [bind].
    destruct (getitem sq f) as [sf|]; [|reflexivity]. cbn [bind].
    apply foldM_ext_in. intros s acc' _. unfold season_step.
    destruct (index params 0) as [q1|]; [|reflexivity]. cbn [bind].
    destruct (getitem sensitivity q1) as [sq1|]; [|reflexivity]. cbn [bind].
    destruct (getitem sq1 f) as [sf1|]; [|reflexivity]. cbn [bind].
    destruct (getitem sf1 s) as [ss|]; [|reflexivity]. cbn [bind].
    apply foldM_ext_in. intros r acc'' _. unfold triple_step.
    now rewrite Hfc.
Qed.

Lemma objective_function_ignores_extra_changes_witness :
  objective_function ([Fin (6 # 1000)] ++ [Fin 7; NaN]) sample_params
                     sample_pars sample_pars (Fin (1 # 100))
                     sample_sensitivity sample_difference
                     (weights sample_config) (weights_season_of sample_config)
                     (weights_region_of sample_config)
  = objective_function [Fin (6 # 1000)] sample_params
                       sample_pars sample_pars (Fin (1 # 100))
                       sample_sensitivity sample_difference
                       (weights sample_config) (weights_season_of sample_config)
                       (weights_region_of sample_config).
Proof.
  apply objective_function_ignores_extra_changes. simpl. lia.
Defined.

Lemma foldM_skip {A S} (f : S -> A -> result S) (l : list A) (s : S) :
  (forall a s, In a l -> f s a = Ok s) -> foldM f l s = Ok s.
Proof.
  induction l as [|a l IH]; intros H; simpl; [reflexivity|].
  rewrite (H a s) by now left. cbn [bind].
  apply IH. intros. apply H. now right.
Qed.

Section Lookups.

Variable changes : list float.
Variable params : list string.
Variables values reference_pars : dict float.
Variable penalty : float.
Variable sensitivity : sens_table.
Variable difference : table float.
Variables weights_flux weights_season weights_region : dict float.

Lemma total_difference_raises (p0 : string) (sp : table (list float))
      (t : string * string * string) :
  nth_error params 0 = Some p0 ->
  dict_get sensitivity p0 = Some sp ->
  In t (triples sp) ->
  (forall acc, exists e,
      step3 changes params sensitivity difference
            weights_flux weights_season weights_region acc t = Raise e) ->
  exists e,
    objective_function changes params values reference_pars penalty
                       sensitivity difference
                       weights_flux weights_season weights_region
    = Raise e.
Proof.
  intros Hp Hs Hin Hstep. unfold objective_function.
  rewrite (total_difference_triples _ _ _ _ _ _ _ p0 sp Hp Hs).
  destruct (foldM_raise_in _ (triples sp) t (Fin 0) Hin Hstep) as [e He].
  rewrite He. eexists. reflexivity.
Qed.

End Lookups.

(** X24. A weight is required for every triple that is visited and has a
    defined bias: when the flux, the region or the season of such a triple
    has no weight, [objective_function] raises; the triple is not skipped. *)
Theorem objective_function_missing_weight
        (changes : list float) (params : list string)
        (values reference_pars : dict float) (penalty : float)
        (sensitivity : sens_table) (difference : table float)
        (weights_flux weights_season weights_region : dict float)
        (p0 : string) (sp : table (list float)) (f s r : string) :
  nth_error params 0 = Some p0 ->
  dict_get sensitivity p0 = Some sp ->
  In (f, s, r) (triples sp) ->
  isnan (bias_or_nan difference f s r) = false ->
  dict_get weights_flux f = None \/ dict_get weights_region r = None \/
  dict_get weights_season s = None ->
  exists e,
    objective_function changes params values reference_pars penalty
                       sensitivity difference
                       weights_flux weights_season weights_region
    = Raise e.
Proof.
  intros Hp Hs Hin Hdef Hw.
  apply (total_difference_raises _ _ _ _ _ _ _ _ _ _ p0 sp (f, s, r) Hp Hs Hin).
  intros acc. unfold step3. rewrite triple_step_bias. cbv zeta.
  rewrite Hdef. cbn [negb].
  destruct (flux_change changes params sensitivity f s r);
    cbn [bind]; [|eexists; reflexivity].
  unfold getitem.
  destruct (dict_get weights_flux f); cbn [bind]; [|eexists; reflexivity].
  destruct (dict_get weights_region r); cbn [bind]; [|eexists; reflexivity].
  destruct (dict_get weights_season s); cbn [bind]; [|eexists; reflexivity].
  destruct Hw as [Hw|[Hw|Hw]]; discriminate Hw.
Qed.

Lemma objective_function_missing_weight_witness :
  exists e,
    objective_function [Fin 0] sample_params sample_pars sample_pars
                       (Fin (1 # 100)) sample_sensitivity sample_difference
                       (weights sample_config) [] (weights_region_of sample_config)
    = Raise e.
Proof.
  apply (objective_function_missing_weight
           [Fin 0] sample_params sample_pars sample_pars (Fin (1 # 100))
           sample_sensitivity sample_difference
           (weights sample_config) [] (weights_region_of sample_config)
           "ocean_albedo" sample_table "tas" "ALL" "Global").
  - reflexivity.
  - reflexivity.
  - now left.
  - reflexivity.
  - right. now right.
Defined.

(** X25. A sensitivity coefficient is required from every parameter for every
    triple that is visited and has a defined bias: when a parameter has no
    entry for such a triple, or an empty one, [objective_function] raises;
    the coefficient does not default to zero. *)
Theorem objective_function_missing_coefficient
        (changes : list float) (params : list string)
        (values reference_pars : dict float) (penalty : float)
        (sensitivity : sens_table) (difference : table float)
        (weights_flux weights_season weights_region : dict float)
        (p0 : string) (sp : table (list float)) (f s r : string)
        (i : nat) (p : string) (e0 : exn) :
  nth_error params 0 = Some p0 ->
  dict_get sensitivity p0 = Some sp ->
  In (f, s, r) (triples sp) ->
  isnan (bias_or_nan difference f s r) = false ->
  nth_error params i = Some p ->
  coefficient sensitivity p f s r = Raise e0 ->
  exists e,
    objective_function changes params values reference_pars penalty
                       sensitivity difference
                       weights_flux weights_season weights_region
    = Raise e.
Proof.
  intros Hp Hs Hin Hdef Hi Hc.
  apply (total_difference_raises _ _ _ _ _ _ _ _ _ _ p0 sp (f, s, r) Hp Hs Hin).
  intros acc. unfold step3. rewrite triple_step_bias. cbv zeta.
  rewrite Hdef. cbn [negb].
  destruct (foldM_raise_in
              (fun acc (ip : nat * string) =>
                 let '(i, param) := ip in
                 c <- coefficient sensitivity param f s r ;;
                 x <- index changes i ;;
                 Ok (fadd acc (fmul c x)))
              (enumerate params) (i, p) (Fin 0)) as [e He].
  - now apply enumerate_nth.
  - intros acc'. rewrite Hc. eexists. reflexivity.
  - unfold flux_change. rewrite He. eexists. reflexivity.
Qed.

Lemma objective_function_missing_coefficient_witness :
  exists e,
    objective_function [Fin 0; Fin 0] ["ocean_albedo"; "rlcrit"]
                       sample_pars sample_pars
                       (Fin (1 # 100)) sample_sensitivity sample_difference
                       (weights sample_config) (weights_season_of sample_config)
                       (weights_region_of sample_config)
    = Raise e.
Proof.
  apply (objective_function_missing_coefficient
           [Fin 0; Fin 0] ["ocean_albedo"; "rlcrit"] sample_pars sample_pars
           (Fin (1 # 100)) sample_sensitivity sample_difference
           (weights sample_config) (weights_season_of sample_config)
           (weights_region_of sample_config)
           "ocean_albedo" sample_table "tas" "ALL" "Global"
           1%nat "rlcrit" KeyError).
  - reflexivity.
  - reflexivity.
  - now left.
  - reflexivity.
  - reflexivity.
  - reflexivity.
Defined.

(** X26. When no triple of the first parameter's table has a defined bias
    (an empty bias table, for one), the flux term is zero and the score is
    the penalty alone; neither weights nor coefficients are read, so none
    can be missing. *)
Theorem objective_function_without_bias
        (changes : list float) (params : list string)
        (values reference_pars : dict float) (penalty : float)
        (sensitivity : sens_table) (difference : table float)
        (weights_flux weights_season weights_region : dict float)
        (p0 : string) (sp : table (list float)) :
  nth_error params 0 = Some p0 ->
  dict_get sensitivity p0 = Some sp ->
  (forall f s r, In (f, s, r) (triples sp) ->
                 isnan (bias_or_nan difference f s r) = true) ->
  total_difference changes params sensitivity difference
                   weights_flux weights_season weights_region
  = Ok (Fin 0) /\
  objective_function changes params values reference_pars penalty
                     sensitivity difference
                     weights_flux weights_season weights_region
  = (p <- param_difference changes params values reference_pars ;;
     Ok (fadd (Fin 0) (fmul p penalty))).
Proof.
  intros Hp Hs Hnan.
  assert (total_difference changes params sensitivity difference
                           weights_flux weights_season weights_region
          = Ok (Fin 0)) as Ht.
  { rewrite (total_difference_triples _ _ _ _ _ _ _ p0 sp Hp Hs).
    apply foldM_skip. intros [[f s] r] acc Hin.
    apply step3_undefined. now apply Hnan. }
  split; [exact Ht|]. unfold objective_function. now rewrite Ht.
Qed.

Lemma objective_function_without_bias_witness :
  total_difference [Fin 0] sample_params sample_sensitivity []
                   [] [] []
  = Ok (Fin 0) /\
  objective_function [Fin 0] sample_params sample_pars sample_pars
                     (Fin (1 # 100)) sample_sensitivity [] [] [] []
  = (p <- param_difference [Fin 0] sample_params sample_pars sample_pars ;;
     Ok (fadd (Fin 0) (fmul p (Fin (1 # 100))))).
Proof.
  apply (objective_function_without_bias
           [Fin 0] sample_params sample_pars sample_pars (Fin (1 # 100))
           sample_sensitivity [] [] [] [] "ocean_albedo" sample_table).
  - reflexivity.
  - reflexivity.
  - intros f s r _. reflexivity.
Defined.

(** X28. On valid model data the score does not decrease when the penalty
    coefficient grows. *)
Theorem objective_function_monotone_in_penalty
        (changes : list float) (params : list string)
        (values reference_pars : dict float) (pen pen' : Q)
        (sensitivity : sens_table) (difference : table float)
        (weights_flux weights_season weights_region : dict float)
        (p0 : string) (sp : table (list float)) :
  nth_error params 0 = Some p0 ->
  dict_get sensitivity p0 = Some sp ->
  Forall (real_triple changes params sensitivity difference
                      weights_flux weights_season weights_region)
         (triples sp) ->
  Forall (valid_param reference_pars values changes) (enumerate params) ->
  pen <= pen' ->
  exists q q',
    objective_function changes params values reference_pars (Fin pen)
                       sensitivity difference
                       weights_flux weights_season weights_region
    = Ok (Fin q) /\
    objective_function changes params values reference_pars (Fin pen')
                       sensitivity difference
                       weights_flux weights_season weights_region
    = Ok (Fin q') /\
    q <= q'.
Proof.
  intros Hp Hs Ht Hv Hpen.
  destruct (steps_real changes params sensitivity difference
                       weights_flux weights_season weights_region
                       (triples sp) 0 Ht) as (t & Et & _ & _).
  destruct (param_difference_valid changes values reference_pars params Hv)
    as (p & Ep & Np & _).
  exists (t + p * pen), (t + p * pen'). unfold objective_function.
  rewrite (total_difference_triples _ _ _ _ _ _ _ p0 sp Hp Hs), Et.
  cbn [bind]. rewrite Ep. cbn [bind].
  split; [reflexivity|]. split; [reflexivity|]. nra.
Qed.

Lemma objective_function_monotone_in_penalty_witness :
  exists q q',
    objective_function [Fin (6 # 1000)] sample_params sample_pars sample_pars
                       (Fin (1 # 100)) sample_sensitivity sample_difference
                       (weights sample_config) (weights_season_of sample_config)
                       (weights_region_of sample_config)
    = Ok (Fin q) /\
    objective_function [Fin (6 # 1000)] sample_params sample_pars sample_pars
                       (Fin 1) sample_sensitivity sample_difference
                       (weights sample_config) (weights_season_of sample_config)
                       (weights_region_of sample_config)
    = Ok (Fin q') /\
    q <= q'.
Proof.
  apply (objective_function_monotone_in_penalty
           [Fin (6 # 1000)] sample_params sample_pars sample_pars (1 # 100) 1
           sample_sensitivity sample_difference
           (weights sample_config) (weights_season_of sample_config)
           (weights_region_of sample_config) "ocean_albedo" sample_table).
  - reflexivity.
  - reflexivity.
  - apply sample_real_triples.
  - apply sample_valid_params.
  - discriminate.
Defined.

(* ------------------------------------------------------------------ *)
(** ** The remaining theorems on the sample data *)

Lemma load_reference_succeeds_iff_witness :
  well_formed_entry [("obs", ObsScalar (Fin (7 # 10)))].
Proof.
  destruct (load_reference_succeeds_iff sample_ref) as [[H _] _].
  apply (H (ex_intro _ _ eq_refl) "net_toa"). reflexivity.
Defined.

Lemma outdict_succeeds_iff_witness :
  dict_get sample_pars "ocean_albedo" <> None /\
  dict_get [("ocean_albedo", Fin (6 # 1000))] "ocean_albedo" <> None.
Proof.
  destruct (outdict_succeeds_iff sample_groups sample_pars
                                 [("ocean_albedo", Fin (6 # 1000))])
    as [[H _] _].
  apply (H (ex_intro _ _ eq_refl) "oifs" ["ocean_albedo"] "ocean_albedo").
  - reflexivity.
  - now left.
Defined.

Lemma objective_function_needs_first_parameter_witness :
  objective_function [] [] sample_pars sample_pars (Fin (1 # 100))
                     sample_sensitivity sample_difference
                     (weights sample_config) (weights_season_of sample_config)
                     (weights_region_of sample_config)
  = Raise IndexError /\
  objective_function [Fin 0] ["rlcrit"] sample_pars sample_pars (Fin (1 # 100))
                     sample_sensitivity sample_difference
                     (weights sample_config) (weights_season_of sample_config)
                     (weights_region_of sample_config)
  = Raise KeyError.
Proof.
  split.
  - now apply objective_function_needs_first_parameter.
  - now apply (proj2 (objective_function_needs_first_parameter
                        [Fin 0] ["rlcrit"] sample_pars sample_pars
                        (Fin (1 # 100)) sample_sensitivity sample_difference
                        (weights sample_config)
                        (weights_season_of sample_config)
                        (weights_region_of sample_config)) "rlcrit").
Defined.

(* ------------------------------------------------------------------ *)
(** ** The score in machine arithmetic *)

(** With the exact operations of [float], the parameterised score is the
    [objective_function] of the sections above. *)
Lemma exact_objective_function
      (changes : list float) (params : list string)
      (values reference_pars : dict float) (penalty : float)
      (sensitivity : sens_table) (difference : table float)
      (weights_flux weights_season weights_region : dict float) :
  Rounded.objective_function float fadd fsub fmul fdiv isnan (Fin 0) NaN
                             changes params values reference_pars penalty
                             sensitivity difference
                             weights_flux weights_season weights_region
  = objective_function changes params values reference_pars penalty
                       sensitivity difference
                       weights_flux weights_season weights_region.
Proof. reflexivity. Qed.

(** A loop whose body returns and keeps an invariant returns and keeps it. *)
Lemma foldM_invariant {A S} (P : S -> Prop) (f : S -> A -> result S)
      (l : list A) (s : S) :
  (forall s a, In a l -> P s -> exists s', f s a = Ok s' /\ P s') ->
  P s ->
  exists s', foldM f l s = Ok s' /\ P s'.
Proof.
  revert s. induction l as [|a l IH]; intros s H Hs; simpl.
  - exists s. split; [reflexivity|assumption].
  - destruct (H s a (or_introl eq_refl) Hs) as (s1 & E & H1).
    rewrite E. simpl. apply IH; [|assumption].
    intros s2 b Hb. apply H. right. assumption.
Qed.

Lemma mapM_invariant {A B} (Inv : B -> Prop) (f : A -> result B) (l : list A) :
  (forall a, In a l -> exists b, f a = Ok b /\ Inv b) ->
  exists bs, mapM f l = Ok bs /\ Forall Inv bs.
Proof.
  induction l as [|a l IH]; intros H; simpl.
  - exists []. split; [reflexivity|constructor].
  - destruct (H a (or_introl eq_refl)) as (b & E & Hb). rewrite E. simpl.
    destruct IH as (bs & Ebs & Hbs).
    + intros a' Ha'. apply H. right. assumption.
    + rewrite Ebs. simpl. exists (b :: bs).
      split; [reflexivity|constructor; assumption].
Qed.

Lemma fold_left_invariant {A} (Inv : A -> Prop) (f : A -> A -> A)
      (l : list A) (a : A) :
  (forall x y, Inv x -> Inv y -> Inv (f x y)) ->
  Forall Inv l -> Inv a -> Inv (fold_left f l a).
Proof.
  intros Hf H. revert a. induction H as [|x l Hx Hl IH]; intros a Ha; simpl.
  - assumption.
  - apply IH. apply Hf; assumption.
Qed.

Section RoundedScore.

Variable F : Type.
Variables add sub mul div : F -> F -> F.
Variable isnan : F -> bool.
Variables zero nan : F.
Hypothesis isnan_nan : isnan nan = true.

Variable Inv : F -> Prop.
Hypothesis Inv_zero : Inv zero.
Hypothesis Inv_add : forall x y, Inv x -> Inv y -> Inv (add x y).

Variable changes : list F.
Variable params : list string.
Variable values : dict F.
Variable reference_pars : dict F.
Variable penalty : F.
Variable sensitivity : dict (table (list F)).
Variable difference : table F.
Variables weights_flux weights_season weights_region : dict F.

Lemma rounded_bias_lookup (f s r : string) :
  isnan (Rounded.bias_or_nan F nan difference f s r) = false ->
  exists df ds d,
    dict_get difference f = Some df /\ dict_get df s = Some ds /\
    dict_get ds r = Some d.
Proof.
  unfold Rounded.bias_or_nan, get_default.
  destruct (dict_get difference f) as [df|] eqn:E1; simpl;
    [|rewrite isnan_nan; discriminate].
  destruct (dict_get df s) as [ds|] eqn:E2; simpl;
    [|rewrite isnan_nan; discriminate].
  destruct (dict_get ds r) as [d|] eqn:E3; simpl;
    [|rewrite isnan_nan; discriminate].
  intros _. exists df, ds, d. auto.
Qed.

Lemma rounded_flux_change_total (f s r : string) :
  Forall (fun ip : nat * string =>
            (exists c, Rounded.coefficient F sensitivity (snd ip) f s r = Ok c) /\
            nth_error changes (fst ip) <> None)
         (enumerate params) ->
  exists fc,
    Rounded.flux_change F add mul zero changes params sensitivity f s r = Ok fc.
Proof.
  intros H. unfold Rounded.flux_change.
  destruct (foldM_invariant (fun _ : F => True)
              (fun acc (ip : nat * string) =>
                 let '(i, param) := ip in
                 c <- Rounded.coefficient F sensitivity param f s r ;;
                 x <- index changes i ;;
                 Ok (add acc (mul c x)))
              (enumerate params) zero) as (fc & E & _).
  - intros acc [i p] Hin _.
    rewrite Forall_forall in H. destruct (H _ Hin) as [[c Ec] Hx].
    simpl in Ec, Hx. rewrite Ec. simpl. unfold index.
    destruct (nth_error changes i) as [x|]; [|congruence].
    simpl. eexists. split; [reflexivity|exact I].
  - exact I.
  - exists fc. exact E.
Qed.

Hypothesis Inv_mul : forall x y, Inv x -> Inv y -> Inv (mul x y).
Hypothesis Inv_square : forall x, Inv (mul x x).

Hypothesis Inv_flux : forall k w, dict_get weights_flux k = Some w -> Inv w.
Hypothesis Inv_region : forall k w, dict_get weights_region k = Some w -> Inv w.
Hypothesis Inv_season : forall k w, dict_get weights_season k = Some w -> Inv w.

Lemma rounded_triple_step (acc : F) (f s r : string) :
  Inv acc ->
  Rounded.present_triple F isnan nan changes params sensitivity difference
                         weights_flux weights_season weights_region (f, s, r) ->
  exists acc',
    Rounded.triple_step F add mul isnan zero nan changes params sensitivity
                        difference weights_flux weights_season weights_region
                        f s acc r = Ok acc' /\
    Inv acc'.
Proof.
  intros Hacc Hp. unfold Rounded.triple_step.
  destruct (isnan (Rounded.bias_or_nan F nan difference f s r)) eqn:En; simpl.
  - exists acc. split; [reflexivity|assumption].
  - destruct Hp as [Hp|(Hf & Hr & Hs & Hc)]; [congruence|].
    destruct (rounded_flux_change_total f s r Hc) as (fc & Efc).
    rewrite Efc. simpl.
    destruct (rounded_bias_lookup f s r En) as (df & ds & d & E1 & E2 & E3).
    unfold getitem.
    destruct (dict_get weights_flux f) as [wf|] eqn:Ef; [|congruence].
    destruct (dict_get weights_region r) as [wr|] eqn:Er; [|congruence].
    destruct (dict_get weights_season s) as [ws|] eqn:Es; [|congruence].
    simpl. rewrite E1. simpl. rewrite E2. simpl. rewrite E3. simpl.
    eexists. split; [reflexivity|].
    apply Inv_add; [assumption|].
    apply Inv_mul; [|apply Inv_square].
    apply Inv_mul; [|eauto]. apply Inv_mul; eauto.
Qed.

Lemma rounded_total_difference (p0 : string) (sp : table (list F)) :
  nth_error params 0 = Some p0 ->
  dict_get sensitivity p0 = Some sp ->
  Forall (Rounded.present_triple F isnan nan changes params sensitivity
                                 difference weights_flux weights_season
                                 weights_region)
         (triples sp) ->
  exists t,
    Rounded.total_difference F add mul isnan zero nan changes params
                             sensitivity difference
                             weights_flux weights_season weights_region
    = Ok t /\ Inv t.
Proof.
  intros Hp Hs Ht. rewrite Forall_forall in Ht.
  unfold Rounded.total_difference, index, getitem.
  rewrite Hp. simpl. rewrite Hs. simpl.
  apply foldM_invariant; [|assumption].
  intros a1 f Hf H1.
  unfold Rounded.flux_step, index, getitem.
  rewrite Hp. simpl. rewrite Hs. simpl.
  destruct (dict_get sp f) as [sf|] eqn:Esf;
    [|apply dict_get_None_keys in Esf; contradiction].
  simpl. apply foldM_invariant; [|assumption].
  intros a2 s Hse H2.
  unfold Rounded.season_step, index, getitem.
  rewrite Hp. simpl. rewrite Hs. simpl. rewrite Esf. simpl.
  destruct (dict_get sf s) as [ss|] eqn:Ess;
    [|apply dict_get_None_keys in Ess; contradiction].
  simpl. apply foldM_invariant; [|assumption].
  intros a3 r Hr H3.
  apply rounded_triple_step; [assumption|].
  apply Ht.
  destruct (dict_get ss r) as [l|] eqn:El;
    [|apply dict_get_None_keys in El; contradiction].
  apply (lookup3_In_triples sp f s r l).
  unfold lookup3. rewrite Esf, Ess. assumption.
Qed.

Lemma rounded_param_difference :
  (forall ip, In ip (enumerate params) ->
     exists t,
       Rounded.param_term F add sub mul div changes values reference_pars ip
       = Ok t /\ Inv t) ->
  exists p,
    Rounded.param_difference F add sub mul div zero changes params values
                             reference_pars = Ok p /\
    Inv p.
Proof.
  intros H. unfold Rounded.param_difference.
  destruct (mapM_invariant Inv _ _ H) as (ts & E & Hts).
  rewrite E. simpl. eexists. split; [reflexivity|].
  apply Inv_add; [assumption|].
  apply fold_left_invariant; assumption.
Qed.

Hypothesis Inv_penalty : Inv penalty.

Lemma rounded_param_term_total (ip : nat * string) :
  Rounded.present_param F changes values reference_pars ip ->
  exists t,
    Rounded.param_term F add sub mul div changes values reference_pars ip
    = Ok t /\ Inv t.
Proof.
  destruct ip as [i p]. intros (Hr & Hv & Hx). simpl in Hr, Hv, Hx.
  unfold Rounded.param_term, getitem, index.
  destruct (dict_get reference_pars p) as [r|]; [|congruence].
  destruct (dict_get values p) as [v|]; [|congruence].
  destruct (nth_error changes i) as [x|]; [|congruence].
  simpl. eexists. split; [reflexivity|apply Inv_square].
Qed.

Lemma rounded_objective_function (p0 : string) (sp : table (list F)) :
  nth_error params 0 = Some p0 ->
  dict_get sensitivity p0 = Some sp ->
  Forall (Rounded.present_triple F isnan nan changes params sensitivity
                                 difference weights_flux weights_season
                                 weights_region)
         (triples sp) ->
  Forall (Rounded.present_param F changes values reference_pars)
         (enumerate params) ->
  exists v,
    Rounded.objective_function F add sub mul div isnan zero nan
                               changes params values reference_pars penalty
                               sensitivity difference
                               weights_flux weights_season weights_region
    = Ok v /\ Inv v.
Proof.
  intros Hp Hs Ht Hv. unfold Rounded.objective_function.
  destruct (rounded_total_difference p0 sp Hp Hs Ht) as (t & Et & Qt).
  rewrite Et. simpl.
  destruct rounded_param_difference as (p & Ep & Qp).
  - intros ip Hin. apply rounded_param_term_total.
    rewrite Forall_forall in Hv. apply Hv. assumption.
  - rewrite Ep. simpl. eexists. split; [reflexivity|].
    apply Inv_add; [assumption|]. apply Inv_mul; assumption.
Qed.

End RoundedScore.

(* ------------------------------------------------------------------ *)
(** ** Signs and zeros in binary64 *)

(** Rounding keeps the sign. *)
Lemma binary_round_aux_sign (prec emax : Z) (s : bool) (m e : Z)
      (l : location) :
  match binary_round_aux prec emax s m e l with
  | S754_nan => True
  | S754_zero s' | S754_infinity s' | S754_finite s' _ _ => s' = s
  end.
Proof.
  unfold binary_round_aux.
  destruct (shr_fexp prec emax m e l) as [mrs e1].
  destruct (shr_fexp prec emax _ e1 loc_Exact) as [mrs2 e2].
  destruct (shr_m mrs2); [reflexivity| |exact I].
  destruct (Z.leb e2 (Z.sub emax prec)); reflexivity.
Qed.

Lemma binary_round_sign (prec emax : Z) (s : bool) (m : positive) (e : Z) :
  match binary_round prec emax s m e with
  | S754_nan => True
  | S754_zero s' | S754_infinity s' | S754_finite s' _ _ => s' = s
  end.
Proof.
  unfold binary_round.
  destruct (shl_align m e _) as [mz ez]. apply binary_round_aux_sign.
Qed.

Lemma never_negative_sign (x : spec_float) :
  match x with
  | S754_nan => True
  | S754_zero s | S754_infinity s | S754_finite s _ _ => s = false
  end ->
  Binary64.never_negative x = true.
Proof.
  destruct x as [s|s| |s m e]; simpl; intros H; subst; reflexivity.
Qed.

Lemma never_negative_zero : Binary64.never_negative Binary64.zero = true.
Proof. reflexivity. Qed.

Lemma never_negative_nonneg (x : spec_float) :
  Binary64.nonneg x = true -> Binary64.never_negative x = true.
Proof.
  intros H. unfold Binary64.never_negative. rewrite H. apply orb_true_r.
Qed.

Lemma never_negative_mul (x y : spec_float) :
  Binary64.never_negative x = true ->
  Binary64.never_negative y = true ->
  Binary64.never_negative (Binary64.mul x y) = true.
Proof.
  intros Hx Hy.
  destruct x as [sx|sx| |sx mx ex]; destruct y as [sy|sy| |sy my ey];
    try reflexivity;
    try (destruct sx; try discriminate Hx; destruct sy; try discriminate Hy;
         reflexivity).
  destruct sx; [discriminate Hx|]. destruct sy; [discriminate Hy|].
  apply never_negative_sign. unfold Binary64.mul, SFmul.
  apply binary_round_aux_sign.
Qed.

Lemma never_negative_square (x : spec_float) :
  Binary64.never_negative (Binary64.mul x x) = true.
Proof.
  destruct x as [s|s| |s m e]; try (destruct s; reflexivity); try reflexivity.
  apply never_negative_sign. unfold Binary64.mul, SFmul.
  rewrite xorb_nilpotent. apply binary_round_aux_sign.
Qed.

Lemma never_negative_add (x y : spec_float) :
  Binary64.never_negative x = true ->
  Binary64.never_negative y = true ->
  Binary64.never_negative (Binary64.add x y) = true.
Proof.
  intros Hx Hy.
  destruct x as [sx|sx| |sx mx ex]; destruct y as [sy|sy| |sy my ey];
    try reflexivity;
    try (destruct sx; try discriminate Hx; destruct sy; try discriminate Hy;
         reflexivity);
    try (destruct sx; try discriminate Hx; reflexivity);
    try (destruct sy; try discriminate Hy; reflexivity).
  destruct sx; [discriminate Hx|]. destruct sy; [discriminate Hy|].
  apply never_negative_sign. unfold Binary64.add, SFadd.
  cbv [cond_Zopp]. cbn [Z.add binary_normalize].
  apply binary_round_sign.
Qed.



(** [x - x] is [+0] for a finite nonzero [x]. *)
Lemma sub_diag (s : bool) (m : positive) (e : Z) :
  Binary64.sub (S754_finite s m e) (S754_finite s m e) = S754_zero false.
Proof.
  unfold Binary64.sub, SFsub, shl_align.
  rewrite Z.min_id, !Z.sub_diag. reflexivity.
Qed.



(* ------------------------------------------------------------------ *)
(** ** The claims on the score, in binary64 *)

(** C5.  On valid model data (the first parameter has a sensitivity table;
    for every triple of that table with a defined bias the three weights
    and the coefficients and changes of all parameters are present; the
    weights are at least 0; reference value, current value and change of
    every parameter are present; the penalty coefficient is at least 0)
    [objective_function] returns, and the binary64 value it returns is never
    negative: it is nan, or it is at least 0 (possibly [+inf]). *)
Theorem objective_function_never_negative
        (changes : list spec_float) (params : list string)
        (values reference_pars : dict spec_float) (pen : spec_float)
        (sensitivity : dict (table (list spec_float)))
        (difference : table spec_float)
        (weights_flux weights_season weights_region : dict spec_float)
        (p0 : string) (sp : table (list spec_float)) :
  nth_error params 0 = Some p0 ->
  dict_get sensitivity p0 = Some sp ->
  Forall (Rounded.present_triple spec_float Binary64.isnan S754_nan
                                 changes params sensitivity difference
                                 weights_flux weights_season weights_region)
         (triples sp) ->
  Binary64.nonneg_dict weights_flux ->
  Binary64.nonneg_dict weights_region ->
  Binary64.nonneg_dict weights_season ->
  Forall (Rounded.present_param spec_float changes values reference_pars)
         (enumerate params) ->
  Binary64.nonneg pen = true ->
  exists v,
    Binary64.objective_function changes params values reference_pars pen
                                sensitivity difference
                                weights_flux weights_season weights_region
    = Ok v /\
    (Binary64.isnan v = true \/ Binary64.nonneg v = true).
Proof.
  intros Hp Hs Ht Nf Nr Ns Hv Hpen.
  destruct (rounded_objective_function
              spec_float Binary64.add Binary64.sub Binary64.mul Binary64.div
              Binary64.isnan Binary64.zero S754_nan eq_refl
              (fun x => Binary64.never_negative x = true)
              never_negative_zero never_negative_add
              changes params values reference_pars pen sensitivity difference
              weights_flux weights_season weights_region
              never_negative_mul never_negative_square)
    with (p0 := p0) (sp := sp) as (v & E & Hn); try assumption.
  - intros k w Hk. apply never_negative_nonneg. apply (Nf k w Hk).
  - intros k w Hk. apply never_negative_nonneg. apply (Nr k w Hk).
  - intros k w Hk. apply never_negative_nonneg. apply (Ns k w Hk).
  - apply never_negative_nonneg. assumption.
  - exists v. split; [exact E|].
    apply orb_true_iff. exact Hn.
Qed.


(* ------------------------------------------------------------------ *)
(** ** The score in binary64 on sample data *)

(** The claim of a score of at least 0 fails in binary64 on real data.
    Coefficients [2^600] and [-2^600] with changes [2^600] give the flux
    change [inf - inf]; and with a flux weight 0 and a bias [2^600] the
    weighted square is [0 * inf].  Every input is a finite number, the
    weights are at least 0, the penalty coefficient is 1, the reference
    values are 1; the score is nan, and [nan >= 0] is false. *)
Lemma objective_function_nan_on_real_data :
  Binary64.objective_function
    [Binary64.big; Binary64.big] Binary64.big_params
    Binary64.ones_pq Binary64.ones_pq (Binary64.pow2 0)
    Binary64.big_sensitivity Binary64.one_difference
    Binary64.w_flux Binary64.w_season Binary64.w_region
  = Ok S754_nan /\
  Binary64.objective_function
    [Binary64.zero] ["p"]
    Binary64.ones_p Binary64.ones_p (Binary64.pow2 0)
    Binary64.one_sensitivity Binary64.big_difference
    Binary64.w_flux_zero Binary64.w_season Binary64.w_region
  = Ok S754_nan /\
  Binary64.nonneg S754_nan = false /\
  forallb (fun x => Binary64.valid x && Binary64.is_finite x)
          [Binary64.big; SFopp Binary64.big; Binary64.pow2 0; Binary64.zero]
  = true.
Proof. vm_compute. repeat split. Qed.


Lemma binary64_nonneg_dict_one (k : string) (w : spec_float) :
  Binary64.nonneg w = true -> Binary64.nonneg_dict [(k, w)].
Proof.
  intros Hw k' x H. unfold dict_get in H.
  destruct (String.eqb k k'); [|discriminate H].
  injection H as <-. exact Hw.
Qed.

Lemma objective_function_never_negative_witness :
  exists v,
    Binary64.objective_function
      [Binary64.pow2 (-3)] ["p"] Binary64.ones_p Binary64.ones_p
      (Binary64.pow2 (-7)) Binary64.one_sensitivity Binary64.one_difference
      Binary64.w_flux Binary64.w_season Binary64.w_region
    = Ok v /\
    (Binary64.isnan v = true \/ Binary64.nonneg v = true).
Proof.
  apply (objective_function_never_negative
           [Binary64.pow2 (-3)] ["p"] Binary64.ones_p Binary64.ones_p
           (Binary64.pow2 (-7)) Binary64.one_sensitivity
           Binary64.one_difference
           Binary64.w_flux Binary64.w_season Binary64.w_region
           "p" Binary64.one_table).
  - reflexivity.
  - reflexivity.
  - constructor; [|constructor]. right.
    split; [discriminate|]. split; [discriminate|]. split; [discriminate|].
    constructor; [|constructor].
    split; [eexists; reflexivity|discriminate].
  - apply binary64_nonneg_dict_one. reflexivity.
  - apply binary64_nonneg_dict_one. reflexivity.
  - apply binary64_nonneg_dict_one. reflexivity.
  - constructor; [|constructor].
    split; [discriminate|]. split; discriminate.
  - reflexivity.
Defined.

